(** * BirdNET Display: location resolution and change detection

    A shallow embedding of [location_manager.py], [utils/geolocation.py]
    and [utils/config_manager.py].

    Modelling conventions.
    - A Python [float] is a finite IEEE 754 binary64 number, identified
      with the real number it denotes ([R]); NaN and the infinities are
      outside the model.  Comparisons are exact.  An arithmetic operation
      returns the exact result when that is a binary64 number and the
      platform's rounding of it otherwise; the functions of the C library
      ([sin], [cos], [atan2], [pow]) return what the platform returns.
      Rounding and the C library are read from the [env].  Python [int]
      is [Z].
    - Objects produced by [yaml.safe_load] and [json.load] are values of
      [pyval]; a [dict] is an association list in insertion order with
      distinct keys.
    - [pyval] is a tree.  Where it matters that Python assigns in place,
      on a document in which two names can denote one object (a YAML
      alias), the document is an object graph ([Module Objects]).
    - A Python exception is an element of [exn]; a call that may raise
      returns a [result].
    - The network, gpsd, the file system, the clock and the cache builder
      are read from an [env]; the files and the sequence of side effects
      are the [state] of a run.
    - Console output and logging are not modelled. *)

From Stdlib Require Import Reals Lra Lia ZArith List String Ascii Bool.
From Stdlib Require Import ROrderedType ClassicalDescription.
Import ListNotations.

Open Scope string_scope.
Open Scope Z_scope.

(** ** Exceptions and results *)

Inductive exn : Set :=
| KeyError
| ValueError
| TypeError
| AttributeError
| RequestException      (* requests.exceptions.RequestException and subclasses *)
| JSONDecodeError
| IOError               (* IOError = OSError, apart from the two below *)
| FileNotFoundError
| TimeoutExpired        (* subprocess.TimeoutExpired *)
| CalledProcessError
| ImportError
| StopIteration
| YAMLError
| OtherException.

Inductive result (A : Type) : Type :=
| Ok (a : A)
| Raise (e : exn).
Arguments Ok {A} a.
Arguments Raise {A} e.

Definition bind {A B : Type} (r : result A) (k : A -> result B) : result B :=
  match r with
  | Ok a => k a
  | Raise e => Raise e
  end.

Notation "x <- c ;; k" := (bind c (fun x => k))
  (at level 61, c at next level, right associativity).

(** Exception classes caught by an [except] clause: [e] is an instance of
    handler class [c]. *)
Definition exn_eqb (a b : exn) : bool :=
  match a, b with
  | KeyError, KeyError | ValueError, ValueError | TypeError, TypeError
  | AttributeError, AttributeError | RequestException, RequestException
  | JSONDecodeError, JSONDecodeError | IOError, IOError
  | FileNotFoundError, FileNotFoundError | TimeoutExpired, TimeoutExpired
  | CalledProcessError, CalledProcessError | ImportError, ImportError
  | StopIteration, StopIteration | YAMLError, YAMLError
  | OtherException, OtherException => true
  | _, _ => false
  end.

Definition exn_isinstance (e c : exn) : bool :=
  exn_eqb e c ||
  match e, c with
  | FileNotFoundError, IOError => true     (* FileNotFoundError is an OSError *)
  | JSONDecodeError, ValueError => true    (* JSONDecodeError is a ValueError *)
  | _, _ => false
  end.

Definition catches (handlers : list exn) (e : exn) : bool :=
  existsb (exn_isinstance e) handlers.

(** ** Python values *)

#[warnings="-register-all"]
Inductive pyval : Type :=
| PNone
| PBool (b : bool)
| PInt (z : Z)
| PFloat (r : R)
| PStr (s : string)
| PList (l : list pyval)
| PDict (d : list (string * pyval)).

Definition pydict : Type := list (string * pyval).

(** [d.get(k)] / [k in d] on a dict. *)
Fixpoint dict_get (k : string) (d : pydict) : option pyval :=
  match d with
  | [] => None
  | (k', v) :: d' => if String.eqb k' k then Some v else dict_get k d'
  end.

(** [d[k] = v]: an existing key keeps its position, a new key goes last. *)
Fixpoint dict_set (k : string) (v : pyval) (d : pydict) : pydict :=
  match d with
  | [] => [(k, v)]
  | (k', v') :: d' =>
      if String.eqb k' k then (k', v) :: d' else (k', v') :: dict_set k v d'
  end.

Definition dict_mem (k : string) (d : pydict) : bool :=
  match dict_get k d with Some _ => true | None => false end.

(** Comparisons of Python numbers, as booleans. *)
Definition Rleb (x y : R) : bool := if Rle_dec x y then true else false.
Definition Rltb (x y : R) : bool := if Rlt_dec x y then true else false.

(** The number denoted by an [int], [float] or [bool] ([bool] is a
    subclass of [int]); [None] for every other object, so that
    [isinstance(v, (int, float))] is [num_of v <> None]. *)
Definition num_of (v : pyval) : option R :=
  match v with
  | PInt z => Some (IZR z)
  | PFloat r => Some r
  | PBool b => Some (if b then 1%R else 0%R)
  | _ => None
  end.

(** Substring test, for [k in s] on a [str]. *)
Fixpoint str_contains (k s : string) : bool :=
  if String.prefix k s then true
  else match s with
       | EmptyString => false
       | String _ s' => str_contains k s'
       end.

(** [k in v] for a string [k]. *)
Definition py_in (k : string) (v : pyval) : result bool :=
  match v with
  | PDict d => Ok (dict_mem k d)
  | PList l =>
      Ok (existsb (fun x => match x with PStr s => String.eqb s k | _ => false end) l)
  | PStr s => Ok (str_contains k s)
  | _ => Raise TypeError
  end.

(** [v[k]] for a string [k]. *)
Definition py_getitem (v : pyval) (k : string) : result pyval :=
  match v with
  | PDict d => match dict_get k d with Some x => Ok x | None => Raise KeyError end
  | _ => Raise TypeError
  end.

(** [v.get(k)], with [None] as default. *)
Definition py_get (v : pyval) (k : string) : result pyval :=
  match v with
  | PDict d => Ok (match dict_get k d with Some x => x | None => PNone end)
  | _ => Raise AttributeError
  end.

(** [s.split(',')]. *)
Fixpoint split_comma_aux (acc : string) (s : string) : list string :=
  match s with
  | EmptyString => [acc]
  | String c s' =>
      if Ascii.eqb c ","%char then acc :: split_comma_aux EmptyString s'
      else split_comma_aux (acc ++ String c EmptyString) s'
  end.

Definition split_comma (s : string) : list string := split_comma_aux EmptyString s.

(** ** The environment of a run *)

(** What [os.path.exists], [open] and the YAML/JSON loader find at a path. *)
Inductive file_status : Type :=
| Missing                   (* os.path.exists is False *)
| Unreadable                (* open raises IOError *)
| Malformed                 (* the loader raises a parse error *)
| Document (v : pyval).     (* the loaded object *)

Definition filesystem : Type := string -> file_status.

Definition path_exists (fs : filesystem) (p : string) : bool :=
  match fs p with Missing => false | _ => true end.

Definition fs_put (p : string) (f : file_status) (fs : filesystem) : filesystem :=
  fun q => if String.eqb q p then f else fs q.

(** Outcome of [session.get(url); raise_for_status(); response.json()]. *)
Inductive http_outcome : Type :=
| HttpError                 (* a RequestException was raised *)
| HttpJson (data : pyval).

(** A gpsd report: [report['class']] and the attributes [lat], [lon] when
    present. *)
Record gps_report : Type := {
  report_class : string;
  report_lat : option R;
  report_lon : option R
}.

(** Float arithmetic as the platform provides it: the rounding to
    binary64 of a real number that is not a binary64 number, and the
    functions of the C library behind [math], at arguments where the C
    standard does not fix the result. *)
Record float_ops : Type := {
  round_float : R -> R;
  libm_sqrt : R -> R;
  libm_sin : R -> R;
  libm_cos : R -> R;
  libm_atan2 : R -> R -> R;
  libm_pow : R -> R -> R
}.

(** Outcome of writing a file: [open(path, 'w')] truncates the file, so
    a failure after it leaves the file changed. *)
Inductive write_result : Type :=
| Written                              (* the content is written *)
| OpenFails                            (* open raises IOError; the file is untouched *)
| WriteFails (remains : file_status).  (* IOError after the open, leaving [remains] *)

Record env : Type := {
  float_of_str : string -> option R;          (* float(s) on a str; None = ValueError *)
  fpu : float_ops;
  birdnet_go_running : nat -> bool;           (* check_birdnet_go_running at the i-th poll *)
  http_get : string -> http_outcome;
  systemctl_is_active_gpsd : result Z;        (* subprocess.run(...).returncode *)
  gps_session : result (list (result gps_report));  (* import gps; gps.gps(); session.next() ... *)
  home_dir : string;                          (* os.path.expanduser('~') *)
  cache_builder : list string -> result Z;    (* subprocess.run(cmd).returncode *)
  timestamp : string;                         (* datetime.now().strftime('%Y%m%d_%H%M%S') *)
  write_file : string -> write_result         (* writing to the path *)
}.

(** A write to the path succeeds. *)
Definition can_write (e : env) (p : string) : bool :=
  match write_file e p with
  | Written => true
  | _ => false
  end.

(** Side effects of a run, in order. *)
Inductive event : Type :=
| Copied (src dst : string)
| Wrote (path : string) (doc : pyval)
| Interrupted (path : string)          (* a write that failed after the open *)
| RanCacheBuilder (flags : list string).

Record state : Type := {
  fs : filesystem;
  log : list event
}.

(** ** Floating point *)

(** The finite binary64 numbers: [m * 2^ex] with a significand of at most
    53 bits and an exponent in the range of the format. *)
Definition binary64 (x : R) : Prop :=
  exists m ex : Z,
    (Z.abs m < 2 ^ 53)%Z /\ (-1074 <= ex <= 971)%Z /\ x = (IZR m * powerRZ 2 ex)%R.

(** The result of [+], [-], [*], [/] on floats: the exact result when it
    is a binary64 number, its rounding otherwise. *)
Definition fl_round (f : float_ops) (x : R) : R :=
  if excluded_middle_informative (binary64 x) then x else round_float f x.

Definition fl_add (f : float_ops) (x y : R) : R := fl_round f (x + y).
Definition fl_sub (f : float_ops) (x y : R) : R := fl_round f (x - y).
Definition fl_mul (f : float_ops) (x y : R) : R := fl_round f (x * y).
Definition fl_div (f : float_ops) (x y : R) : R := fl_round f (x / y).

(** [math.sqrt]: [ValueError] (math domain error) on a negative argument. *)
Definition fl_sqrt (f : float_ops) (x : R) : result R :=
  if Rltb x 0 then Raise ValueError
  else Ok (if excluded_middle_informative (binary64 (sqrt x)) then sqrt x
           else libm_sqrt f x).

(** [math.sin], [math.cos], [math.atan2] and [x ** y] on floats call the
    C library; the C standard fixes [sin(0) = 0], [atan2(0, x) = 0] for
    [x > 0] and [pow(0, y) = 0] for [y > 0]. *)
Definition fl_sin (f : float_ops) (x : R) : R :=
  if Reqb x 0 then 0%R else libm_sin f x.

Definition fl_cos (f : float_ops) (x : R) : R := libm_cos f x.

Definition fl_atan2 (f : float_ops) (y x : R) : R :=
  if Reqb y 0 && Rltb 0 x then 0%R else libm_atan2 f y x.

Definition fl_pow (f : float_ops) (x y : R) : R :=
  if Reqb x 0 && Rltb 0 y then 0%R else libm_pow f x y.

(** [math.radians(x)] is [x * (pi / 180.0)], with the constant computed
    in binary64: 0.017453292519943295. *)
Definition DEG_TO_RAD : R := 0x1.1df46a2529d39p-6%R.

Definition radians (f : float_ops) (x : R) : R := fl_mul f x DEG_TO_RAD.

(** [float(v)]. *)
Definition py_float (e : env) (v : pyval) : result R :=
  match v with
  | PFloat r => Ok r
  | PInt z => Ok (IZR z)
  | PBool b => Ok (if b then 1%R else 0%R)
  | PStr s => match float_of_str e s with Some r => Ok r | None => Raise ValueError end
  | _ => Raise TypeError
  end.

(** A location dict: keys [latitude], [longitude] and, when it comes from
    a detection method, [method] (the [description] and [accuracy] texts
    are display-only and left out). *)
Inductive detection_method : Set :=
| ipapi_co | ip_api_com | ipinfo_io | GPS_hardware | manual_configuration.

Record location : Type := {
  latitude : R;
  longitude : R;
  method : option detection_method
}.

(** ** utils/geolocation.py *)

Module LocationDetector.

Definition _validate_coordinates (lat lon : R) : bool :=
  (* Check valid ranges *)
  if negb (Rleb (-90) lat && Rleb lat 90 && (Rleb (-180) lon && Rleb lon 180)) then false
  (* Check not default/null island (0, 0) *)
  else if Reqb lat 0 && Reqb lon 0 then false
  else true.

(** The same function applied to objects read from a JSON file: a
    comparison with a non-number raises [TypeError]; [and] and chained
    comparisons evaluate left to right and stop at the first false. *)
Definition _validate_coordinates_dyn (lat lon : pyval) : result bool :=
  match num_of lat with
  | None => Raise TypeError
  | Some la =>
      if Rleb (-90) la && Rleb la 90 then
        match num_of lon with
        | None => Raise TypeError
        | Some lo => Ok (_validate_coordinates la lo)
        end
      else Ok false
  end.

Definition _parse_ipapi_co (e : env) (data : pyval) : result (option location) :=
  err <- py_in "error" data ;;
  if err then Ok None
  else
    lat <- py_getitem data "latitude" ;;
    lat <- py_float e lat ;;
    lon <- py_getitem data "longitude" ;;
    lon <- py_float e lon ;;
    Ok (Some {| latitude := lat; longitude := lon; method := Some ipapi_co |}).

Definition _parse_ip_api_com (e : env) (data : pyval) : result (option location) :=
  status <- py_get data "status" ;;
  match status with
  | PStr "success" =>
      lat <- py_getitem data "lat" ;;
      lat <- py_float e lat ;;
      lon <- py_getitem data "lon" ;;
      lon <- py_float e lon ;;
      Ok (Some {| latitude := lat; longitude := lon; method := Some ip_api_com |})
  | _ => Ok None
  end.

Definition _parse_ipinfo_io (e : env) (data : pyval) : result (option location) :=
  has <- py_in "loc" data ;;
  if negb has then Ok None
  else
    loc <- py_getitem data "loc" ;;
    match loc with
    | PStr s =>
        match split_comma s with
        | [lat; lon] =>
            lat <- py_float e (PStr lat) ;;
            lon <- py_float e (PStr lon) ;;
            Ok (Some {| latitude := lat; longitude := lon; method := Some ipinfo_io |})
        | _ => Raise ValueError      (* wrong number of values to unpack *)
        end
    | _ => Raise AttributeError      (* no attribute 'split' *)
    end.

(** API list in priority order. *)
Definition apis : list (string * (env -> pyval -> result (option location))) :=
  [ ("https://ipapi.co/json/", _parse_ipapi_co);
    ("http://ip-api.com/json/", _parse_ip_api_com);
    ("https://ipinfo.io/json", _parse_ipinfo_io) ].

(** The body of the [try] for one API: [Ok (Some l)] is the [return]. *)
Definition ip_attempt (e : env)
    (api : string * (env -> pyval -> result (option location)))
    : result (option location) :=
  match http_get e (fst api) with
  | HttpError => Raise RequestException
  | HttpJson data =>
      location <- snd api e data ;;
      match location with
      | Some l =>
          if _validate_coordinates (latitude l) (longitude l) then Ok (Some l)
          else Ok None
      | None => Ok None
      end
  end.

Fixpoint ip_loop (e : env)
    (l : list (string * (env -> pyval -> result (option location))))
    : result (option location) :=
  match l with
  | [] => Ok None
  | api :: rest =>
      match ip_attempt e api with
      | Ok (Some loc) => Ok (Some loc)
      | Ok None => ip_loop e rest
      | Raise x =>
          if catches [RequestException; JSONDecodeError; KeyError] x
          then ip_loop e rest
          else Raise x
      end
  end.

Definition _try_ip_geolocation (e : env) : result (option location) :=
  ip_loop e apis.

(** [for _ in range(n)] over the reports of the gpsd session; any
    exception of [session.next()] ends the attempt. *)
Fixpoint gps_poll (n : nat) (reports : list (result gps_report)) : option location :=
  match n with
  | O => None
  | S n' =>
      match reports with
      | [] => None
      | Raise _ :: _ => None
      | Ok r :: rest =>
          if String.eqb (report_class r) "TPV" then
            match report_lat r, report_lon r with
            | Some lat, Some lon =>
                if _validate_coordinates lat lon
                then Some {| latitude := lat; longitude := lon;
                             method := Some GPS_hardware |}
                else gps_poll n' rest
            | _, _ => gps_poll n' rest
            end
          else gps_poll n' rest
      end
  end.

Definition _try_gps_hardware (e : env) : result (option location) :=
  match systemctl_is_active_gpsd e with
  | Raise x =>
      if catches [TimeoutExpired; CalledProcessError; FileNotFoundError] x
      then Ok None else Raise x
  | Ok returncode =>
      if negb (returncode =? 0) then Ok None
      else
        match gps_session e with
        | Raise _ => Ok None         (* except ImportError / except Exception *)
        | Ok reports => Ok (gps_poll 30 reports)
        end
  end.

Definition config_paths (e : env) : list string :=
  [ "location_config.json";
    "/home/jeremy/birdnet_display/location_config.json";
    home_dir e ++ "/birdnet_display/location_config.json" ].

(** The body of the [try] after [json.load]: [Ok (Some l)] is the
    [return]. *)
Definition manual_attempt (e : env) (config : pyval) : result (option location) :=
  has <- py_in "location" config ;;
  if has then
    loc <- py_getitem config "location" ;;
    lat <- py_get loc "latitude" ;;
    lon <- py_get loc "longitude" ;;
    match lat, lon with
    | PNone, _ | _, PNone => Ok None
    | _, _ =>
        valid <- _validate_coordinates_dyn lat lon ;;
        if valid then
          la <- py_float e lat ;;
          lo <- py_float e lon ;;
          Ok (Some {| latitude := la; longitude := lo;
                      method := Some manual_configuration |})
        else Ok None
    end
  else Ok None.

Fixpoint manual_loop (e : env) (files : filesystem) (paths : list string)
    : result (option location) :=
  match paths with
  | [] => Ok None
  | path :: rest =>
      match files path with
      | Missing => manual_loop e files rest
      | Unreadable => manual_loop e files rest     (* IOError *)
      | Malformed => manual_loop e files rest      (* json.JSONDecodeError *)
      | Document config =>
          match manual_attempt e config with
          | Ok (Some loc) => Ok (Some loc)
          | Ok None => manual_loop e files rest
          | Raise x =>
              if catches [IOError; JSONDecodeError; KeyError; ValueError] x
              then manual_loop e files rest
              else Raise x
          end
      end
  end.

Definition _try_manual_config (e : env) (files : filesystem) : result (option location) :=
  manual_loop e files (config_paths e).

Definition detect_location (e : env) (files : filesystem) : result (option location) :=
  (* Method 1: IP Geolocation (primary) *)
  location <- _try_ip_geolocation e ;;
  match location with
  | Some l => Ok (Some l)
  | None =>
      (* Method 2: GPS Hardware (secondary) *)
      location <- _try_gps_hardware e ;;
      match location with
      | Some l => Ok (Some l)
      | None =>
          (* Method 3: Manual config file (tertiary) *)
          location <- _try_manual_config e files ;;
          match location with
          | Some l => Ok (Some l)
          | None => Ok None
          end
      end
  end.

End LocationDetector.

(** The template of [create_manual_config_template]. *)
Definition manual_config_template : pyval :=
  PDict [ ("location",
           PDict [ ("latitude", PFloat 33.7490);
                   ("longitude", PFloat (-84.3880));
                   ("description", PStr "Atlanta, GA");
                   ("method", PStr "manual") ]);
          ("cache",
           PDict [ ("auto_update", PBool true);
                   ("update_interval_days", PInt 7);
                   ("force_update_on_location_change", PBool true) ]);
          ("preferences",
           PDict [ ("preferred_detection_method", PStr "ip_geolocation");
                   ("fallback_to_auto_detection", PBool true) ]) ].

(** [create_manual_config_template(output_path)]: the template is written
    with [json.dump]; an [IOError] gives False. *)
Definition create_manual_config_template (e : env) (output_path : string) (s : state)
    : bool * state :=
  match write_file e output_path with
  | Written =>
      (true, {| fs := fs_put output_path (Document manual_config_template) (fs s);
                log := log s ++ [Wrote output_path manual_config_template] |})
  | OpenFails => (false, s)
  | WriteFails remains =>
      (false, {| fs := fs_put output_path remains (fs s);
                 log := log s ++ [Interrupted output_path] |})
  end.


(** ** utils/config_manager.py *)

Module BirdNETConfigManager.

(** The manager object is its [config_data] attribute ([PNone] until a
    document is loaded); [config_path] is passed where it is used. *)

Definition load (config_path : string) (files : filesystem) : bool * pyval :=
  match files config_path with
  | Missing => (false, PNone)
  | Unreadable => (false, PNone)       (* IOError *)
  | Malformed => (false, PNone)        (* yaml.YAMLError *)
  | Document v => (true, v)
  end.

(** [shutil.copy2(src, dst)]; False is an [IOError]. *)
Definition copy2 (e : env) (src dst : string) (s : state) : bool * state :=
  match fs s src with
  | Missing => (false, s)
  | Unreadable => (false, s)
  | f =>
      match write_file e dst with
      | Written => (true, {| fs := fs_put dst f (fs s); log := log s ++ [Copied src dst] |})
      | OpenFails => (false, s)
      | WriteFails remains =>
          (false, {| fs := fs_put dst remains (fs s); log := log s ++ [Interrupted dst] |})
      end
  end.

(** [with open(path, 'w') as f: yaml.dump(doc, f, ...)]; False is an
    [IOError]. *)
Definition write_yaml (e : env) (path : string) (doc : pyval) (s : state) : bool * state :=
  match write_file e path with
  | Written =>
      (true, {| fs := fs_put path (Document doc) (fs s); log := log s ++ [Wrote path doc] |})
  | OpenFails => (false, s)
  | WriteFails remains =>
      (false, {| fs := fs_put path remains (fs s); log := log s ++ [Interrupted path] |})
  end.

Definition save (e : env) (config_path : string) (create_backup : bool)
    (config_data : pyval) (s : state) : bool * state :=
  match config_data with
  | PNone => (false, s)
  | _ =>
      (* Create backup if requested *)
      let (copied, s1) :=
        if create_backup && path_exists (fs s) config_path
        then copy2 e config_path (config_path ++ ".backup_" ++ timestamp e) s
        else (true, s) in
      if copied
      then (* Write configuration *)
           write_yaml e config_path config_data s1
      else (false, s1)
  end.

Definition get_location (config_data : pyval) : result (option location) :=
  match config_data with
  | PNone => Ok None
  | _ =>
      (* self.config_data.get('birdnet', {}) *)
      birdnet_section <-
        match config_data with
        | PDict d => Ok (match dict_get "birdnet" d with Some x => x | None => PDict [] end)
        | _ => Raise AttributeError
        end ;;
      lat <- py_get birdnet_section "latitude" ;;
      lon <- py_get birdnet_section "longitude" ;;
      (* Validate coordinates *)
      match lat, lon with
      | PNone, _ | _, PNone => Ok None
      | _, _ =>
          (* isinstance(lat, (int, float)) and isinstance(lon, (int, float)) *)
          match num_of lat, num_of lon with
          | Some la, Some lo =>
              (* Check if set to default (0, 0) or invalid range *)
              if (Reqb la 0 && Reqb lo 0)
                 || negb (Rleb (-90) la && Rleb la 90 && (Rleb (-180) lo && Rleb lo 180))
              then Ok None
              else Ok (Some {| latitude := la; longitude := lo; method := None |})
          | _, _ => Ok None
          end
      end
  end.

(** Returns the outcome and the new [config_data]. *)
Definition set_location (latitude longitude : R) (config_data : pyval)
    : result bool * pyval :=
  match config_data with
  | PNone => (Ok false, config_data)
  | PDict d =>
      (* Validate coordinates *)
      if negb (Rleb (-90) latitude && Rleb latitude 90
               && (Rleb (-180) longitude && Rleb longitude 180))
      then (Ok false, config_data)
      else
        (* Ensure birdnet section exists *)
        let d1 := if negb (dict_mem "birdnet" d) then dict_set "birdnet" (PDict []) d else d in
        (* Update location *)
        match dict_get "birdnet" d1 with
        | Some (PDict b) =>
            let b1 := dict_set "latitude" (PFloat latitude) b in
            let b2 := dict_set "longitude" (PFloat longitude) b1 in
            (Ok true, PDict (dict_set "birdnet" (PDict b2) d1))
        | _ => (Raise TypeError, config_data)   (* item assignment on a non-dict *)
        end
  | _ =>
      (* a document that is not a mapping: the range check passes or
         returns False as above; ['birdnet' not in ...] or the item
         assignment then raises TypeError *)
      if negb (Rleb (-90) latitude && Rleb latitude 90
               && (Rleb (-180) longitude && Rleb longitude 180))
      then (Ok false, config_data)
      else (Raise TypeError, config_data)
  end.

(** Lines 159-175: the distance between two points given in degrees. *)
Definition haversine_km (e : env) (latitude1 longitude1 latitude2 longitude2 : R)
    : result R :=
  let f := fpu e in
  let lat1 := radians f latitude1 in
  let lon1 := radians f longitude1 in
  let lat2 := radians f latitude2 in
  let lon2 := radians f longitude2 in
  let dlat := fl_sub f lat2 lat1 in
  let dlon := fl_sub f lon2 lon1 in
  let a := fl_add f (fl_pow f (fl_sin f (fl_div f dlat 2)) 2)
             (fl_mul f (fl_mul f (fl_cos f lat1) (fl_cos f lat2))
                (fl_pow f (fl_sin f (fl_div f dlon 2)) 2)) in
  sa <- fl_sqrt f a ;;
  sb <- fl_sqrt f (fl_sub f 1 a) ;;
  let c := fl_mul f 2 (fl_atan2 f sa sb) in
  (* Earth radius in kilometers *)
  let radius := 6371%R in
  Ok (fl_mul f radius c).

Definition location_changed (e : env) (config_data : pyval)
    (new_latitude new_longitude threshold_km : R) : result bool :=
  current_location <- get_location config_data ;;
  match current_location with
  | None => Ok true          (* No location set, so this is a change *)
  | Some cur =>
      distance <- haversine_km e (latitude cur) (longitude cur) new_latitude new_longitude ;;
      if Rltb threshold_km distance then Ok true else Ok false
  end.

(** [for key in keys] of [get_setting], from the object reached so far;
    [PNone] is the [None] that the method returns. *)
Fixpoint get_setting_from (current : pyval) (keys : list string) : pyval :=
  match keys with
  | [] => current
  | key :: rest =>
      match current with
      | PDict d =>
          match dict_get key d with
          | Some v => get_setting_from v rest
          | None => PNone
          end
      | _ => PNone                       (* not isinstance(current, dict) *)
      end
  end.

Definition get_setting (config_data : pyval) (keys : list string) : pyval :=
  match config_data with
  | PNone => PNone
  | _ => get_setting_from config_data keys
  end.

(** The navigation and the final assignment of [set_setting], from the
    object reached so far; the result is that object after the update.
    A membership test, subscript or item assignment on an object that
    is not a dict raises [TypeError]. *)
Fixpoint set_setting_in (current : pyval) (keys : list string) (value : pyval)
    : result pyval :=
  match keys with
  | [] => Ok current
  | key :: rest =>
      match current with
      | PDict d =>
          match rest with
          | [] => Ok (PDict (dict_set key value d))       (* current[keys[-1]] = value *)
          | _ :: _ =>
              (* if key not in current: current[key] = {} *)
              let d1 := if negb (dict_mem key d) then dict_set key (PDict []) d else d in
              match dict_get key d1 with
              | Some child =>
                  child' <- set_setting_in child rest value ;;
                  Ok (PDict (dict_set key child' d1))
              | None => Raise KeyError
              end
          end
      | _ => Raise TypeError
      end
  end.

(** Returns the outcome and the new [config_data]. *)
Definition set_setting (value : pyval) (keys : list string) (config_data : pyval)
    : result bool * pyval :=
  match config_data with
  | PNone => (Ok false, config_data)
  | _ =>
      match keys with
      | [] => (Ok false, config_data)                    (* len(keys) == 0 *)
      | _ :: _ =>
          match set_setting_in config_data keys value with
          | Ok config_data' => (Ok true, config_data')
          | Raise x => (Raise x, config_data)
          end
      end
  end.

End BirdNETConfigManager.

(** ** Documents as object graphs *)

Module Objects.

(** The objects behind [config_data]: dicts and lists have an identity,
    and a value that is a dict or a list is a reference to it.  Item
    assignment changes the object, for every name that refers to it. *)

Definition addr : Type := nat.

Inductive oval : Type :=
| ONone
| OBool (b : bool)
| OInt (z : Z)
| OFloat (r : R)
| OStr (s : string)
| ORef (a : addr).

Arguments ORef a%_nat.

Definition odict : Type := list (string * oval).

Inductive object : Type :=
| ODict (d : odict)
| OList (l : list oval).

(** The objects of a loaded document, by address. *)
Definition heap : Type := list object.

(** [d.get(k)] and [d[k] = v], as [dict_get] and [dict_set]. *)
Fixpoint oget (k : string) (d : odict) : option oval :=
  match d with
  | [] => None
  | (k', v) :: d' => if String.eqb k' k then Some v else oget k d'
  end.

Fixpoint oset (k : string) (v : oval) (d : odict) : odict :=
  match d with
  | [] => [(k, v)]
  | (k', v') :: d' =>
      if String.eqb k' k then (k', v) :: d' else (k', v') :: oset k v d'
  end.

(** The object at an address, and its replacement. *)
Definition hget (h : heap) (a : addr) : option object := nth_error h a.

Fixpoint hset (h : heap) (a : addr) (o : object) : heap :=
  match h, a with
  | [], _ => []
  | _ :: t, O => o :: t
  | x :: t, S a' => x :: hset t a' o
  end.

(** [obj[k]] for the dict at address [a]; [None] when [k] is not a key
    of it, or the object is no dict. *)
Definition entry (h : heap) (a : addr) (k : string) : option oval :=
  match hget h a with
  | Some (ODict d) => oget k d
  | _ => None
  end.

(** [get_setting]: [isinstance(current, dict) and key in current]. *)
Fixpoint get_setting_from (h : heap) (current : oval) (keys : list string) : oval :=
  match keys with
  | [] => current
  | key :: rest =>
      match current with
      | ORef a =>
          match entry h a key with
          | Some v => get_setting_from h v rest
          | None => ONone
          end
      | _ => ONone
      end
  end.

Definition get_setting (h : heap) (config_data : oval) (keys : list string) : oval :=
  match config_data with
  | ONone => ONone
  | _ => get_setting_from h config_data keys
  end.

(** [set_setting]: a section that is missing is created as a new object;
    a membership test, subscript or item assignment on an object that is
    not a dict raises [TypeError], before anything was assigned. *)
Fixpoint set_setting_in (h : heap) (current : oval) (keys : list string) (value : oval)
    : result heap :=
  match keys with
  | [] => Ok h
  | key :: rest =>
      match current with
      | ORef a =>
          match hget h a with
          | Some (ODict d) =>
              match rest with
              | [] => Ok (hset h a (ODict (oset key value d)))   (* current[keys[-1]] = value *)
              | _ :: _ =>
                  match oget key d with
                  | Some child => set_setting_in h child rest value
                  | None =>
                      (* current[key] = {} *)
                      let b := List.length h in
                      let h1 := (hset h a (ODict (oset key (ORef b) d)) ++ [ODict []])%list in
                      set_setting_in h1 (ORef b) rest value
                  end
              end
          | _ => Raise TypeError
          end
      | _ => Raise TypeError
      end
  end.

Definition set_setting (value : oval) (keys : list string) (config_data : oval) (h : heap)
    : result bool * heap :=
  match config_data with
  | ONone => (Ok false, h)
  | _ =>
      match keys with
      | [] => (Ok false, h)
      | _ :: _ =>
          match set_setting_in h config_data keys value with
          | Ok h' => (Ok true, h')
          | Raise x => (Raise x, h)
          end
      end
  end.

(** [set_location]: the two item assignments go to the object that
    [config_data['birdnet']] refers to. *)
Definition set_location (latitude longitude : R) (config_data : oval) (h : heap)
    : result bool * heap :=
  match config_data with
  | ONone => (Ok false, h)
  | _ =>
      if negb (Rleb (-90) latitude && Rleb latitude 90
               && (Rleb (-180) longitude && Rleb longitude 180))
      then (Ok false, h)
      else
        match config_data with
        | ORef root =>
            match hget h root with
            | Some (ODict d) =>
                (* Ensure birdnet section exists *)
                let (h1, section) :=
                  match oget "birdnet" d with
                  | Some v => (h, v)
                  | None =>
                      ((hset h root (ODict (oset "birdnet" (ORef (List.length h)) d))
                        ++ [ODict []])%list,
                       ORef (List.length h))
                  end in
                (* Update location *)
                match section with
                | ORef b =>
                    match hget h1 b with
                    | Some (ODict bd) =>
                        let bd1 := oset "latitude" (OFloat latitude) bd in
                        let bd2 := oset "longitude" (OFloat longitude) bd1 in
                        (Ok true, hset h1 b (ODict bd2))
                    | _ => (Raise TypeError, h)
                    end
                | _ => (Raise TypeError, h)
                end
            | _ => (Raise TypeError, h)
            end
        | _ => (Raise TypeError, h)
        end
  end.

(** The entries that [get_setting] reads. *)
Fixpoint reads (h : heap) (current : oval) (keys : list string) : list (addr * string) :=
  match keys with
  | [] => []
  | key :: rest =>
      match current with
      | ORef a =>
          (a, key) :: match entry h a key with
                      | Some v => reads h v rest
                      | None => []
                      end
      | _ => []
      end
  end.

(** The entries that [set_setting] assigns: in sections it creates,
    and in the dict where the path ends or stops existing. *)
Fixpoint fresh_writes (b : addr) (keys : list string) : list (addr * string) :=
  match keys with
  | [] => []
  | key :: rest => (b, key) :: fresh_writes (S b) rest
  end.

Fixpoint writes (h : heap) (current : oval) (keys : list string) : list (addr * string) :=
  match keys with
  | [] => []
  | key :: rest =>
      match current with
      | ORef a =>
          match hget h a with
          | Some (ODict d) =>
              match rest with
              | [] => [(a, key)]
              | _ :: _ =>
                  match oget key d with
                  | Some child => writes h child rest
                  | None => (a, key) :: fresh_writes (List.length h) rest
                  end
              end
          | _ => []
          end
      | _ => []
      end
  end.

(** No object of the document is reached by two paths: the document is a
    tree, as [yaml.safe_load] builds it from a file without aliases. *)
Definition unshared (h : heap) (root : oval) : Prop :=
  forall (p1 p2 : list string) (a : addr),
    get_setting_from h root p1 = ORef a ->
    get_setting_from h root p2 = ORef a -> p1 = p2.

(** Every reference leads to an object of the heap. *)
Definition valid (h : heap) (v : oval) : bool :=
  match v with
  | ORef a => (a <? List.length h)%nat
  | _ => true
  end.

Definition heap_ok (h : heap) : bool :=
  forallb (fun o => match o with
                    | ODict d => forallb (fun kv => valid h (snd kv)) d
                    | OList l => forallb (valid h) l
                    end) h.

End Objects.

(** [os.path] on POSIX paths. *)

(** [(p[:i], p[i:])] for [i = p.rfind('/') + 1]. *)
Fixpoint split_last_slash (p : string) : string * string :=
  match p with
  | EmptyString => (EmptyString, EmptyString)
  | String c rest =>
      let (h, t) := split_last_slash rest in
      match h with
      | String _ _ => (String c h, t)
      | EmptyString =>
          if Ascii.eqb c "/"%char then (String c EmptyString, t)
          else (EmptyString, String c t)
      end
  end.

(** [s == '/' * len(s)]. *)
Fixpoint all_slashes (s : string) : bool :=
  match s with
  | EmptyString => true
  | String c rest => Ascii.eqb c "/"%char && all_slashes rest
  end.

(** [s.rstrip('/')]. *)
Fixpoint rstrip_slash (s : string) : string :=
  match s with
  | EmptyString => EmptyString
  | String c rest =>
      match rstrip_slash rest with
      | EmptyString => if Ascii.eqb c "/"%char then EmptyString else String c EmptyString
      | r => String c r
      end
  end.

Definition path_dirname (p : string) : string :=
  let head := fst (split_last_slash p) in
  match head with
  | EmptyString => head
  | _ => if negb (all_slashes head) then rstrip_slash head else head
  end.

Definition path_basename (p : string) : string := snd (split_last_slash p).

Fixpoint ends_with_slash (s : string) : bool :=
  match s with
  | EmptyString => false
  | String c EmptyString => Ascii.eqb c "/"%char
  | String _ rest => ends_with_slash rest
  end.

(** [os.path.join(a, b)]. *)
Definition path_join (a b : string) : string :=
  if String.prefix "/" b then b
  else match a with
       | EmptyString => b
       | _ => if ends_with_slash a then a ++ b else a ++ "/" ++ b
       end.

(** [l.sort(reverse=True)] on strings; Python orders [str] by code
    point, [String.leb] by byte, which agree on UTF-8 text. *)
Fixpoint insert_desc (x : string) (l : list string) : list string :=
  match l with
  | [] => [x]
  | y :: l' => if String.leb y x then x :: l else y :: insert_desc x l'
  end.

Fixpoint sort_desc (l : list string) : list string :=
  match l with
  | [] => []
  | x :: l' => insert_desc x (sort_desc l')
  end.

(** [restore_from_backup(config_path)]; [listdir] is [os.listdir], whose
    exceptions are [OSError]s. *)
Definition restore_from_backup (e : env) (listdir : string -> result (list string))
    (config_path : string) (s : state) : bool * state :=
  (* Find most recent backup *)
  let backup_dir := path_dirname config_path in
  let backup_basename := path_basename config_path ++ ".backup_" in
  match listdir backup_dir with
  | Raise _ => (false, s)
  | Ok names =>
      let backups := filter (String.prefix backup_basename) names in
      match sort_desc backups with
      | [] => (false, s)
      | newest :: _ =>
          let most_recent := path_join backup_dir newest in
          (* Restore *)
          BirdNETConfigManager.copy2 e most_recent config_path s
      end
  end.


(** ** location_manager.py *)

Module location_manager.

Import LocationDetector.

Definition BIRDNET_CONFIG_PATH : string := "/root/birdnet-go-app/config/config.yaml".

(** Significant distance threshold (km). *)
Definition LOCATION_CHANGE_THRESHOLD_KM : R := 100%R.

Definition run_cache_builder (e : env) (flags : list string) (s : state) : Z * state :=
  let s' := {| fs := fs s; log := log s ++ [RanCacheBuilder flags] |} in
  match cache_builder e flags with
  | Ok returncode => (returncode, s')
  | Raise _ => (1, s')                 (* except Exception: return 1 *)
  end.

(** [for i in range(n)], polling from attempt [i]. *)
Fixpoint wait_loop (e : env) (i n : nat) : bool :=
  match n with
  | O => false
  | S n' => if birdnet_go_running e i then true else wait_loop e (S i) n'
  end.

Definition wait_for_birdnet_go (e : env) (max_wait_seconds : nat) : bool :=
  wait_loop e 0 max_wait_seconds.

(** [config_manager.get_location_distance]: the class
    [BirdNETConfigManager] defines no such method (config_manager.py,
    lines 19-271), so evaluating the attribute at location_manager.py:183
    raises [AttributeError]. *)
Definition get_location_distance_attr : result R := Raise AttributeError.

(** Step 5: check if location changed significantly. *)
Definition step_check_changed (e : env) (config_data : pyval)
    (current_location : option location) (detected_location : location) : result bool :=
  match current_location with
  | Some _ =>
      location_changed <-
        BirdNETConfigManager.location_changed e config_data
          (latitude detected_location) (longitude detected_location)
          LOCATION_CHANGE_THRESHOLD_KM ;;
      if location_changed : bool then
        distance <- get_location_distance_attr ;;
        Ok true
      else Ok false
  | None => Ok true                    (* first-time location setup *)
  end.

(** Steps 6 and 7: update the configuration, then the species list. *)
Definition step_update (e : env) (config_data : pyval)
    (detected_location : location) (s : state) : result Z * state :=
  match BirdNETConfigManager.set_location
          (latitude detected_location) (longitude detected_location) config_data with
  | (Raise x, _) => (Raise x, s)
  | (Ok false, _) => (Ok 1, s)
  | (Ok true, config_data') =>
      match BirdNETConfigManager.save e BIRDNET_CONFIG_PATH true config_data' s with
      | (false, s1) => (Ok 1, s1)
      | (true, s1) =>
          let (exit_code, s2) :=
            run_cache_builder e ["--update-species"; "--incremental"; "--yes"] s1 in
          if exit_code =? 1 then (Ok 1, s2) else (Ok 0, s2)
      end
  end.

(** Step 8: location unchanged, check cache status. *)
Definition step_unchanged (e : env) (s : state) : Z * state :=
  let (exit_code, s1) := run_cache_builder e ["--check-only"] s in
  if exit_code =? 1 then
    let (exit_code, s2) := run_cache_builder e ["--incremental"] s1 in
    if exit_code =? 0 then (0, s2)
    else if exit_code =? 2 then (2, s2)
    else (1, s2)
  else if exit_code =? 2 then (2, s1)
  else (0, s1).

(** The body of the [try] in [main]. *)
Definition main_try (e : env) (s : state) : result Z * state :=
  (* Step 1: Wait for BirdNET-Go to be available *)
  if negb (wait_for_birdnet_go e 30) then (Ok 1, s)
  else
    (* Step 2: Load configuration manager *)
    let (loaded, config_data) := BirdNETConfigManager.load BIRDNET_CONFIG_PATH (fs s) in
    if negb loaded then (Ok 1, s)
    else
      (* Step 3: Get current location from config *)
      match BirdNETConfigManager.get_location config_data with
      | Raise x => (Raise x, s)
      | Ok current_location =>
          (* Step 4: Detect new location *)
          match detect_location e (fs s) with
          | Raise x => (Raise x, s)
          | Ok detected =>
              let resolved :=
                match detected with
                | Some l => Some l
                | None => current_location      (* keep existing location *)
                end in
              match resolved with
              | None => (Ok 1, s)               (* no location available *)
              | Some detected_location =>
                  match step_check_changed e config_data current_location detected_location with
                  | Raise x => (Raise x, s)
                  | Ok true => step_update e config_data detected_location s
                  | Ok false =>
                      let (code, s') := step_unchanged e s in (Ok code, s')
                  end
              end
          end
      end.

(** [main]: [except Exception] turns every exception into exit code 1. *)
Definition main (e : env) (s : state) : Z * state :=
  match main_try e s with
  | (Ok exit_code, s') => (exit_code, s')
  | (Raise _, s') => (1, s')
  end.

End location_manager.

(** ** Vocabulary of the statements *)

(** [doc[k]] at the top level of a document, when present. *)
Definition top_get (k : string) (doc : pyval) : option pyval :=
  match doc with
  | PDict d => dict_get k d
  | _ => None
  end.

(** [doc[sec][k]], when both are present. *)
Definition section_get (sec k : string) (doc : pyval) : option pyval :=
  match top_get sec doc with
  | Some (PDict b) => dict_get k b
  | _ => None
  end.

(** A configuration document as BirdNET-Go writes it: a mapping whose
    [birdnet] entry, when present, is a mapping. *)
Definition is_config_mapping (doc : pyval) : bool :=
  match doc with
  | PDict d =>
      match dict_get "birdnet" d with
      | None => true
      | Some (PDict _) => true
      | Some _ => false
      end
  | _ => false
  end.

(** The section that [set_location] writes into: the stored one, or the
    fresh empty one. *)
Definition birdnet_section_of (d : pydict) : pydict :=
  match dict_get "birdnet" d with
  | Some (PDict b) => b
  | _ => []
  end.

(** The claim that every successful [save] over an existing file has
    copied that file to the backup path. *)
Definition save_always_backs_up : Prop :=
  forall (e : env) (config_path : string) (create_backup : bool)
         (config_data : pyval) (s s' : state),
    path_exists (fs s) config_path = true ->
    BirdNETConfigManager.save e config_path create_backup config_data s = (true, s') ->
    In (Copied config_path (config_path ++ ".backup_" ++ timestamp e)) (log s').

(** What the cache builder hands back to [main] for a flag list. *)
Definition builder_exit (e : env) (flags : list string) : Z :=
  fst (location_manager.run_cache_builder e flags {| fs := fun _ => Missing; log := [] |}).

(** ** Example data *)

(** A platform given by the values it returns: [table1] and [table2]
    answer with the listed result at a listed argument. *)
Fixpoint table1 (t : list (R * R)) (x : R) : R :=
  match t with
  | [] => 0%R
  | (k, v) :: t' => if Reqb k x then v else table1 t' x
  end.

Fixpoint table2 (t : list (R * R * R)) (x y : R) : R :=
  match t with
  | [] => 0%R
  | (kx, ky, v) :: t' => if Reqb kx x && Reqb ky y then v else table2 t' x y
  end.

(** What CPython 3.11 on x86-64 Linux (glibc 2.36) returns in the
    computations of the examples: the roundings of the inexact sums,
    differences and products, and [math.sqrt], [math.sin], [math.cos],
    [math.atan2] and [x ** 2] at the arguments that occur.  The numbers
    are written as [float.hex] prints them. *)
Definition cpython_linux : float_ops :=
  {| round_float := table1
       ([ ((40.7128 * DEG_TO_RAD), 0x1.6bd0258912f4ap-1);
         (((-74.0060) * DEG_TO_RAD), (-0x1.4aa977a2e4c61p+0));
         ((33.7490 * DEG_TO_RAD), 0x1.2d957e508dfap-1);
         (((-84.3880) * DEG_TO_RAD), (-0x1.790c98912988fp+0));
         ((0x1.8417162e27c5ap-1 * 0x1.a9b7a7ec6220dp-1), 0x1.42b05f7272445p-1);
         ((0x1.42b05f7272445p-1 * 0x1.0c3c95389f23fp-7), 0x1.521d015a352dap-8);
         ((1 - 0x1.21ec15f84199ap-7), 0x1.fb784fa81ef9ap-1);
         ((6371 * 0x1.81d989b0a05d3p-3), 0x1.2c14466d35378p+10);
         ((33.8 * DEG_TO_RAD), 0x1.2e0a29b740faap-1);
         ((0x1.a9b7a7ec6220dp-1 * 0x1.a976cbde08c8dp-1), 0x1.61c3b9ba59f2cp-1);
         ((1 - 0x1.a95e3ccd75d97p-23), 0x1.fffff95a870cdp-1);
         ((6371 * 0x1.d2ad9acc028p-11), 0x1.6af0b39b1911cp+2);
         (((-87.5) * DEG_TO_RAD), (-0x1.86f4291ecf2f4p+0));
         ((87.5 * DEG_TO_RAD), 0x1.86f4291ecf2f4p+0);
         ((180 * DEG_TO_RAD), 0x1.921fb54442d18p+1);
         ((0x1.65547c4694e12p-5 * 0x1.65547c4694e12p-5), 0x1.f2c4be7ea5e21p-10);
         ((0x1.ff069da0c0ad2p-1 + 0x1.f2c4be7ea5e21p-10), 0x1.0000000000001p+0) ])%R;
     libm_sqrt := table1
       ([ (0x1.21ec15f84199ap-7, 0x1.814782fae116dp-4);
         (0x1.fb784fa81ef9ap-1, 0x1.fdbade0741984p-1);
         (0x1.a95e3ccd75d97p-23, 0x1.d2ad99c9887eep-12);
         (0x1.fffff95a870cdp-1, 0x1.fffffcad4383ap-1) ])%R;
     libm_sin := table1
       ([ ((-0x1.f1d539c427d5p-5), (-0x1.f186cbd068fc8p-5));
         ((-0x1.731907722617p-4), (-0x1.72971d7d0a29ap-4));
         (0x1.d2ad9acc028p-12, 0x1.d2ad99c9887eep-12);
         (0x1.86f4291ecf2f4p+0, 0x1.ff833f9da45f7p-1);
         (0x1.921fb54442d18p+0, 1) ])%R;
     libm_cos := table1
       ([ (0x1.6bd0258912f4ap-1, 0x1.8417162e27c5ap-1);
         (0x1.2d957e508dfap-1, 0x1.a9b7a7ec6220dp-1);
         (0x1.2e0a29b740faap-1, 0x1.a976cbde08c8dp-1);
         ((-0x1.86f4291ecf2f4p+0), 0x1.65547c4694e12p-5);
         (0x1.86f4291ecf2f4p+0, 0x1.65547c4694e12p-5) ])%R;
     libm_atan2 := table2
       ([ (0x1.814782fae116dp-4, 0x1.fdbade0741984p-1, 0x1.81d989b0a05d3p-4);
         (0x1.d2ad99c9887eep-12, 0x1.fffffcad4383ap-1, 0x1.d2ad9acc028p-12) ])%R;
     libm_pow := table2
       ([ ((-0x1.f186cbd068fc8p-5), 2, 0x1.e376552c9c0b4p-9);
         ((-0x1.72971d7d0a29ap-4), 2, 0x1.0c3c95389f23fp-7);
         (0x1.d2ad99c9887eep-12, 2, 0x1.a95e3ccd75d97p-23);
         (0x1.ff833f9da45f7p-1, 2, 0x1.ff069da0c0ad2p-1);
         (1, 2, 1) ])%R |}.

Definition example_env (http : string -> http_outcome)
    (gps : result Z * result (list (result gps_report)))
    (builder : list string -> result Z) : env :=
  {| float_of_str := fun _ => None;
     fpu := cpython_linux;
     birdnet_go_running := fun _ => true;
     http_get := http;
     systemctl_is_active_gpsd := fst gps;
     gps_session := snd gps;
     home_dir := "/root";
     cache_builder := builder;
     timestamp := "20250301_060000";
     write_file := fun _ => Written |}.

(** No gpsd service on the device. *)
Definition no_gps : result Z * result (list (result gps_report)) :=
  (Ok 3%Z, Raise ImportError).

(** gpsd running with a position fix. *)
Definition gps_fix (lat lon : R) : result Z * result (list (result gps_report)) :=
  (Ok 0%Z,
   Ok [ Ok {| report_class := "SKY"; report_lat := None; report_lon := None |};
        Ok {| report_class := "TPV"; report_lat := Some lat; report_lon := Some lon |} ]).

(** An ipapi.co answer. *)
Definition ipapi_body (city : string) (lat lon : R) : pyval :=
  PDict [ ("ip", PStr "203.0.113.7"); ("city", PStr city);
          ("latitude", PFloat lat); ("longitude", PFloat lon) ].

Definition http_ipapi (body : pyval) : string -> http_outcome :=
  fun url => if String.eqb url "https://ipapi.co/json/" then HttpJson body else HttpError.

Definition http_down : string -> http_outcome := fun _ => HttpError.

(** ipapi.co and ip-api.com unreachable, ipinfo.io answers [body]. *)
Definition http_ipinfo (body : pyval) : string -> http_outcome :=
  fun url => if String.eqb url "https://ipinfo.io/json" then HttpJson body else HttpError.

(** A BirdNET-Go configuration with a stored coordinate. *)
Definition config_at (lat lon : R) : pyval :=
  PDict [ ("main", PDict [("name", PStr "BirdNET-Go")]);
          ("birdnet", PDict [ ("sensitivity", PFloat 1);
                              ("latitude", PFloat lat);
                              ("longitude", PFloat lon);
                              ("locale", PStr "en") ]);
          ("realtime", PDict [("interval", PInt 15)]) ].

(** A configuration whose location was never set. *)
Definition config_unset : pyval := config_at 0 0.

Definition manual_file (lat lon : pyval) : pyval :=
  PDict [ ("location", PDict [ ("latitude", lat); ("longitude", lon);
                               ("description", PStr "Atlanta, GA") ]) ].

Definition state_of (files : list (string * file_status)) : state :=
  {| fs := fun p => match find (fun kv => String.eqb (fst kv) p) files with
                    | Some kv => snd kv
                    | None => Missing
                    end;
     log := [] |}.

Definition state_with_config (doc : pyval) : state :=
  state_of [ (location_manager.BIRDNET_CONFIG_PATH, Document doc) ].

Definition always (code : Z) : list string -> result Z := fun _ => Ok code.

(** The cache builder failing its check and answering [code] afterwards. *)
Definition check_fails_then (code : Z) : list string -> result Z :=
  fun flags =>
    match flags with
    | ["--check-only"] => Ok 1%Z
    | _ => Ok code
    end.

(** A device whose disk is full: every file can be opened for writing,
    and the write then fails, leaving a truncated file that no loader
    accepts. *)
Definition env_disk_full : env :=
  {| float_of_str := fun _ => None;
     fpu := cpython_linux;
     birdnet_go_running := fun _ => true;
     http_get := http_down;
     systemctl_is_active_gpsd := fst no_gps;
     gps_session := snd no_gps;
     home_dir := "/root";
     cache_builder := always 0%Z;
     timestamp := "20250301_060000";
     write_file := fun _ => WriteFails Malformed |}.

(** A device where IP geolocation, GPS and the manual file all answer. *)
Definition env_all_sources : env :=
  example_env (http_ipapi (ipapi_body "Atlanta" 33.7490 (-84.3880)))
    (gps_fix 33.7756 (-84.3963)) (always 0%Z).

Definition files_manual (lat lon : pyval) : filesystem :=
  fs (state_of [ ("location_config.json", Document (manual_file lat lon)) ]).

(** ipapi.co answering without coordinates. *)
Definition ipapi_null_body : pyval :=
  PDict [ ("ip", PStr "203.0.113.7"); ("latitude", PNone); ("longitude", PNone) ].

(** ipinfo.io answering with a [loc] that is not a pair. *)
Definition ipinfo_bad_loc_body : pyval :=
  PDict [ ("ip", PStr "203.0.113.7"); ("loc", PStr "unknown") ].

(** A file name: no ['/'] in it. *)
Fixpoint no_slash (s : string) : bool :=
  match s with
  | EmptyString => true
  | String c rest => negb (Ascii.eqb c "/"%char) && no_slash rest
  end.

(** A directory listing for [os.listdir]: the names in one directory. *)
Definition listing (dir : string) (names : list string) : string -> result (list string) :=
  fun d => if String.eqb d dir then Ok names else Raise FileNotFoundError.

(** A provider's answer that makes [_try_ip_geolocation] go on to the
    next provider: a transport failure, no location, a missing field, or
    coordinates that the validator rejects. *)
Definition provider_skipped (e : env) (url : string)
    (parser : env -> pyval -> result (option location)) : Prop :=
  http_get e url = HttpError \/
  exists data : pyval,
    http_get e url = HttpJson data /\
    (parser e data = Ok None \/
     parser e data = Raise KeyError \/
     exists l : location,
       parser e data = Ok (Some l) /\
       LocationDetector._validate_coordinates (latitude l) (longitude l) = false).

(** A provider's answer with valid coordinates. *)
Definition provider_answers (e : env) (url : string)
    (parser : env -> pyval -> result (option location)) (l : location) : Prop :=
  exists data : pyval,
    http_get e url = HttpJson data /\
    parser e data = Ok (Some l) /\
    LocationDetector._validate_coordinates (latitude l) (longitude l) = true.

(** A gpsd report that is not a usable position fix. *)
Definition not_a_fix (r : result gps_report) : Prop :=
  exists report : gps_report,
    r = Ok report /\
    (report_class report <> "TPV" \/
     report_lat report = None \/ report_lon report = None \/
     exists lat lon : R,
       report_lat report = Some lat /\ report_lon report = Some lon /\
       LocationDetector._validate_coordinates lat lon = false).

(** A manual configuration file that cannot be used: absent, unreadable
    or not JSON. *)
Definition file_unusable (f : file_status) : Prop :=
  f = Missing \/ f = Unreadable \/ f = Malformed.

(** Number of commas in a string. *)
Fixpoint count_commas (s : string) : nat :=
  match s with
  | EmptyString => O
  | String c rest => (if Ascii.eqb c ","%char then 1 else 0) + count_commas rest
  end.

(** Providers answering with the given bodies; the others unreachable. *)
Definition http_of (answers : list (string * pyval)) : string -> http_outcome :=
  fun url =>
    match find (fun kv => String.eqb (fst kv) url) answers with
    | Some kv => HttpJson (snd kv)
    | None => HttpError
    end.

(** ipapi.co refusing, ip-api.com and ipinfo.io answering. *)
Definition http_rate_limited : string -> http_outcome :=
  http_of [ ("https://ipapi.co/json/",
             PDict [("error", PBool true); ("reason", PStr "RateLimited")]);
            ("http://ip-api.com/json/",
             PDict [("status", PStr "success"); ("city", PStr "Atlanta");
                    ("lat", PFloat 33.7490); ("lon", PFloat (-84.3880))]);
            ("https://ipinfo.io/json",
             PDict [("city", PStr "Atlanta"); ("loc", PStr "33.7490,-84.3880")]) ].

(** gpsd reporting satellites, a fix without position and then a fix. *)
Definition gps_late_fix (lat lon : R) : result Z * result (list (result gps_report)) :=
  (Ok 0%Z,
   Ok [ Ok {| report_class := "SKY"; report_lat := None; report_lon := None |};
        Ok {| report_class := "TPV"; report_lat := None; report_lon := None |};
        Ok {| report_class := "TPV"; report_lat := Some 0%R; report_lon := Some 0%R |};
        Ok {| report_class := "TPV"; report_lat := Some lat; report_lon := Some lon |};
        Raise StopIteration ]).

(** A manual configuration document with numbers [la], [lo] as its
    [location.latitude] and [location.longitude]. *)
Definition manual_doc_location (doc : pyval) (la lo : R) : Prop :=
  exists (d loc : pydict) (vlat vlon : pyval),
    doc = PDict d /\
    dict_get "location" d = Some (PDict loc) /\
    dict_get "latitude" loc = Some vlat /\ num_of vlat = Some la /\
    dict_get "longitude" loc = Some vlon /\ num_of vlon = Some lo.

(** [loc.get(k)] is [None]: the key is absent or holds [null]. *)
Definition field_is_none (k : string) (loc : pydict) : Prop :=
  dict_get k loc = None \/ dict_get k loc = Some PNone.

(** A manual configuration file that [_try_manual_config] passes over:
    unusable, without a [location] entry, without one of the two
    coordinates, or with numbers the validator rejects. *)
Definition manual_file_skipped (f : file_status) : Prop :=
  file_unusable f \/
  exists d : pydict,
    f = Document (PDict d) /\
    (dict_get "location" d = None \/
     (exists loc : pydict,
        dict_get "location" d = Some (PDict loc) /\
        (field_is_none "latitude" loc \/ field_is_none "longitude" loc)) \/
     (exists la lo : R,
        manual_doc_location (PDict d) la lo /\
        LocationDetector._validate_coordinates la lo = false)).

(** A broken file in the working directory and a usable one under
    [/home/jeremy]. *)
Definition files_second_path : filesystem :=
  fs (state_of [ ("location_config.json", Malformed);
                 ("/home/jeremy/birdnet_display/location_config.json",
                  Document (manual_file (PInt 34) (PFloat (-84.3880)))) ]).

(** No comma in a string. *)
Definition no_comma (s : string) : bool := Nat.eqb (count_commas s) 0.

(** The seven ways a run can end: what it did, in order, what it left
    in the files, and the exit codes possible then. *)
Inductive run_outcome (e : env) (s : state) (code : Z) (s' : state) : Prop :=
| NothingDone :
    code = 1%Z -> s' = s -> run_outcome e s code s'
| BackupInterrupted (remains : file_status) :
    code = 1%Z ->
    log s' = (log s ++
              [Interrupted
                 (location_manager.BIRDNET_CONFIG_PATH ++ ".backup_" ++ timestamp e)%string])%list ->
    fs s' = fs_put (location_manager.BIRDNET_CONFIG_PATH ++ ".backup_" ++ timestamp e)%string
              remains (fs s) ->
    run_outcome e s code s'
| BackupOnly :
    code = 1%Z ->
    log s' = (log s ++
              [Copied location_manager.BIRDNET_CONFIG_PATH
                 (location_manager.BIRDNET_CONFIG_PATH ++ ".backup_" ++ timestamp e)%string])%list ->
    fs s' = fs_put (location_manager.BIRDNET_CONFIG_PATH ++ ".backup_" ++ timestamp e)%string
              (fs s location_manager.BIRDNET_CONFIG_PATH) (fs s) ->
    run_outcome e s code s'
| WriteInterrupted (remains : file_status) :
    code = 1%Z ->
    log s' = (log s ++
              [Copied location_manager.BIRDNET_CONFIG_PATH
                 (location_manager.BIRDNET_CONFIG_PATH ++ ".backup_" ++ timestamp e)%string;
               Interrupted location_manager.BIRDNET_CONFIG_PATH])%list ->
    fs s' = fs_put location_manager.BIRDNET_CONFIG_PATH remains
              (fs_put (location_manager.BIRDNET_CONFIG_PATH ++ ".backup_" ++ timestamp e)%string
                 (fs s location_manager.BIRDNET_CONFIG_PATH) (fs s)) ->
    run_outcome e s code s'
| Persisted (doc : pyval) :
    code = 0%Z \/ code = 1%Z ->
    log s' = (log s ++
              [Copied location_manager.BIRDNET_CONFIG_PATH
                 (location_manager.BIRDNET_CONFIG_PATH ++ ".backup_" ++ timestamp e)%string;
               Wrote location_manager.BIRDNET_CONFIG_PATH doc;
               RanCacheBuilder ["--update-species"; "--incremental"; "--yes"]])%list ->
    fs s' = fs_put location_manager.BIRDNET_CONFIG_PATH (Document doc)
              (fs_put (location_manager.BIRDNET_CONFIG_PATH ++ ".backup_" ++ timestamp e)%string
                 (fs s location_manager.BIRDNET_CONFIG_PATH) (fs s)) ->
    run_outcome e s code s'
| CacheChecked :
    code = 0%Z \/ code = 2%Z ->
    log s' = (log s ++ [RanCacheBuilder ["--check-only"]])%list ->
    fs s' = fs s ->
    run_outcome e s code s'
| CacheRepaired :
    code = 0%Z \/ code = 1%Z \/ code = 2%Z ->
    log s' = (log s ++ [RanCacheBuilder ["--check-only"];
                        RanCacheBuilder ["--incremental"]])%list ->
    fs s' = fs s ->
    run_outcome e s code s'.

(** The claim that [set_location] leaves the settings of every other
    section as they were, on every loaded document. *)
Definition set_location_spares_other_sections : Prop :=
  forall (h h' : Objects.heap) (config_data : Objects.oval) (lat lon : R)
         (r : result bool) (k : string) (rest : list string),
    k <> "birdnet" ->
    Objects.set_location lat lon config_data h = (r, h') ->
    Objects.get_setting h' config_data (k :: rest)
    = Objects.get_setting h config_data (k :: rest).

(** The claim that [set_location] returns True for a pair in range on
    every document that [load] accepts. *)
Definition set_location_accepts_loaded_documents : Prop :=
  forall (files : filesystem) (config_path : string) (config_data : pyval) (lat lon : R),
    BirdNETConfigManager.load config_path files = (true, config_data) ->
    (-90 <= lat <= 90)%R -> (-180 <= lon <= 180)%R ->
    exists config_data' : pyval,
      BirdNETConfigManager.set_location lat lon config_data = (Ok true, config_data').

(** The object graph of [config_at lat lon]: the document at address 0
    and one object for each of its three sections. *)
Definition stored_config (lat lon : R) : Objects.heap :=
  [ Objects.ODict [ ("main", Objects.ORef 1); ("birdnet", Objects.ORef 2);
                    ("realtime", Objects.ORef 3) ];
    Objects.ODict [ ("name", Objects.OStr "BirdNET-Go") ];
    Objects.ODict [ ("sensitivity", Objects.OFloat 1);
                    ("latitude", Objects.OFloat lat);
                    ("longitude", Objects.OFloat lon);
                    ("locale", Objects.OStr "en") ];
    Objects.ODict [ ("interval", Objects.OInt 15) ] ].

(** The object graph of a configuration in which the section [station]
    is an alias of the section [birdnet]:
    [birdnet: &site {latitude: 40.7128, longitude: -74.0060}],
    [station: *site]. *)
Definition aliased_config : Objects.heap :=
  [ Objects.ODict [ ("birdnet", Objects.ORef 1); ("station", Objects.ORef 1) ];
    Objects.ODict [ ("latitude", Objects.OFloat 40.7128);
                    ("longitude", Objects.OFloat (-74.0060)) ] ].

(** A configuration file whose [birdnet] key has no value, and one that
    holds a list. *)
Definition config_empty_section : pyval := PDict [ ("birdnet", PNone) ].

Definition config_list : pyval := PList [ PStr "birdnet" ].

(** * Properties *)

Import LocationDetector.
Import BirdNETConfigManager.
Import location_manager.

Open Scope R_scope.

(** ** Comparisons *)

Lemma Rleb_true_iff (x y : R) : Rleb x y = true <-> x <= y.
Proof. unfold Rleb; destruct (Rle_dec x y); split; intros; try lra; congruence. Qed.

Lemma Rleb_false_iff (x y : R) : Rleb x y = false <-> y < x.
Proof. unfold Rleb; destruct (Rle_dec x y); split; intros; try lra; congruence. Qed.

Lemma Rltb_true_iff (x y : R) : Rltb x y = true <-> x < y.
Proof. unfold Rltb; destruct (Rlt_dec x y); split; intros; try lra; congruence. Qed.

Lemma Rltb_false_iff (x y : R) : Rltb x y = false <-> y <= x.
Proof. unfold Rltb; destruct (Rlt_dec x y); split; intros; try lra; congruence. Qed.

Lemma Reqb_true_iff (x y : R) : Reqb x y = true <-> x = y.
Proof. unfold Reqb; destruct (Req_dec x y); split; intros; try lra; congruence. Qed.

Lemma Reqb_false_iff (x y : R) : Reqb x y = false <-> x <> y.
Proof. unfold Reqb; destruct (Req_dec x y); split; intros; try lra; congruence. Qed.

(** The range test shared by the validator, [get_location] and
    [set_location]. *)
Lemma in_range_true_iff (lat lon : R) :
  Rleb (-90) lat && Rleb lat 90 && (Rleb (-180) lon && Rleb lon 180) = true
  <-> (-90 <= lat <= 90 /\ -180 <= lon <= 180).
Proof.
  rewrite !andb_true_iff, !Rleb_true_iff. tauto.
Qed.

Lemma sentinel_true_iff (lat lon : R) :
  Reqb lat 0 && Reqb lon 0 = true <-> (lat = 0 /\ lon = 0).
Proof. rewrite andb_true_iff, !Reqb_true_iff. tauto. Qed.

Lemma validate_coordinates_true_iff (lat lon : R) :
  _validate_coordinates lat lon = true
  <-> (-90 <= lat <= 90 /\ -180 <= lon <= 180 /\ ~ (lat = 0 /\ lon = 0)).
Proof.
  unfold _validate_coordinates.
  destruct (Rleb (-90) lat && Rleb lat 90 && (Rleb (-180) lon && Rleb lon 180)) eqn:Hr;
    simpl.
  - apply in_range_true_iff in Hr.
    destruct (Reqb lat 0 && Reqb lon 0) eqn:Hz.
    + apply sentinel_true_iff in Hz. split; [discriminate | tauto].
    + split; [intros _ | reflexivity].
      repeat split; try tauto.
      intro H. apply sentinel_true_iff in H. congruence.
  - split; [discriminate |].
    intros (H1 & H2 & _).
    assert (H : Rleb (-90) lat && Rleb lat 90 && (Rleb (-180) lon && Rleb lon 180) = true)
      by (apply in_range_true_iff; tauto).
    congruence.
Qed.

Lemma validate_coordinates_false (lat lon : R) :
  ~ (-90 <= lat <= 90 /\ -180 <= lon <= 180 /\ ~ (lat = 0 /\ lon = 0)) ->
  _validate_coordinates lat lon = false.
Proof.
  intros H. destruct (_validate_coordinates lat lon) eqn:E; [| reflexivity].
  apply validate_coordinates_true_iff in E. contradiction.
Qed.

(** Settle the validator on a concrete pair. *)
Ltac valid_coords :=
  cbn [latitude longitude];
  first [ apply validate_coordinates_true_iff; lra
        | apply validate_coordinates_false; lra ].

(** C5: the coordinate validator rejects a latitude outside [-90,90] or a
    longitude outside [-180,180], rejects the pair (0,0), and accepts every
    other pair; (0,0), (91,0) and (0,181) are rejected and (45,-80) is
    accepted. *)
Theorem validate_coordinates_spec (lat lon : R) :
  ((lat < -90 \/ 90 < lat \/ lon < -180 \/ 180 < lon) ->
     _validate_coordinates lat lon = false) /\
  ((lat = 0 /\ lon = 0) -> _validate_coordinates lat lon = false) /\
  (-90 <= lat <= 90 -> -180 <= lon <= 180 -> ~ (lat = 0 /\ lon = 0) ->
     _validate_coordinates lat lon = true) /\
  _validate_coordinates 0 0 = false /\
  _validate_coordinates 91 0 = false /\
  _validate_coordinates 0 181 = false /\
  _validate_coordinates 45 (-80) = true.
Proof.
  repeat split.
  - intros H. apply validate_coordinates_false. lra.
  - intros H. apply validate_coordinates_false. tauto.
  - intros H1 H2 H3. apply validate_coordinates_true_iff. tauto.
  - apply validate_coordinates_false. tauto.
  - apply validate_coordinates_false. lra.
  - apply validate_coordinates_false. lra.
  - apply validate_coordinates_true_iff. lra.
Qed.

Lemma validate_coordinates_spec_witness :
  _validate_coordinates 33.7490 (-84.3880) = true /\
  _validate_coordinates (-91) 10 = false /\
  _validate_coordinates 0 0 = false.
Proof.
  split; [| split].
  - apply (proj1 (proj2 (proj2 (validate_coordinates_spec 33.7490 (-84.3880))))); lra.
  - apply (proj1 (validate_coordinates_spec (-91) 10)). left. lra.
  - apply (proj1 (proj2 (validate_coordinates_spec 0 0))). split; reflexivity.
Defined.

(** ** Floating point *)

Lemma binary64_0 : binary64 0.
Proof. exists 0%Z, 0%Z. repeat split; try lia. simpl. lra. Qed.

Lemma binary64_1 : binary64 1.
Proof. exists 1%Z, 0%Z. repeat split; try lia. simpl. lra. Qed.

Lemma binary64_intro (x : R) (m ex : Z) :
  (Z.abs m <? 2 ^ 53)%Z = true -> (-1074 <= ex <= 971)%Z ->
  x = IZR m * powerRZ 2 ex -> binary64 x.
Proof. intros Hm He Hx. exists m, ex. apply Z.ltb_lt in Hm. auto. Qed.

(** A binary64 number is an integer multiple of 2^-1074. *)
Lemma binary64_scaled (x : R) :
  binary64 x ->
  exists (m : Z) (E : nat), (Z.abs m < 2 ^ 53)%Z /\ x * 2 ^ 1074 = IZR m * 2 ^ E.
Proof.
  intros (m & ex & Hm & Hex & ->).
  exists m, (Z.to_nat (ex + 1074)). split; [assumption |].
  rewrite Rmult_assoc. f_equal.
  rewrite (pow_powerRZ 2 1074), (pow_powerRZ 2 (Z.to_nat (ex + 1074))).
  rewrite <- powerRZ_add by lra.
  f_equal. rewrite Z2Nat.id by lia. lia.
Qed.

Lemma IZR_pow2 (n : nat) : 2 ^ n = IZR (2 ^ Z.of_nat n).
Proof. rewrite <- pow_IZR. reflexivity. Qed.

(** A dyadic number whose odd numerator needs more than 53 bits is not a
    binary64 number. *)
Lemma dyadic_not_binary64 (x : R) (p : Z) (k : nat) :
  x * 2 ^ k = IZR p -> Z.odd p = true -> (2 ^ 53 <= Z.abs p)%Z -> 
  ~ binary64 x.
Proof.
  intros Hx Hodd Hbig Hb.
  destruct (binary64_scaled x Hb) as (m & E & Hm & Hs).
  set (A := (Z.of_nat E + Z.of_nat k)%Z).
  assert (Hz : (m * 2 ^ A = p * 2 ^ 1074)%Z).
  { apply eq_IZR. unfold A. rewrite Z.pow_add_r by lia. rewrite !mult_IZR, <- !IZR_pow2.
    change (IZR (2 ^ 1074)) with (IZR (2 ^ Z.of_nat 1074)).
    rewrite <- IZR_pow2, <- Hx.
    transitivity (IZR m * 2 ^ E * 2 ^ k); [ring |]. rewrite <- Hs. ring. }
  assert (HA : (0 <= A)%Z) by (unfold A; lia).
  clearbody A.
  destruct (Z_le_gt_dec A 1074) as [Hle | Hgt].
  - assert (Hm' : m = (p * 2 ^ (1074 - A))%Z).
    { apply Z.mul_reg_r with (2 ^ A)%Z; [apply Z.pow_nonzero; lia |].
      rewrite Hz, <- Z.mul_assoc, <- Z.pow_add_r by lia. do 2 f_equal. lia. }
    assert (0 < 2 ^ (1074 - A))%Z by (apply Z.pow_pos_nonneg; lia).
    subst m. rewrite Z.abs_mul, (Z.abs_eq (2 ^ _)) in Hm by lia. nia.
  - assert (Hp : p = (2 * (m * 2 ^ (A - 1075)))%Z).
    { apply Z.mul_reg_r with (2 ^ 1074)%Z; [apply Z.pow_nonzero; lia |].
      rewrite <- Hz.
      replace A with (1 + (A - 1075) + 1074)%Z at 1 by lia.
      rewrite !Z.pow_add_r by lia. change (2 ^ 1)%Z with 2%Z. ring. }
    rewrite Hp, Z.odd_mul in Hodd. discriminate Hodd.
Qed.

Lemma odd_divide_double (q a : Z) : Z.odd q = true -> (q | 2 * a)%Z -> (q | a)%Z.
Proof.
  intros Hodd (d & Hd).
  assert (He : Z.even d = true).
  { assert (H : Z.even (d * q) = true) by (rewrite <- Hd, Z.even_mul; reflexivity).
    rewrite Z.even_mul in H.
    assert (Hq : Z.even q = false) by (rewrite <- Z.negb_odd, Hodd; reflexivity).
    rewrite Hq in H. now rewrite orb_false_r in H. }
  apply Z.even_spec in He. destruct He as (d' & ->).
  exists d'. lia.
Qed.

Lemma odd_divide_pow2 (q a : Z) (j : nat) :
  Z.odd q = true -> (q | a * 2 ^ Z.of_nat j)%Z -> (q | a)%Z.
Proof.
  intros Hodd. induction j as [| j IH].
  - now rewrite Z.mul_1_r.
  - intros H. apply IH. apply odd_divide_double; [assumption |].
    rewrite Nat2Z.inj_succ, Z.pow_succ_r in H by lia.
    replace (2 * (a * 2 ^ Z.of_nat j))%Z with (a * (2 * 2 ^ Z.of_nat j))%Z by ring.
    exact H.
Qed.

(** Nor is a fraction whose denominator keeps an odd factor. *)
Lemma ratio_not_binary64 (x : R) (n q : Z) (k : nat) :
  x * (IZR q * 2 ^ k) = IZR n -> Z.odd q = true -> (n mod q <> 0)%Z ->
  ~ binary64 x.
Proof.
  intros Hx Hodd Hmod Hb.
  destruct (binary64_scaled x Hb) as (m & E & _ & Hs).
  assert (Hz : (m * 2 ^ Z.of_nat E * (q * 2 ^ Z.of_nat k) = n * 2 ^ Z.of_nat 1074)%Z).
  { apply eq_IZR. rewrite !mult_IZR, <- !IZR_pow2, <- Hs, <- Hx. ring. }
  assert (Hq : q <> 0%Z) by (intros ->; discriminate Hodd).
  apply Hmod. apply Z.mod_divide; [assumption |].
  apply odd_divide_pow2 with 1074%nat; [assumption |].
  exists (m * 2 ^ Z.of_nat E * 2 ^ Z.of_nat k)%Z. rewrite <- Hz. ring.
Qed.

(** Nor the square root of a dyadic number that is not the square of
    one. *)
Lemma sqrt_not_binary64 (q : R) (p : Z) (k : nat) :
  q * 2 ^ k = IZR p -> (0 < p)%Z -> (k <= 2148)%nat ->
  (let n := (p * 2 ^ (2148 - Z.of_nat k))%Z in (Z.sqrt n * Z.sqrt n =? n)%Z = false) ->
  ~ binary64 (sqrt q).
Proof.
  intros Hq Hp Hk Hn Hb. cbv zeta in Hn.
  destruct (binary64_scaled _ Hb) as (m & E & _ & Hs).
  assert (H2k : 0 < 2 ^ k) by (apply pow_lt; lra).
  assert (Hq0 : 0 < q).
  { apply Rmult_lt_reg_r with (2 ^ k); [assumption |]. rewrite Hq, Rmult_0_l. now apply IZR_lt. }
  set (N := (m * 2 ^ Z.of_nat E)%Z).
  assert (HN : sqrt q * 2 ^ 1074 = IZR N).
  { unfold N. rewrite mult_IZR, <- IZR_pow2. exact Hs. }
  assert (HN0 : (0 <= N)%Z).
  { apply le_IZR. rewrite <- HN. apply Rmult_le_pos; [apply sqrt_pos | apply pow_le; lra]. }
  assert (Hsq : (N * N = p * 2 ^ (2148 - Z.of_nat k))%Z).
  { apply Z.mul_reg_r with (2 ^ Z.of_nat k)%Z; [apply Z.pow_nonzero; lia |].
    transitivity (p * 2 ^ (Z.of_nat 1074 + Z.of_nat 1074))%Z.
    - apply eq_IZR. rewrite Z.pow_add_r by lia.
      rewrite !mult_IZR, <- !IZR_pow2, <- HN, <- Hq.
      transitivity (sqrt q * sqrt q * 2 ^ 1074 * 2 ^ 1074 * 2 ^ k); [ring |].
      rewrite sqrt_sqrt by lra. ring.
    - rewrite <- Z.mul_assoc, <- Z.pow_add_r by lia. do 2 f_equal. lia. }
  rewrite <- Hsq, Z.sqrt_square in Hn by assumption.
  rewrite Z.eqb_refl in Hn. discriminate.
Qed.

Lemma fl_round_exact (f : float_ops) (x v : R) : x = v -> binary64 v -> fl_round f x = v.
Proof.
  intros -> Hb. unfold fl_round.
  destruct (excluded_middle_informative _); [reflexivity | contradiction].
Qed.

Lemma fl_round_inexact (f : float_ops) (x v : R) :
  ~ binary64 x -> round_float f x = v -> fl_round f x = v.
Proof.
  intros Hb Hv. unfold fl_round.
  destruct (excluded_middle_informative _); [contradiction | assumption].
Qed.

Lemma fl_sqrt_exact (f : float_ops) (x v : R) :
  0 <= x -> binary64 (sqrt x) -> sqrt x = v -> fl_sqrt f x = Ok v.
Proof.
  intros Hx Hb Hv. unfold fl_sqrt. rewrite (proj2 (Rltb_false_iff x 0)) by assumption.
  destruct (excluded_middle_informative _); [now rewrite Hv | contradiction].
Qed.

Lemma fl_sqrt_inexact (f : float_ops) (x v : R) :
  0 <= x -> ~ binary64 (sqrt x) -> libm_sqrt f x = v -> fl_sqrt f x = Ok v.
Proof.
  intros Hx Hb Hv. unfold fl_sqrt. rewrite (proj2 (Rltb_false_iff x 0)) by assumption.
  destruct (excluded_middle_informative _); [contradiction | now rewrite Hv].
Qed.

Lemma fl_sqrt_negative (f : float_ops) (x : R) : x < 0 -> fl_sqrt f x = Raise ValueError.
Proof. intros Hx. unfold fl_sqrt. now rewrite (proj2 (Rltb_true_iff x 0)). Qed.

Lemma fl_sqrt_ok (f : float_ops) (x : R) : 0 <= x -> exists v, fl_sqrt f x = Ok v.
Proof.
  intros Hx. unfold fl_sqrt. rewrite (proj2 (Rltb_false_iff x 0)) by assumption.
  eexists. reflexivity.
Qed.

Lemma fl_sin_0 (f : float_ops) : fl_sin f 0 = 0.
Proof. unfold fl_sin. now rewrite (proj2 (Reqb_true_iff 0 0)). Qed.

Lemma fl_sin_libm (f : float_ops) (x v : R) : x <> 0 -> libm_sin f x = v -> fl_sin f x = v.
Proof. intros Hx Hv. unfold fl_sin. now rewrite (proj2 (Reqb_false_iff x 0)). Qed.

Lemma fl_pow_0 (f : float_ops) : fl_pow f 0 2 = 0.
Proof.
  unfold fl_pow.
  rewrite (proj2 (Reqb_true_iff 0 0)), (proj2 (Rltb_true_iff 0 2)) by lra. reflexivity.
Qed.

Lemma fl_pow_libm (f : float_ops) (x y v : R) :
  x <> 0 -> libm_pow f x y = v -> fl_pow f x y = v.
Proof. intros Hx Hv. unfold fl_pow. now rewrite (proj2 (Reqb_false_iff x 0)). Qed.

Lemma fl_atan2_0 (f : float_ops) (x : R) : 0 < x -> fl_atan2 f 0 x = 0.
Proof.
  intros Hx. unfold fl_atan2.
  rewrite (proj2 (Reqb_true_iff 0 0)), (proj2 (Rltb_true_iff 0 x)) by lra. reflexivity.
Qed.

Lemma fl_atan2_libm (f : float_ops) (y x v : R) :
  y <> 0 -> libm_atan2 f y x = v -> fl_atan2 f y x = v.
Proof. intros Hy Hv. unfold fl_atan2. now rewrite (proj2 (Reqb_false_iff y 0)). Qed.

(** ** The haversine computation *)

(** The distance from a point to itself is 0 on every platform: each
    step of the computation is exact. *)
Lemma haversine_km_same (e : env) (lat lon : R) : haversine_km e lat lon lat lon = Ok 0.
Proof.
  unfold haversine_km. cbv zeta. set (f := fpu e).
  assert (Hsub : forall x, fl_sub f x x = 0).
  { intros x. unfold fl_sub. apply fl_round_exact; [lra | apply binary64_0]. }
  assert (Hdiv : fl_div f 0 2 = 0).
  { unfold fl_div. apply fl_round_exact; [lra | apply binary64_0]. }
  assert (Hmul : forall x, fl_mul f x 0 = 0).
  { intros x. unfold fl_mul. apply fl_round_exact; [lra | apply binary64_0]. }
  assert (Hadd : fl_add f 0 0 = 0).
  { unfold fl_add. apply fl_round_exact; [lra | apply binary64_0]. }
  assert (Hone : fl_sub f 1 0 = 1).
  { unfold fl_sub. apply fl_round_exact; [lra | apply binary64_1]. }
  rewrite !Hsub, Hdiv, fl_sin_0, fl_pow_0, Hmul, Hadd.
  rewrite (fl_sqrt_exact f 0 0) by (try lra; rewrite sqrt_0; (apply binary64_0 || reflexivity)).
  cbv beta iota delta [bind]. rewrite Hone.
  rewrite (fl_sqrt_exact f 1 1) by (try lra; rewrite sqrt_1; (apply binary64_1 || reflexivity)).
  cbv beta iota delta [bind].
  rewrite fl_atan2_0 by lra. rewrite !Hmul. reflexivity.
Qed.

(** Evaluation of a computation on the example platform, operation by
    operation: [step t v tac] replaces the operation [t] by its result
    [v]; [tac] says why [v] is the result: the exact result is the
    binary64 number [m * 2^ex]; or it is no binary64 number (it is
    [p / 2^k] with [p] odd and wider than 53 bits, or has an odd factor
    [q] in its denominator, or is the root of a non-square) and the
    platform returns [v]; or the C library returns [v]. *)
Ltac pow2 :=
  cbn [powerRZ];
  repeat match goal with
  | |- context [Pos.to_nat ?p] =>
      let n := eval vm_compute in (Pos.to_nat p) in change (Pos.to_nat p) with n
  end.

Ltac lookup :=
  unfold cpython_linux, DEG_TO_RAD;
  cbn [round_float libm_sqrt libm_sin libm_cos libm_atan2 libm_pow table1 table2];
  repeat match goal with
  | |- context [Reqb ?k ?x] =>
      first [ rewrite (proj2 (Reqb_true_iff k x)) by lra
            | rewrite (proj2 (Reqb_false_iff k x)) by (intros ?; lra) ]
  end;
  cbn [andb]; reflexivity.

Ltac exact_zero := apply fl_round_exact; [unfold DEG_TO_RAD; lra | apply binary64_0].

Ltac exact_one := apply fl_round_exact; [unfold DEG_TO_RAD; lra | apply binary64_1].

Ltac exact_result m ex :=
  apply fl_round_exact;
  [ unfold DEG_TO_RAD; lra
  | apply (binary64_intro _ m ex); [reflexivity | lia | pow2; lra] ].

Ltac rounded_dyadic p k :=
  apply fl_round_inexact;
  [ unfold DEG_TO_RAD; apply (dyadic_not_binary64 _ p k);
    [lra | reflexivity | vm_compute; discriminate]
  | lookup ].

Ltac rounded_ratio n q k :=
  apply fl_round_inexact;
  [ unfold DEG_TO_RAD; apply (ratio_not_binary64 _ n q k);
    [lra | reflexivity | vm_compute; discriminate]
  | lookup ].

Ltac rounded_sqrt p k :=
  apply fl_sqrt_inexact;
  [ lra
  | apply (sqrt_not_binary64 _ p k); [lra | reflexivity | lia | vm_compute; reflexivity]
  | lookup ].

Ltac libm_value :=
  first [ apply fl_sin_libm; [lra | lookup]
        | apply fl_pow_libm; [lra | lookup]
        | apply fl_atan2_libm; [lra | lookup]
        | unfold fl_cos; lookup ].

Ltac step t v tac :=
  let H := fresh "S" in
  assert (H : t = v) by tac; rewrite H; clear H.

(** New York to Atlanta: 1200.3167984981246 km. *)
Lemma haversine_new_york_atlanta (e : env) :
  fpu e = cpython_linux ->
  haversine_km e 40.7128 (-74.0060) 33.7490 (-84.3880) = Ok 0x1.2c14466d35378p+10.
Proof.
  intros He. unfold haversine_km, radians. rewrite He. cbv zeta.
  step (fl_mul cpython_linux 40.7128 DEG_TO_RAD) 0x1.6bd0258912f4ap-1
    ltac:(rounded_ratio (256010690445140869683)%Z 625%Z 59%nat).
  step (fl_mul cpython_linux (-74.0060) DEG_TO_RAD) (-0x1.4aa977a2e4c61p+0)
    ltac:(rounded_ratio (-186146147227241508339)%Z 125%Z 60%nat).
  step (fl_mul cpython_linux 33.7490 DEG_TO_RAD) 0x1.2d957e508dfap-1
    ltac:(rounded_ratio (169776675479614454637)%Z 125%Z 61%nat).
  step (fl_mul cpython_linux (-84.3880) DEG_TO_RAD) (-0x1.790c98912988fp+0)
    ltac:(rounded_ratio (-106129915629897956961)%Z 125%Z 59%nat).
  step (fl_sub cpython_linux 0x1.2d957e508dfap-1 0x1.6bd0258912f4ap-1) (-0x1.f1d539c427d5p-4)
    ltac:(exact_result (-547373076195285)%Z (-52)%Z).
  step (fl_sub cpython_linux (-0x1.790c98912988fp+0) (-0x1.4aa977a2e4c61p+0)) (-0x1.731907722617p-3)
    ltac:(exact_result (-408026313008663)%Z (-51)%Z).
  step (fl_div cpython_linux (-0x1.f1d539c427d5p-4) 2) (-0x1.f1d539c427d5p-5)
    ltac:(exact_result (-547373076195285)%Z (-53)%Z).
  step (fl_sin cpython_linux (-0x1.f1d539c427d5p-5)) (-0x1.f186cbd068fc8p-5) ltac:(libm_value).
  step (fl_pow cpython_linux (-0x1.f186cbd068fc8p-5) 2) 0x1.e376552c9c0b4p-9 ltac:(libm_value).
  step (fl_cos cpython_linux 0x1.6bd0258912f4ap-1) 0x1.8417162e27c5ap-1 ltac:(libm_value).
  step (fl_cos cpython_linux 0x1.2d957e508dfap-1) 0x1.a9b7a7ec6220dp-1 ltac:(libm_value).
  step (fl_mul cpython_linux 0x1.8417162e27c5ap-1 0x1.a9b7a7ec6220dp-1) 0x1.42b05f7272445p-1
    ltac:(rounded_dyadic (25566053079732168271554898043465)%Z 105%nat).
  step (fl_div cpython_linux (-0x1.731907722617p-3) 2) (-0x1.731907722617p-4)
    ltac:(exact_result (-408026313008663)%Z (-52)%Z).
  step (fl_sin cpython_linux (-0x1.731907722617p-4)) (-0x1.72971d7d0a29ap-4) ltac:(libm_value).
  step (fl_pow cpython_linux (-0x1.72971d7d0a29ap-4) 2) 0x1.0c3c95389f23fp-7 ltac:(libm_value).
  step (fl_mul cpython_linux 0x1.42b05f7272445p-1 0x1.0c3c95389f23fp-7) 0x1.521d015a352dap-8
    ltac:(rounded_dyadic (26788095630025933593175750354683)%Z 112%nat).
  step (fl_add cpython_linux 0x1.e376552c9c0b4p-9 0x1.521d015a352dap-8) 0x1.21ec15f84199ap-7
    ltac:(exact_result (2550182730403021)%Z (-58)%Z).
  step (fl_sqrt cpython_linux 0x1.21ec15f84199ap-7) (Ok 0x1.814782fae116dp-4)
    ltac:(rounded_sqrt (2550182730403021)%Z 58%nat).
  cbv beta iota delta [bind].
  step (fl_sub cpython_linux 1 0x1.21ec15f84199ap-7) 0x1.fb784fa81ef9ap-1
    ltac:(rounded_dyadic (285680193421308723)%Z 58%nat).
  step (fl_sqrt cpython_linux 0x1.fb784fa81ef9ap-1) (Ok 0x1.fdbade0741984p-1)
    ltac:(rounded_sqrt (4463753022207949)%Z 52%nat).
  cbv beta iota delta [bind].
  step (fl_atan2 cpython_linux 0x1.814782fae116dp-4 0x1.fdbade0741984p-1) 0x1.81d989b0a05d3p-4
    ltac:(libm_value).
  step (fl_mul cpython_linux 2 0x1.81d989b0a05d3p-4) 0x1.81d989b0a05d3p-3
    ltac:(exact_result (6787940714415571)%Z (-55)%Z).
  step (fl_mul cpython_linux 6371 0x1.81d989b0a05d3p-3) 0x1.2c14466d35378p+10
    ltac:(rounded_dyadic (43245970291541602841)%Z 55%nat).
  reflexivity.
Qed.

(** Atlanta to a point 0.051 degrees north of it: 5.67094125887186 km. *)
Lemma haversine_atlanta_hop (e : env) :
  fpu e = cpython_linux ->
  haversine_km e 33.7490 (-84.3880) 33.8 (-84.3880) = Ok 0x1.6af0b39b1911cp+2.
Proof.
  intros He. unfold haversine_km, radians. rewrite He. cbv zeta.
  step (fl_mul cpython_linux 33.7490 DEG_TO_RAD) 0x1.2d957e508dfap-1
    ltac:(rounded_ratio (169776675479614454637)%Z 125%Z 61%nat).
  step (fl_mul cpython_linux (-84.3880) DEG_TO_RAD) (-0x1.790c98912988fp+0)
    ltac:(rounded_ratio (-106129915629897956961)%Z 125%Z 59%nat).
  step (fl_mul cpython_linux 33.8 DEG_TO_RAD) 0x1.2e0a29b740faap-1
    ltac:(rounded_ratio (850166172510440097)%Z 5%Z 58%nat).
  step (fl_sub cpython_linux 0x1.2e0a29b740faap-1 0x1.2d957e508dfap-1) 0x1.d2ad9acc028p-11
    ltac:(exact_result (4008734726149)%Z (-52)%Z).
  step (fl_sub cpython_linux (-0x1.790c98912988fp+0) (-0x1.790c98912988fp+0)) 0
    ltac:(exact_zero).
  step (fl_div cpython_linux 0x1.d2ad9acc028p-11 2) 0x1.d2ad9acc028p-12
    ltac:(exact_result (4008734726149)%Z (-53)%Z).
  step (fl_sin cpython_linux 0x1.d2ad9acc028p-12) 0x1.d2ad99c9887eep-12 ltac:(libm_value).
  step (fl_pow cpython_linux 0x1.d2ad99c9887eep-12 2) 0x1.a95e3ccd75d97p-23 ltac:(libm_value).
  step (fl_cos cpython_linux 0x1.2d957e508dfap-1) 0x1.a9b7a7ec6220dp-1 ltac:(libm_value).
  step (fl_cos cpython_linux 0x1.2e0a29b740faap-1) 0x1.a976cbde08c8dp-1 ltac:(libm_value).
  step (fl_mul cpython_linux 0x1.a9b7a7ec6220dp-1 0x1.a976cbde08c8dp-1) 0x1.61c3b9ba59f2cp-1
    ltac:(rounded_dyadic (56056230951493036948756669390121)%Z 106%nat).
  step (fl_div cpython_linux 0 2) 0 ltac:(exact_zero).
  step (fl_sin cpython_linux 0) 0 ltac:(apply fl_sin_0).
  step (fl_pow cpython_linux 0 2) 0 ltac:(apply fl_pow_0).
  step (fl_mul cpython_linux 0x1.61c3b9ba59f2cp-1 0) 0 ltac:(exact_zero).
  step (fl_add cpython_linux 0x1.a95e3ccd75d97p-23 0) 0x1.a95e3ccd75d97p-23
    ltac:(exact_result (7483155021258135)%Z (-75)%Z).
  step (fl_sqrt cpython_linux 0x1.a95e3ccd75d97p-23) (Ok 0x1.d2ad99c9887eep-12)
    ltac:(rounded_sqrt (7483155021258135)%Z 75%nat).
  cbv beta iota delta [bind].
  step (fl_sub cpython_linux 1 0x1.a95e3ccd75d97p-23) 0x1.fffff95a870cdp-1
    ltac:(rounded_dyadic (37778924379802140451433)%Z 75%nat).
  step (fl_sqrt cpython_linux 0x1.fffff95a870cdp-1) (Ok 0x1.fffffcad4383ap-1)
    ltac:(rounded_sqrt (9007197470617805)%Z 53%nat).
  cbv beta iota delta [bind].
  step (fl_atan2 cpython_linux 0x1.d2ad99c9887eep-12 0x1.fffffcad4383ap-1) 0x1.d2ad9acc028p-12
    ltac:(libm_value).
  step (fl_mul cpython_linux 2 0x1.d2ad9acc028p-12) 0x1.d2ad9acc028p-11
    ltac:(exact_result (4008734726149)%Z (-52)%Z).
  step (fl_mul cpython_linux 6371 0x1.d2ad9acc028p-11) 0x1.6af0b39b1911cp+2
    ltac:(rounded_dyadic (25539648940295279)%Z 52%nat).
  reflexivity.
Qed.

(** From 87.5 S on the prime meridian to 87.5 N on the date line, almost
    antipodes: the sum [a] is rounded to 1.0000000000000002, [1 - a] is
    negative and [sqrt(1 - a)] raises [ValueError]. *)
Lemma haversine_near_antipodes (e : env) :
  fpu e = cpython_linux ->
  haversine_km e (-87.5) 0 87.5 180 = Raise ValueError.
Proof.
  intros He. unfold haversine_km, radians. rewrite He. cbv zeta.
  step (fl_mul cpython_linux (-87.5) DEG_TO_RAD) (-0x1.86f4291ecf2f4p+0)
    ltac:(rounded_dyadic (-880349586919094775)%Z 59%nat).
  step (fl_mul cpython_linux 0 DEG_TO_RAD) 0 ltac:(exact_zero).
  step (fl_mul cpython_linux 87.5 DEG_TO_RAD) 0x1.86f4291ecf2f4p+0
    ltac:(rounded_dyadic (880349586919094775)%Z 59%nat).
  step (fl_mul cpython_linux 180 DEG_TO_RAD) 0x1.921fb54442d18p+1
    ltac:(rounded_dyadic (226375608064910085)%Z 56%nat).
  step (fl_sub cpython_linux 0x1.86f4291ecf2f4p+0 (-0x1.86f4291ecf2f4p+0)) 0x1.86f4291ecf2f4p+1
    ltac:(exact_result (1719432786951357)%Z (-49)%Z).
  step (fl_sub cpython_linux 0x1.921fb54442d18p+1 0) 0x1.921fb54442d18p+1
    ltac:(exact_result (884279719003555)%Z (-48)%Z).
  step (fl_div cpython_linux 0x1.86f4291ecf2f4p+1 2) 0x1.86f4291ecf2f4p+0
    ltac:(exact_result (1719432786951357)%Z (-50)%Z).
  step (fl_sin cpython_linux 0x1.86f4291ecf2f4p+0) 0x1.ff833f9da45f7p-1 ltac:(libm_value).
  step (fl_pow cpython_linux 0x1.ff833f9da45f7p-1 2) 0x1.ff069da0c0ad2p-1 ltac:(libm_value).
  step (fl_cos cpython_linux (-0x1.86f4291ecf2f4p+0)) 0x1.65547c4694e12p-5 ltac:(libm_value).
  step (fl_cos cpython_linux 0x1.86f4291ecf2f4p+0) 0x1.65547c4694e12p-5 ltac:(libm_value).
  step (fl_mul cpython_linux 0x1.65547c4694e12p-5 0x1.65547c4694e12p-5) 0x1.f2c4be7ea5e21p-10
    ltac:(rounded_dyadic (9879128572003132042346139795025)%Z 112%nat).
  step (fl_div cpython_linux 0x1.921fb54442d18p+1 2) 0x1.921fb54442d18p+0
    ltac:(exact_result (884279719003555)%Z (-49)%Z).
  step (fl_sin cpython_linux 0x1.921fb54442d18p+0) 1 ltac:(libm_value).
  step (fl_pow cpython_linux 1 2) 1 ltac:(libm_value).
  step (fl_mul cpython_linux 0x1.f2c4be7ea5e21p-10 1) 0x1.f2c4be7ea5e21p-10
    ltac:(exact_result (8774428803096097)%Z (-62)%Z).
  step (fl_add cpython_linux 0x1.ff069da0c0ad2p-1 0x1.f2c4be7ea5e21p-10) 0x1.0000000000001p+0
    ltac:(rounded_dyadic (4611686018427388449)%Z 62%nat).
  destruct (fl_sqrt_ok cpython_linux 0x1.0000000000001p+0 ltac:(lra)) as (sa & ->).
  cbv beta iota delta [bind].
  step (fl_sub cpython_linux 1 0x1.0000000000001p+0) (-0x1p-52)
    ltac:(exact_result (-1)%Z (-52)%Z).
  rewrite fl_sqrt_negative by lra. reflexivity.
Qed.

(** ** Dictionaries *)

Lemma dict_get_set_same (k : string) (v : pyval) (d : pydict) :
  dict_get k (dict_set k v d) = Some v.
Proof.
  induction d as [| [k' v'] d IH]; simpl.
  - now rewrite String.eqb_refl.
  - destruct (String.eqb k' k) eqn:E; simpl; rewrite E; [reflexivity | exact IH].
Qed.

Lemma dict_get_set_other (k k' : string) (v : pyval) (d : pydict) :
  k' <> k -> dict_get k' (dict_set k v d) = dict_get k' d.
Proof.
  intros Hne.
  induction d as [| [k0 v0] d IH]; simpl.
  - destruct (String.eqb k k') eqn:E; [| reflexivity].
    apply String.eqb_eq in E. congruence.
  - destruct (String.eqb k0 k) eqn:E; simpl.
    + apply String.eqb_eq in E. subst k0.
      destruct (String.eqb k k') eqn:E'; [| reflexivity].
      apply String.eqb_eq in E'. congruence.
    + now rewrite IH.
Qed.

(** ** The stored coordinate *)

(** [get_location] applies the validator's test to the stored numbers. *)
Lemma stored_check_validate (la lo : R) :
  (Reqb la 0 && Reqb lo 0)
  || negb (Rleb (-90) la && Rleb la 90 && (Rleb (-180) lo && Rleb lo 180))
  = negb (_validate_coordinates la lo).
Proof.
  unfold _validate_coordinates.
  destruct (Rleb (-90) la && Rleb la 90 && (Rleb (-180) lo && Rleb lo 180)); simpl.
  - rewrite orb_false_r. now destruct (Reqb la 0 && Reqb lo 0).
  - now rewrite orb_true_r.
Qed.

Lemma get_location_section (d b : pydict) (lat lon : pyval) (la lo : R) :
  dict_get "birdnet" d = Some (PDict b) ->
  dict_get "latitude" b = Some lat -> dict_get "longitude" b = Some lon ->
  num_of lat = Some la -> num_of lon = Some lo ->
  get_location (PDict d) =
    if _validate_coordinates la lo
    then Ok (Some {| latitude := la; longitude := lo; method := None |})
    else Ok None.
Proof.
  intros Hb Hlat Hlon Nla Nlo.
  unfold get_location. rewrite Hb. simpl. rewrite Hlat, Hlon.
  rewrite Nla, Nlo, stored_check_validate.
  destruct lat; try discriminate Nla; destruct lon; try discriminate Nlo;
    now destruct (_validate_coordinates la lo).
Qed.

(** A coordinate that [get_location] returns passes the validator. *)
Lemma get_location_valid (config_data : pyval) (cur : location) :
  get_location config_data = Ok (Some cur) ->
  _validate_coordinates (latitude cur) (longitude cur) = true /\ method cur = None.
Proof.
  unfold get_location.
  destruct config_data as [| | | | | | d]; try discriminate.
  destruct (dict_get "birdnet" d) as [sec |]; simpl.
  - destruct sec as [| | | | | | b]; simpl; try discriminate.
    destruct (dict_get "latitude" b) as [lat |], (dict_get "longitude" b) as [lon |];
      try (destruct lat; discriminate); try discriminate.
    destruct (num_of lat) as [la |] eqn:Nla, (num_of lon) as [lo |] eqn:Nlo;
      try (destruct lat, lon; discriminate).
    rewrite stored_check_validate.
    destruct (_validate_coordinates la lo) eqn:V; simpl;
      destruct lat; try discriminate Nla; destruct lon; try discriminate Nlo;
      intros H; inversion H; subst; simpl; auto.
  - discriminate.
Qed.

Lemma get_location_config_at (lat lon : R) :
  _validate_coordinates lat lon = true ->
  get_location (config_at lat lon)
  = Ok (Some {| latitude := lat; longitude := lon; method := None |}).
Proof.
  intros V. unfold config_at.
  erewrite get_location_section; try reflexivity. now rewrite V.
Qed.

Lemma get_location_config_unset : get_location config_unset = Ok None.
Proof.
  unfold config_unset, config_at.
  erewrite get_location_section; try reflexivity.
  rewrite validate_coordinates_false; [reflexivity | tauto].
Qed.

(** ** The change decision *)

(** C2: the decision compares the computed distance with the threshold by
    strict greater-than: a distance equal to the threshold gives false
    (unchanged), a greater one gives true (changed); without a valid stored
    coordinate the answer is true whatever the new coordinate. *)
Theorem location_changed_strict_threshold
    (e : env) (config_data : pyval) (new_latitude new_longitude threshold_km : R) :
  (get_location config_data = Ok None ->
     location_changed e config_data new_latitude new_longitude threshold_km = Ok true) /\
  (forall (cur : location) (d : R),
     get_location config_data = Ok (Some cur) ->
     haversine_km e (latitude cur) (longitude cur) new_latitude new_longitude = Ok d ->
     (d = threshold_km ->
        location_changed e config_data new_latitude new_longitude threshold_km = Ok false) /\
     (threshold_km < d ->
        location_changed e config_data new_latitude new_longitude threshold_km = Ok true) /\
     (d < threshold_km ->
        location_changed e config_data new_latitude new_longitude threshold_km = Ok false)).
Proof.
  unfold location_changed. split.
  - intros ->. reflexivity.
  - intros cur d Hcur Hd. rewrite Hcur. simpl. rewrite Hd. simpl.
    repeat split; intros H.
    + rewrite (proj2 (Rltb_false_iff threshold_km d)); [reflexivity | lra].
    + rewrite (proj2 (Rltb_true_iff threshold_km d)); [reflexivity | lra].
    + rewrite (proj2 (Rltb_false_iff threshold_km d)); [reflexivity | lra].
Qed.

Lemma location_changed_strict_threshold_witness :
  location_changed (example_env http_down no_gps (always 0%Z))
    config_unset 33.7490 (-84.3880) 100 = Ok true /\
  location_changed (example_env http_down no_gps (always 0%Z))
    (config_at 40.7128 (-74.0060)) 33.7490 (-84.3880) 0x1.2c14466d35378p+10 = Ok false /\
  location_changed (example_env http_down no_gps (always 0%Z))
    (config_at 40.7128 (-74.0060)) 33.7490 (-84.3880) 100 = Ok true /\
  location_changed (example_env http_down no_gps (always 0%Z))
    (config_at 33.7490 (-84.3880)) 33.8 (-84.3880) 100 = Ok false.
Proof.
  set (e := example_env http_down no_gps (always 0%Z)).
  assert (Hny : get_location (config_at 40.7128 (-74.0060))
                = Ok (Some {| latitude := 40.7128; longitude := -74.0060;
                              method := None |}))
    by (apply get_location_config_at; valid_coords).
  assert (Hatl : get_location (config_at 33.7490 (-84.3880))
                 = Ok (Some {| latitude := 33.7490; longitude := -84.3880;
                               method := None |}))
    by (apply get_location_config_at; valid_coords).
  pose proof (haversine_new_york_atlanta e eq_refl) as Hd.
  pose proof (haversine_atlanta_hop e eq_refl) as Hd'.
  split; [| split; [| split]].
  - apply (proj1 (location_changed_strict_threshold e config_unset 33.7490 (-84.3880) 100)).
    apply get_location_config_unset.
  - apply (proj1 (proj2 (location_changed_strict_threshold e (config_at 40.7128 (-74.0060))
                           33.7490 (-84.3880) 0x1.2c14466d35378p+10) _ _ Hny Hd)).
    reflexivity.
  - apply (proj1 (proj2 (proj2 (location_changed_strict_threshold e
                                  (config_at 40.7128 (-74.0060))
                                  33.7490 (-84.3880) 100) _ _ Hny Hd))).
    lra.
  - apply (proj2 (proj2 (proj2 (location_changed_strict_threshold e
                                  (config_at 33.7490 (-84.3880))
                                  33.8 (-84.3880) 100) _ _ Hatl Hd'))).
    lra.
Defined.

(** C8, the code at a failing input: between the valid coordinates
    (-87.5, 0) and (87.5, 180) no distance is computed; the rounded sum
    [a] exceeds 1 and [location_changed] raises [ValueError]. *)
Theorem location_changed_raises_near_antipodes (e : env) (threshold_km : R) :
  fpu e = cpython_linux ->
  _validate_coordinates (-87.5) 0 = true /\
  _validate_coordinates 87.5 180 = true /\
  haversine_km e (-87.5) 0 87.5 180 = Raise ValueError /\
  location_changed e (config_at (-87.5) 0) 87.5 180 threshold_km = Raise ValueError.
Proof.
  intros He.
  assert (V1 : _validate_coordinates (-87.5) 0 = true) by valid_coords.
  assert (V2 : _validate_coordinates 87.5 180 = true) by valid_coords.
  repeat split; try assumption.
  - now apply haversine_near_antipodes.
  - unfold location_changed. rewrite (get_location_config_at _ _ V1).
    cbn [bind latitude longitude]. now rewrite haversine_near_antipodes.
Qed.

Lemma location_changed_raises_near_antipodes_witness :
  location_changed (example_env http_down no_gps (always 0%Z))
    (config_at (-87.5) 0) 87.5 180 100 = Raise ValueError.
Proof.
  apply (location_changed_raises_near_antipodes
           (example_env http_down no_gps (always 0%Z)) 100 eq_refl).
Defined.

(** ** Writing the coordinate *)

Lemma range_check_passes (lat lon : R) :
  -90 <= lat <= 90 -> -180 <= lon <= 180 ->
  negb (Rleb (-90) lat && Rleb lat 90 && (Rleb (-180) lon && Rleb lon 180)) = false.
Proof.
  intros H1 H2. rewrite (proj2 (in_range_true_iff lat lon)); [reflexivity | tauto].
Qed.

(** On a configuration mapping and a pair in range, [set_location]
    succeeds and rewrites the two fields of the section. *)
Lemma set_location_mapping (d : pydict) (lat lon : R) :
  is_config_mapping (PDict d) = true ->
  -90 <= lat <= 90 -> -180 <= lon <= 180 ->
  exists d1,
    set_location lat lon (PDict d) =
      (Ok true,
       PDict (dict_set "birdnet"
                (PDict (dict_set "longitude" (PFloat lon)
                          (dict_set "latitude" (PFloat lat) (birdnet_section_of d)))) d1))
    /\ (forall k, k <> "birdnet" -> dict_get k d1 = dict_get k d).
Proof.
  intros Hm H1 H2. unfold set_location, birdnet_section_of.
  rewrite range_check_passes by assumption.
  unfold is_config_mapping in Hm. unfold dict_mem.
  destruct (dict_get "birdnet" d) as [sec |] eqn:E; simpl.
  - destruct sec; try discriminate Hm. rewrite E.
    exists d. split; [reflexivity | auto].
  - rewrite dict_get_set_same.
    exists (dict_set "birdnet" (PDict []) d). split; [reflexivity |].
    intros k Hk. now apply dict_get_set_other.
Qed.

(** C10 (as amended): on a loaded configuration that is a mapping whose
    [birdnet] entry is absent or a mapping, [set_location] accepts every
    pair in range and stores it; [get_location] then returns that pair,
    except for (0,0), which [set_location] stores as well but
    [get_location] reports as not set. *)
Theorem set_then_get_location (config_data : pyval) (lat lon : R) :
  is_config_mapping config_data = true ->
  -90 <= lat <= 90 -> -180 <= lon <= 180 ->
  exists config_data' : pyval,
    set_location lat lon config_data = (Ok true, config_data') /\
    section_get "birdnet" "latitude" config_data' = Some (PFloat lat) /\
    section_get "birdnet" "longitude" config_data' = Some (PFloat lon) /\
    (~ (lat = 0 /\ lon = 0) ->
       get_location config_data'
       = Ok (Some {| latitude := lat; longitude := lon; method := None |})) /\
    ((lat = 0 /\ lon = 0) -> get_location config_data' = Ok None).
Proof.
  intros Hm H1 H2.
  destruct config_data as [| | | | | | d]; try discriminate Hm.
  destruct (set_location_mapping d lat lon Hm H1 H2) as (d1 & Hset & _).
  eexists. split; [exact Hset |].
  set (b := birdnet_section_of d).
  assert (Glat : dict_get "latitude"
                   (dict_set "longitude" (PFloat lon) (dict_set "latitude" (PFloat lat) b))
                 = Some (PFloat lat)).
  { rewrite dict_get_set_other by discriminate. apply dict_get_set_same. }
  assert (Glon : dict_get "longitude"
                   (dict_set "longitude" (PFloat lon) (dict_set "latitude" (PFloat lat) b))
                 = Some (PFloat lon)) by apply dict_get_set_same.
  unfold section_get, top_get. rewrite dict_get_set_same.
  repeat split; try assumption.
  - intros Hnz.
    erewrite get_location_section;
      [| apply dict_get_set_same | exact Glat | exact Glon | reflexivity | reflexivity].
    rewrite (proj2 (validate_coordinates_true_iff lat lon)); [reflexivity | tauto].
  - intros Hz.
    erewrite get_location_section;
      [| apply dict_get_set_same | exact Glat | exact Glon | reflexivity | reflexivity].
    rewrite validate_coordinates_false; [reflexivity | tauto].
Qed.

Lemma set_then_get_location_witness :
  (exists config_data' : pyval,
     set_location 33.7490 (-84.3880) config_unset = (Ok true, config_data') /\
     get_location config_data'
     = Ok (Some {| latitude := 33.7490; longitude := -84.3880; method := None |})) /\
  (exists config_data' : pyval,
     set_location 0 0 (config_at 40.7128 (-74.0060)) = (Ok true, config_data') /\
     section_get "birdnet" "latitude" config_data' = Some (PFloat 0) /\
     get_location config_data' = Ok None).
Proof.
  split.
  - destruct (set_then_get_location config_unset 33.7490 (-84.3880) eq_refl
                ltac:(lra) ltac:(lra)) as (c & Hs & _ & _ & Hg & _).
    exists c. split; [exact Hs | apply Hg; lra].
  - destruct (set_then_get_location (config_at 40.7128 (-74.0060)) 0 0 eq_refl
                ltac:(lra) ltac:(lra)) as (c & Hs & Hl & _ & _ & Hg).
    exists c. repeat split; [exact Hs | exact Hl | apply Hg; split; reflexivity].
Defined.

(** C10, counterexample: [load] accepts a file whose [birdnet] key has
    no value, a file that holds a list and an empty file; on the first
    two [set_location] raises [TypeError], on the third it returns
    False. *)
Lemma set_location_needs_a_mapping :
  ~ set_location_accepts_loaded_documents /\
  set_location 33.7490 (-84.3880) config_empty_section = (Raise TypeError, config_empty_section) /\
  set_location 33.7490 (-84.3880) config_list = (Raise TypeError, config_list) /\
  load BIRDNET_CONFIG_PATH (fs (state_with_config PNone)) = (true, PNone) /\
  set_location 33.7490 (-84.3880) PNone = (Ok false, PNone).
Proof.
  assert (Hs : set_location 33.7490 (-84.3880) config_empty_section
               = (Raise TypeError, config_empty_section)).
  { unfold set_location, config_empty_section. rewrite range_check_passes by lra. reflexivity. }
  assert (Hl : set_location 33.7490 (-84.3880) config_list = (Raise TypeError, config_list)).
  { unfold set_location, config_list. rewrite range_check_passes by lra. reflexivity. }
  repeat split; try assumption; try reflexivity.
  intros Hclaim.
  destruct (Hclaim (fs (state_with_config config_empty_section)) BIRDNET_CONFIG_PATH
              config_empty_section 33.7490 (-84.3880) eq_refl ltac:(lra) ltac:(lra))
    as (doc & Hdoc).
  rewrite Hs in Hdoc. discriminate Hdoc.
Qed.

(** ** Files *)

Lemma append_neq_self (p x : string) : x <> EmptyString -> (p ++ x)%string <> p.
Proof.
  intros Hx. induction p as [| c p IH]; simpl.
  - assumption.
  - intros H. inversion H. contradiction.
Qed.

Lemma backup_path_fresh (e : env) (config_path : string) :
  (config_path ++ ".backup_" ++ timestamp e)%string <> config_path.
Proof. apply append_neq_self. discriminate. Qed.

Lemma fs_put_same (p : string) (f : file_status) (files : filesystem) :
  fs_put p f files p = f.
Proof. unfold fs_put. now rewrite String.eqb_refl. Qed.

Lemma fs_put_other (p q : string) (f : file_status) (files : filesystem) :
  q <> p -> fs_put p f files q = files q.
Proof.
  intros H. unfold fs_put. destruct (String.eqb q p) eqn:E; [| reflexivity].
  apply String.eqb_eq in E. contradiction.
Qed.

(** [set_location] changes nothing unless it returns True. *)
Lemma set_location_failure_keeps (lat lon : R) (config_data config_data' : pyval)
    (r : result bool) :
  set_location lat lon config_data = (r, config_data') ->
  r <> Ok true -> config_data' = config_data.
Proof.
  unfold set_location. intros H Hr.
  destruct config_data as [| | | | | | d];
    try (destruct (negb _); inversion H; subst; congruence);
    try (inversion H; subst; congruence).
  destruct (negb _); [inversion H; subst; reflexivity |].
  destruct (dict_get "birdnet" _) as [sec |];
    [destruct sec |]; inversion H; subst; congruence.
Qed.

(** What a successful [set_location] leaves alone. *)
Lemma set_location_success_frame (lat lon : R) (config_data config_data' : pyval) :
  set_location lat lon config_data = (Ok true, config_data') ->
  (forall k, k <> "birdnet" -> top_get k config_data' = top_get k config_data) /\
  (forall k, k <> "latitude" -> k <> "longitude" ->
     section_get "birdnet" k config_data' = section_get "birdnet" k config_data) /\
  section_get "birdnet" "latitude" config_data' = Some (PFloat lat) /\
  section_get "birdnet" "longitude" config_data' = Some (PFloat lon).
Proof.
  unfold set_location. intros H.
  destruct config_data as [| | | | | | d];
    try (destruct (negb _); discriminate H); try discriminate H.
  destruct (negb _); [discriminate H |].
  unfold dict_mem in H.
  destruct (dict_get "birdnet" d) as [sec |] eqn:E; simpl in H.
  - rewrite E in H. destruct sec as [| | | | | | b]; try discriminate H.
    inversion H; subst; clear H.
    unfold section_get, top_get. rewrite dict_get_set_same, E.
    repeat split.
    + intros k Hk. now apply dict_get_set_other.
    + intros k Hk1 Hk2. now rewrite !dict_get_set_other by assumption.
    + rewrite dict_get_set_other by discriminate. apply dict_get_set_same.
    + apply dict_get_set_same.
  - rewrite dict_get_set_same in H. inversion H; subst; clear H.
    unfold section_get, top_get. rewrite dict_get_set_same, E.
    repeat split.
    + intros k Hk. now rewrite !dict_get_set_other by assumption.
    + intros k Hk1 Hk2.
      change (dict_get k (dict_set "longitude" (PFloat lon)
                            (dict_set "latitude" (PFloat lat) [])) = None).
      now rewrite !dict_get_set_other by assumption.
Qed.

Lemma save_unfold (e : env) (config_path : string) (create_backup : bool)
    (config_data : pyval) (s : state) :
  config_data <> PNone ->
  save e config_path create_backup config_data s
  = (let (copied, s1) :=
       if create_backup && path_exists (fs s) config_path
       then copy2 e config_path (config_path ++ ".backup_" ++ timestamp e) s
       else (true, s) in
     if copied then write_yaml e config_path config_data s1 else (false, s1)).
Proof. intros H. destruct config_data; try reflexivity. congruence. Qed.

Lemma is_none_dec (v : pyval) : v = PNone \/ v <> PNone.
Proof. destruct v; (now left) || (right; discriminate). Qed.

(** The outcomes of a copy and of a write. *)
Lemma copy2_cases (e : env) (src dst : string) (s s1 : state) (ok : bool) :
  copy2 e src dst s = (ok, s1) ->
  (ok = false /\ s1 = s) \/
  (exists remains,
     ok = false /\ write_file e dst = WriteFails remains /\
     s1 = {| fs := fs_put dst remains (fs s); log := (log s ++ [Interrupted dst])%list |}) \/
  (ok = true /\ write_file e dst = Written /\
   s1 = {| fs := fs_put dst (fs s src) (fs s); log := (log s ++ [Copied src dst])%list |}).
Proof.
  unfold copy2. intros H.
  destruct (fs s src) eqn:Ef; try (left; inversion H; auto; fail);
    (destruct (write_file e dst) as [| | remains] eqn:Ew; inversion H; subst;
     [ right; right; auto
     | left; auto
     | right; left; exists remains; auto ]).
Qed.

Lemma write_yaml_cases (e : env) (path : string) (doc : pyval) (s s1 : state) (ok : bool) :
  write_yaml e path doc s = (ok, s1) ->
  (ok = false /\ s1 = s) \/
  (exists remains,
     ok = false /\ write_file e path = WriteFails remains /\
     s1 = {| fs := fs_put path remains (fs s); log := (log s ++ [Interrupted path])%list |}) \/
  (ok = true /\ write_file e path = Written /\
   s1 = {| fs := fs_put path (Document doc) (fs s); log := (log s ++ [Wrote path doc])%list |}).
Proof.
  unfold write_yaml. intros H.
  destruct (write_file e path) as [| | remains] eqn:Ew; inversion H; subst;
    [ right; right; auto
    | left; auto
    | right; left; exists remains; auto ].
Qed.

Lemma can_write_written (e : env) (p : string) :
  can_write e p = true <-> write_file e p = Written.
Proof. unfold can_write. destruct (write_file e p); split; congruence. Qed.

(** [save] with a backup over an existing file, outcome by outcome. *)
Lemma save_with_backup_cases (e : env) (config_path : string) (config_data : pyval)
    (s s' : state) (ok : bool) :
  path_exists (fs s) config_path = true ->
  save e config_path true config_data s = (ok, s') ->
  let backup_path := (config_path ++ ".backup_" ++ timestamp e)%string in
  (ok = false /\ s' = s) \/
  (exists remains,
     ok = false /\ fs s' = fs_put backup_path remains (fs s)
     /\ log s' = (log s ++ [Interrupted backup_path])%list) \/
  (ok = false /\ fs s' = fs_put backup_path (fs s config_path) (fs s)
   /\ log s' = (log s ++ [Copied config_path backup_path])%list) \/
  (exists remains,
     ok = false /\ fs s' = fs_put config_path remains
                             (fs_put backup_path (fs s config_path) (fs s))
     /\ log s' = (log s ++ [Copied config_path backup_path;
                            Interrupted config_path])%list) \/
  (ok = true /\ config_data <> PNone
   /\ fs s' = fs_put config_path (Document config_data)
               (fs_put backup_path (fs s config_path) (fs s))
   /\ log s' = (log s ++ [Copied config_path backup_path;
                          Wrote config_path config_data])%list).
Proof.
  intros Hex H. cbv zeta.
  set (backup_path := (config_path ++ ".backup_" ++ timestamp e)%string).
  destruct (is_none_dec config_data) as [-> | Hn].
  { left. inversion H. auto. }
  rewrite (save_unfold _ _ _ _ _ Hn), Hex in H. cbn [andb] in H. fold backup_path in H.
  destruct (copy2 e config_path backup_path s) as [copied s1] eqn:Ec.
  destruct (copy2_cases _ _ _ _ _ _ Ec) as [(-> & ->) | [(r & -> & _ & ->) | (-> & _ & ->)]].
  - left. inversion H. auto.
  - right; left. inversion H; subst. exists r. auto.
  - destruct (write_yaml_cases _ _ _ _ _ _ H)
      as [(-> & ->) | [(r & -> & _ & ->) | (-> & _ & ->)]]; cbn [fs log].
    + right; right; left. auto.
    + right; right; right; left. exists r. repeat split. now rewrite <- app_assoc.
    + right; right; right; right. repeat split; auto. now rewrite <- app_assoc.
Qed.

(** [save] without a backup: the document is written directly. *)
Lemma save_without_backup (e : env) (config_path : string) (create_backup : bool)
    (config_data : pyval) (s : state) :
  config_data <> PNone ->
  create_backup && path_exists (fs s) config_path = false ->
  can_write e config_path = true ->
  save e config_path create_backup config_data s
  = (true, {| fs := fs_put config_path (Document config_data) (fs s);
              log := log s ++ [Wrote config_path config_data] |}).
Proof.
  intros Hn Hb Hw. rewrite (save_unfold _ _ _ _ _ Hn), Hb.
  apply can_write_written in Hw. unfold write_yaml. now rewrite Hw.
Qed.

(** ** Documents as object graphs *)

Section ObjectGraphs.

Import Objects.

Lemma oget_oset_same (k : string) (v : oval) (d : odict) : oget k (oset k v d) = Some v.
Proof.
  induction d as [| [k' v'] d IH]; simpl.
  - now rewrite String.eqb_refl.
  - destruct (String.eqb k' k) eqn:E; simpl; rewrite E; [reflexivity | exact IH].
Qed.

Lemma oget_oset_other (k k' : string) (v : oval) (d : odict) :
  k' <> k -> oget k' (oset k v d) = oget k' d.
Proof.
  intros Hne.
  induction d as [| [k0 v0] d IH]; simpl.
  - destruct (String.eqb k k') eqn:E; [| reflexivity].
    apply String.eqb_eq in E. congruence.
  - destruct (String.eqb k0 k) eqn:E; simpl.
    + apply String.eqb_eq in E. subst k0.
      destruct (String.eqb k k') eqn:E'; [| reflexivity].
      apply String.eqb_eq in E'. congruence.
    + now rewrite IH.
Qed.

Lemma hset_length (h : heap) (a : addr) (o : object) : List.length (hset h a o) = List.length h.
Proof.
  revert a. induction h as [| x h IH]; intros [| a]; simpl; auto.
Qed.

Lemma hget_hset_same (h : heap) (a : addr) (o : object) :
  (a < List.length h)%nat -> hget (hset h a o) a = Some o.
Proof.
  unfold hget. revert a. induction h as [| x h IH]; intros [| a] H; simpl in *; try lia.
  - reflexivity.
  - apply IH. lia.
Qed.

Lemma hget_hset_other (h : heap) (a b : addr) (o : object) :
  b <> a -> hget (hset h a o) b = hget h b.
Proof.
  unfold hget. revert a b. induction h as [| x h IH]; intros [| a] [| b] H; simpl; try reflexivity.
  - contradiction.
  - apply IH. congruence.
Qed.

Lemma hget_some_lt (h : heap) (a : addr) (o : object) : hget h a = Some o -> (a < List.length h)%nat.
Proof. intros H. apply nth_error_Some. unfold hget in H. congruence. Qed.

Lemma hget_app_old (h h2 : heap) (a : addr) :
  (a < List.length h)%nat -> hget (h ++ h2)%list a = hget h a.
Proof. intros H. unfold hget. now apply nth_error_app1. Qed.

Lemma hget_app_new (h : heap) (o : object) : hget (h ++ [o])%list (List.length h) = Some o.
Proof. unfold hget. rewrite nth_error_app2 by lia. now rewrite Nat.sub_diag. Qed.

(** Assigning one entry of one dict. *)
Lemma entry_hset_same (h : heap) (a : addr) (d : odict) (k : string) (v : oval) :
  (a < List.length h)%nat -> entry (hset h a (ODict (oset k v d))) a k = Some v.
Proof. intros H. unfold entry. rewrite hget_hset_same by assumption. apply oget_oset_same. Qed.

Lemma entry_hset_other (h : heap) (a b : addr) (d : odict) (k k' : string) (v : oval) :
  hget h a = Some (ODict d) -> (b, k') <> (a, k) ->
  entry (hset h a (ODict (oset k v d))) b k' = entry h b k'.
Proof.
  intros Ha Hne. unfold entry.
  destruct (Nat.eq_dec b a) as [-> | Hb].
  - rewrite hget_hset_same by (eapply hget_some_lt; eassumption). rewrite Ha.
    apply oget_oset_other. congruence.
  - now rewrite hget_hset_other.
Qed.

Lemma entry_app_old (h h2 : heap) (a : addr) (k : string) :
  (a < List.length h)%nat -> entry (h ++ h2)%list a k = entry h a k.
Proof. intros H. unfold entry. now rewrite hget_app_old. Qed.

(** [get_setting] depends on the entries it reads only. *)
Lemma get_setting_from_frame (h h' : heap) (keys : list string) (current : oval) :
  (forall a k, In (a, k) (reads h current keys) -> entry h' a k = entry h a k) ->
  get_setting_from h' current keys = get_setting_from h current keys.
Proof.
  revert current. induction keys as [| key rest IH]; intros current H; simpl.
  - reflexivity.
  - destruct current as [| | | | | a]; try reflexivity.
    simpl in H. rewrite (H a key) by now left.
    destruct (entry h a key) as [v |]; [| reflexivity].
    apply IH. intros a' k' Hin. apply H. now right.
Qed.

Lemma entry_alloc_empty (h : heap) (a : addr) (k : string) :
  entry (h ++ [ODict []])%list a k = entry h a k.
Proof.
  unfold entry, hget.
  destruct (Nat.lt_ge_cases a (List.length h)) as [H | H].
  - now rewrite nth_error_app1.
  - rewrite nth_error_app2 by assumption.
    rewrite (proj2 (nth_error_None h a)) by assumption.
    destruct (a - List.length h)%nat as [| [| n]]; reflexivity.
Qed.

Lemma hget_alloc_old (h : heap) (o o' : object) (a : addr) :
  hget h a = Some o -> hget (h ++ [o'])%list a = Some o.
Proof. intros H. rewrite hget_app_old; [assumption | eapply hget_some_lt; eassumption]. Qed.

Lemma hget_hset_alloc (h : heap) (a : addr) (o o' : object) :
  hget (hset h a o ++ [o'])%list (List.length h) = Some o'.
Proof.
  unfold hget. rewrite nth_error_app2 by (rewrite hset_length; lia).
  now rewrite hset_length, Nat.sub_diag.
Qed.

(** Writing along a path of sections that were just created. *)
Lemma set_setting_in_fresh (value : oval) (rest : list string) :
  rest <> [] ->
  forall (h1 : heap) (b : addr),
    hget h1 b = Some (ODict []) -> S b = List.length h1 ->
    exists h',
      set_setting_in h1 (ORef b) rest value = Ok h' /\
      (forall a k, ~ In (a, k) (fresh_writes b rest) -> entry h' a k = entry h1 a k) /\
      (forall a l, hget h1 a = Some (OList l) -> hget h' a = Some (OList l)).
Proof.
  induction rest as [| key rest IH]; [congruence |]. intros _ h1 b Hb Hlen.
  assert (Hlt : (b < List.length h1)%nat) by lia.
  cbn [set_setting_in]. rewrite Hb.
  destruct rest as [| key2 rest].
  - eexists. split; [reflexivity |]. split.
    + intros a k Hn. apply entry_hset_other; [assumption |].
      intros E. apply Hn. left. now symmetry.
    + intros a l Ha. rewrite hget_hset_other; [assumption |]. congruence.
  - cbn [oget].
    set (h2 := (hset h1 b (ODict (oset key (ORef (List.length h1)) [])) ++ [ODict []])%list).
    destruct (IH ltac:(discriminate) h2 (List.length h1)) as (h' & Hset & Hfr & Hls).
    + unfold h2. apply hget_hset_alloc.
    + unfold h2. rewrite length_app, hset_length. simpl. lia.
    + exists h'. split; [exact Hset |]. split.
      * intros a k Hn. rewrite Hfr.
        -- unfold h2. rewrite entry_alloc_empty. apply entry_hset_other; [assumption |].
           intros E. apply Hn. left. now symmetry.
        -- intros Hin. apply Hn. right. rewrite Hlen. exact Hin.
      * intros a l Ha. apply Hls. unfold h2. apply hget_alloc_old.
        rewrite hget_hset_other; [assumption | congruence].
Qed.

(** [set_setting] changes the entries it assigns only. *)
Lemma set_setting_in_writes (value : oval) (keys : list string) :
  forall (h h' : heap) (current : oval),
    set_setting_in h current keys value = Ok h' ->
    (forall a k, ~ In (a, k) (writes h current keys) -> entry h' a k = entry h a k) /\
    (forall a l, hget h a = Some (OList l) -> hget h' a = Some (OList l)).
Proof.
  induction keys as [| key rest IH]; intros h h' current H.
  - inversion H; subst. auto.
  - cbn [set_setting_in writes] in *.
    destruct current as [| | | | | a]; try discriminate H.
    destruct (hget h a) as [[d | l] |] eqn:Ha; try discriminate H.
    destruct rest as [| key2 rest].
    + inversion H; subst; clear H. split.
      * intros a' k Hn. apply entry_hset_other; [assumption |].
        intros E. apply Hn. left. now symmetry.
      * intros a' l Hl. rewrite hget_hset_other; [assumption | congruence].
    + destruct (oget key d) as [child |] eqn:Hk.
      * now apply IH.
      * cbv zeta in H.
        set (h1 := (hset h a (ODict (oset key (ORef (List.length h)) d)) ++ [ODict []])%list) in *.
        destruct (set_setting_in_fresh value (key2 :: rest) ltac:(discriminate) h1 (List.length h))
          as (h'' & Hset & Hfr & Hls).
        -- unfold h1. apply hget_hset_alloc.
        -- unfold h1. rewrite length_app, hset_length. simpl. lia.
        -- rewrite Hset in H. inversion H; subst h''; clear H. split.
           ++ intros a' k Hn. rewrite Hfr.
              ** unfold h1. rewrite entry_alloc_empty. apply entry_hset_other; [assumption |].
                 intros E. apply Hn. left. now symmetry.
              ** intros Hin. apply Hn. right. exact Hin.
           ++ intros a' l Hl. apply Hls. unfold h1. apply hget_alloc_old.
              rewrite hget_hset_other; [assumption | congruence].
Qed.

Lemma get_setting_from_none (h : heap) (q : list string) :
  get_setting_from h ONone q = ONone.
Proof. now destruct q. Qed.

Lemma get_setting_from_app (h : heap) (p q : list string) (current : oval) :
  get_setting_from h current (p ++ q)
  = get_setting_from h (get_setting_from h current p) q.
Proof.
  revert current. induction p as [| key p IH]; intros current; simpl.
  - reflexivity.
  - destruct current as [| | | | | a]; try (now rewrite get_setting_from_none).
    destruct (entry h a key) as [v |]; [apply IH | now rewrite get_setting_from_none].
Qed.

(** An entry that [get_setting] reads belongs to an object on its path. *)
Lemma reads_on_path (h : heap) (keys : list string) :
  forall (current : oval) (a : addr) (k : string),
    In (a, k) (reads h current keys) ->
    exists p q, keys = (p ++ k :: q)%list /\ get_setting_from h current p = ORef a.
Proof.
  induction keys as [| key rest IH]; intros current a k Hin; simpl in Hin; [contradiction |].
  destruct current as [| | | | | a0]; try contradiction.
  destruct Hin as [E | Hin].
  - inversion E; subst. exists [], rest. split; reflexivity.
  - destruct (entry h a0 key) as [v |] eqn:Ev; [| contradiction].
    destruct (IH v a k Hin) as (p & q & -> & Hp).
    exists (key :: p), q. split; [reflexivity |]. simpl. now rewrite Ev.
Qed.

(** A stored value is the value of some entry. *)
Lemma oget_In (k : string) (d : odict) (v : oval) :
  oget k d = Some v -> exists k', In (k', v) d.
Proof.
  induction d as [| [k0 v0] d IH]; simpl; [discriminate |].
  destruct (String.eqb k0 k).
  - intros H. inversion H; subst. exists k0. now left.
  - intros H. destruct (IH H) as (k' & Hin). exists k'. now right.
Qed.

Lemma entry_valid (h : heap) (a : addr) (k : string) (v : oval) :
  heap_ok h = true -> entry h a k = Some v -> valid h v = true.
Proof.
  intros Hok He. unfold entry in He.
  destruct (hget h a) as [[d | l] |] eqn:Ha; try discriminate He.
  unfold heap_ok in Hok. rewrite forallb_forall in Hok.
  specialize (Hok _ (nth_error_In h a Ha)). cbv beta iota in Hok.
  rewrite forallb_forall in Hok.
  destruct (oget_In _ _ _ He) as (k' & Hin). exact (Hok _ Hin).
Qed.

Lemma get_setting_from_valid (h : heap) (p : list string) :
  heap_ok h = true ->
  forall current, valid h current = true -> valid h (get_setting_from h current p) = true.
Proof.
  intros Hok. induction p as [| key p IH]; intros current Hv; simpl.
  - assumption.
  - destruct current as [| | | | | a]; try reflexivity.
    destruct (entry h a key) as [v |] eqn:Ev; [| reflexivity].
    apply IH. eapply entry_valid; eassumption.
Qed.

Lemma unshared_child (h : heap) (root : oval) (p : list string) :
  unshared h root -> unshared h (get_setting_from h root p).
Proof.
  intros Hu p1 p2 b H1 H2.
  apply (app_inv_head p). apply (Hu _ _ b); now rewrite get_setting_from_app.
Qed.

(** The three outcomes of [set_location]: nothing done; the two entries
    assigned in the existing section; a section created and filled. *)
Lemma set_location_cases (lat lon : R) (root : oval) (h h' : heap) (r : result bool) :
  Objects.set_location lat lon root h = (r, h') ->
  (r <> Ok true /\ h' = h) \/
  (exists a d b bd,
     root = ORef a /\ hget h a = Some (ODict d) /\ oget "birdnet" d = Some (ORef b) /\
     hget h b = Some (ODict bd) /\ r = Ok true /\
     h' = hset h b (ODict (oset "longitude" (OFloat lon)
                             (oset "latitude" (OFloat lat) bd)))) \/
  (exists a d,
     root = ORef a /\ hget h a = Some (ODict d) /\ oget "birdnet" d = None /\ r = Ok true /\
     h' = hset (hset h a (ODict (oset "birdnet" (ORef (List.length h)) d)) ++ [ODict []])%list
            (List.length h)
            (ODict (oset "longitude" (OFloat lon) (oset "latitude" (OFloat lat) [])))).
Proof.
  unfold Objects.set_location. intros H.
  destruct root as [| | | | | a];
    try (left; inversion H; split; [discriminate | reflexivity]);
    try (destruct (negb _); left; inversion H; split; (discriminate || reflexivity)).
  destruct (negb _); [left; inversion H; split; [discriminate | reflexivity] |].
  destruct (hget h a) as [[d | l] |] eqn:Ha;
    try (left; inversion H; split; [discriminate | reflexivity]).
  destruct (oget "birdnet" d) as [v |] eqn:Hb.
  - destruct v as [| | | | | b];
      try (left; inversion H; split; [discriminate | reflexivity]).
    destruct (hget h b) as [[bd | l] |] eqn:Hbd;
      try (left; inversion H; split; [discriminate | reflexivity]).
    right; left. inversion H; subst. exists a, d, b, bd. auto 10.
  - rewrite hget_hset_alloc in H.
    right; right. inversion H; subst. exists a, d. repeat split; (assumption || reflexivity).
Qed.

(** The entries that [set_location] assigns. *)
Lemma set_location_entries (lat lon : R) (root : oval) (h h' : heap) (r : result bool) :
  Objects.set_location lat lon root h = (r, h') ->
  forall (a : addr) (k : string),
    entry h' a k = entry h a k \/
    (root = ORef a /\ k = "birdnet" /\ entry h a k = None) \/
    (get_setting h' root ["birdnet"] = ORef a /\ (k = "latitude" \/ k = "longitude")).
Proof.
  intros H a k.
  destruct (set_location_cases _ _ _ _ _ _ H)
    as [(_ & ->) | [(a0 & d & b & bd & -> & Ha & Hb & Hbd & -> & ->)
                   | (a0 & d & -> & Ha & Hb & -> & ->)]].
  - now left.
  - assert (Hlt : (b < List.length h)%nat) by (eapply hget_some_lt; eassumption).
    destruct (Nat.eq_dec a b) as [-> | Hab].
    + destruct (string_dec k "latitude") as [-> | Hk1];
        [| destruct (string_dec k "longitude") as [-> | Hk2]].
      * right; right. split; [| now left].
        simpl. unfold entry. 
        destruct (Nat.eq_dec a0 b) as [-> | Hne].
        -- rewrite hget_hset_same by assumption.
           rewrite Ha in Hbd. inversion Hbd; subst bd.
           rewrite !oget_oset_other by discriminate. now rewrite Hb.
        -- rewrite hget_hset_other by assumption. now rewrite Ha, Hb.
      * right; right. split; [| now right].
        simpl. unfold entry. 
        destruct (Nat.eq_dec a0 b) as [-> | Hne].
        -- rewrite hget_hset_same by assumption.
           rewrite Ha in Hbd. inversion Hbd; subst bd.
           rewrite !oget_oset_other by discriminate. now rewrite Hb.
        -- rewrite hget_hset_other by assumption. now rewrite Ha, Hb.
      * left. unfold entry. rewrite hget_hset_same by assumption. rewrite Hbd.
        now rewrite !oget_oset_other by assumption.
    + left. unfold entry. now rewrite hget_hset_other.
  - assert (Hlt : (a0 < List.length h)%nat) by (eapply hget_some_lt; eassumption).
    set (n := List.length h).
    set (h1 := (hset h a0 (ODict (oset "birdnet" (ORef n) d)) ++ [ODict []])%list).
    assert (Hn : (n < List.length h1)%nat)
      by (unfold h1; rewrite length_app, hset_length; simpl; lia).
    assert (Hroot : entry (hset h1 n (ODict (oset "longitude" (OFloat lon)
                                               (oset "latitude" (OFloat lat) []))))
                      a0 "birdnet" = Some (ORef n)).
    { unfold entry. rewrite hget_hset_other by (unfold n; lia).
      unfold h1. rewrite hget_app_old by (rewrite hset_length; assumption).
      rewrite hget_hset_same by assumption. apply oget_oset_same. }
    destruct (Nat.eq_dec a n) as [-> | Han].
    + destruct (string_dec k "latitude") as [-> | Hk1];
        [| destruct (string_dec k "longitude") as [-> | Hk2]].
      * right; right. split; [| now left].
        cbn [get_setting get_setting_from]. now rewrite Hroot.
      * right; right. split; [| now right].
        cbn [get_setting get_setting_from]. now rewrite Hroot.
      * left. unfold entry. rewrite hget_hset_same by assumption.
        unfold hget. rewrite (proj2 (nth_error_None h n)) by (unfold n; lia).
        now rewrite !oget_oset_other by assumption.
    + destruct (Nat.eq_dec a a0) as [-> | Haa].
      * destruct (string_dec k "birdnet") as [-> | Hk].
        -- right; left. repeat split. unfold entry. now rewrite Ha.
        -- left. unfold entry. rewrite hget_hset_other by assumption.
           unfold h1. rewrite hget_app_old by (rewrite hset_length; assumption).
           rewrite hget_hset_same by assumption. rewrite Ha.
           now apply oget_oset_other.
      * left. unfold entry. rewrite hget_hset_other by assumption.
        unfold h1.
        change (match hget (hset h a0 (ODict (oset "birdnet" (ORef n) d)) ++ [ODict []])%list a with
                | Some (ODict d0) => oget k d0
                | _ => None
                end) with (entry (hset h a0 (ODict (oset "birdnet" (ORef n) d)) ++ [ODict []])%list a k).
        rewrite entry_alloc_empty. unfold entry. now rewrite hget_hset_other.
Qed.

(** The section that [set_location] writes into is the one the document
    had, or a new object. *)
Lemma set_location_section (lat lon : R) (root : oval) (h h' : heap) (r : result bool)
    (a : addr) :
  Objects.set_location lat lon root h = (r, h') ->
  get_setting h' root ["birdnet"] = ORef a ->
  get_setting h root ["birdnet"] = ORef a \/ a = List.length h.
Proof.
  intros H Hs.
  destruct (set_location_cases _ _ _ _ _ _ H)
    as [(_ & ->) | [(a0 & d & b & bd & -> & Ha & Hb & Hbd & -> & ->)
                   | (a0 & d & -> & Ha & Hb & -> & ->)]].
  - now left.
  - left. cbn [get_setting get_setting_from] in *.
    destruct (set_location_entries _ _ _ _ _ _ H a0 "birdnet") as [E | [(_ & _ & E) | (_ & [E | E])]];
      try discriminate E.
    + now rewrite <- E.
    + unfold entry in E. rewrite Ha, Hb in E. discriminate E.
  - right. cbn [get_setting get_setting_from] in Hs.
    assert (Hlt : (a0 < List.length h)%nat) by (eapply hget_some_lt; eassumption).
    unfold entry in Hs. rewrite hget_hset_other in Hs by lia.
    rewrite hget_app_old in Hs by (rewrite hset_length; assumption).
    rewrite hget_hset_same, oget_oset_same in Hs by assumption.
    now inversion Hs.
Qed.

(** On a tree, everything off the two fields keeps its value. *)
Lemma set_location_paths (lat lon : R) (root : oval) (h h' : heap) (r : result bool) :
  heap_ok h = true -> valid h root = true -> unshared h root ->
  Objects.set_location lat lon root h = (r, h') ->
  (forall k rest, k <> "birdnet" ->
     get_setting h' root (k :: rest) = get_setting h root (k :: rest)) /\
  (forall k rest, k <> "latitude" -> k <> "longitude" ->
     get_setting h' root ("birdnet" :: k :: rest)
     = get_setting h root ("birdnet" :: k :: rest)).
Proof.
  intros Hok Hv Hu H.
  assert (Hframe : forall keys,
            (forall q, keys <> "birdnet" :: q) \/
            (exists k q, keys = "birdnet" :: k :: q /\ k <> "latitude" /\ k <> "longitude"
                         /\ get_setting h root ["birdnet"] <> ONone) ->
            get_setting_from h' root keys = get_setting_from h root keys).
  { intros keys Hkeys. apply get_setting_from_frame. intros a k Hin.
    destruct (reads_on_path h keys root a k Hin) as (p & q & -> & Hp).
    assert (Hlt : (a < List.length h)%nat).
    { pose proof (get_setting_from_valid h p Hok root Hv) as Hval. rewrite Hp in Hval.
      now apply Nat.ltb_lt in Hval. }
    destruct (set_location_entries _ _ _ _ _ _ H a k) as [E | [(Hr & -> & E) | (Hs & Hk)]].
    - exact E.
    - exfalso. assert (p = []) by (apply (Hu p [] a); [assumption | now rewrite Hr]). subst p.
      destruct Hkeys as [Hkeys | (k & q' & Heq & _ & _ & Hex)].
      + now apply (Hkeys q).
      + apply Hex. rewrite Hr. cbn [get_setting get_setting_from]. now rewrite E.
    - exfalso.
      destruct (set_location_section _ _ _ _ _ _ _ H Hs) as [Hold | ->]; [| lia].
      assert (Hroot : root <> ONone) by (intros ->; now destruct p).
      assert (Hold' : get_setting_from h root ["birdnet"] = ORef a)
        by (destruct root; (contradiction || exact Hold)).
      assert (p = ["birdnet"]) by (apply (Hu p ["birdnet"] a); assumption). subst p.
      destruct Hkeys as [Hkeys | (k' & q' & Heq & Hk1 & Hk2 & _)].
      + now apply (Hkeys (k :: q)).
      + inversion Heq; subst. destruct Hk; contradiction. }
  split.
  - intros k rest Hk. destruct root; try reflexivity;
      (apply Hframe; left; intros q E; inversion E; contradiction).
  - intros k rest Hk1 Hk2.
    destruct (set_location_cases _ _ _ _ _ _ H)
      as [(_ & ->) | [(a0 & d & b & bd & -> & Ha & Hb & Hbd & -> & ->)
                     | (a0 & d & -> & Ha & Hb & -> & ->)]].
    + reflexivity.
    + apply Hframe. right. exists k, rest. repeat split; try assumption.
      cbn [get_setting get_setting_from]. unfold entry. rewrite Ha, Hb. discriminate.
    + assert (Hlt : (a0 < List.length h)%nat) by (eapply hget_some_lt; eassumption).
      cbn [get_setting get_setting_from].
      assert (E0 : entry h a0 "birdnet" = None) by (unfold entry; now rewrite Ha).
      rewrite E0.
      destruct (set_location_entries _ _ _ _ _ _ H a0 "birdnet")
        as [E | [_ | (_ & [E | E])]]; try discriminate E.
      * exfalso. rewrite E0 in E. unfold entry in E.
        rewrite hget_hset_other in E by lia.
        rewrite hget_app_old in E by (rewrite hset_length; assumption).
        rewrite hget_hset_same, oget_oset_same in E by assumption. discriminate E.
      * unfold entry at 1. rewrite hget_hset_other by lia.
        rewrite hget_app_old by (rewrite hset_length; assumption).
        rewrite hget_hset_same, oget_oset_same by assumption.
        unfold entry. rewrite hget_hset_same
          by (rewrite length_app, hset_length; simpl; lia).
        now rewrite !oget_oset_other by assumption.
Qed.


Lemma set_location_lists (lat lon : R) (root : oval) (h h' : heap) (r : result bool)
    (a : addr) (l : list oval) :
  Objects.set_location lat lon root h = (r, h') ->
  hget h a = Some (OList l) -> hget h' a = Some (OList l).
Proof.
  intros H Hl.
  destruct (set_location_cases _ _ _ _ _ _ H)
    as [(_ & ->) | [(a0 & d & b & bd & -> & Ha & Hb & Hbd & -> & ->)
                   | (a0 & d & -> & Ha & Hb & -> & ->)]].
  - assumption.
  - rewrite hget_hset_other; [assumption | congruence].
  - assert (Hlt : (a < List.length h)%nat) by (eapply hget_some_lt; eassumption).
    rewrite hget_hset_other by lia. apply hget_alloc_old.
    rewrite hget_hset_other; [assumption | congruence].
Qed.

(** On a mapping without a [birdnet] entry the section is created. *)
Lemma set_location_creates (lat lon : R) (a : addr) (d : odict) (h : heap) :
  hget h a = Some (ODict d) -> oget "birdnet" d = None ->
  (-90 <= lat <= 90)%R -> (-180 <= lon <= 180)%R ->
  exists h', Objects.set_location lat lon (ORef a) h = (Ok true, h').
Proof.
  intros Ha Hb H1 H2. unfold Objects.set_location.
  rewrite range_check_passes by assumption. rewrite Ha, Hb, hget_hset_alloc.
  eexists. reflexivity.
Qed.

(** After a successful call the two fields hold the pair. *)
Lemma set_location_fields (lat lon : R) (root : oval) (h h' : heap) :
  Objects.set_location lat lon root h = (Ok true, h') ->
  Objects.get_setting h' root ["birdnet"; "latitude"] = OFloat lat /\
  Objects.get_setting h' root ["birdnet"; "longitude"] = OFloat lon.
Proof.
  intros H.
  destruct (set_location_cases _ _ _ _ _ _ H)
    as [(Hr & _) | [(a0 & d & b & bd & -> & Ha & Hb & Hbd & _ & ->)
                   | (a0 & d & -> & Ha & Hb & _ & ->)]].
  - congruence.
  - assert (Hlt : (b < List.length h)%nat) by (eapply hget_some_lt; eassumption).
    assert (Es : entry (hset h b (ODict (oset "longitude" (OFloat lon)
                                          (oset "latitude" (OFloat lat) bd)))) a0 "birdnet"
                 = Some (ORef b)).
    { unfold entry. destruct (Nat.eq_dec a0 b) as [-> | Hne].
      - rewrite hget_hset_same by assumption.
        rewrite Ha in Hbd. inversion Hbd; subst bd.
        now rewrite !oget_oset_other by discriminate.
      - rewrite hget_hset_other by assumption. now rewrite Ha. }
    cbn [Objects.get_setting get_setting_from]. rewrite Es.
    unfold entry. rewrite hget_hset_same by assumption.
    rewrite oget_oset_other by discriminate. rewrite !oget_oset_same. auto.
  - assert (Hlt : (a0 < List.length h)%nat) by (eapply hget_some_lt; eassumption).
    set (n := List.length h).
    set (h1 := (hset h a0 (ODict (oset "birdnet" (ORef n) d)) ++ [ODict []])%list).
    assert (Hn : (n < List.length h1)%nat)
      by (unfold h1; rewrite length_app, hset_length; simpl; lia).
    assert (Es : entry (hset h1 n (ODict (oset "longitude" (OFloat lon)
                                            (oset "latitude" (OFloat lat) [])))) a0 "birdnet"
                 = Some (ORef n)).
    { unfold entry. rewrite hget_hset_other by (unfold n; lia).
      unfold h1. rewrite hget_app_old by (rewrite hset_length; assumption).
      rewrite hget_hset_same by assumption. apply oget_oset_same. }
    cbn [Objects.get_setting get_setting_from]. rewrite Es.
    unfold entry. rewrite hget_hset_same by assumption.
    rewrite oget_oset_other by discriminate. rewrite !oget_oset_same. auto.
Qed.

Ltac heap_eval :=
  cbn [get_setting get_setting_from entry hget nth_error oget stored_config aliased_config
       reads writes fresh_writes].

Lemma stored_config_paths (lat lon : R) (p : list string) (a : addr) :
  get_setting_from (stored_config lat lon) (ORef 0) p = ORef a ->
  (p = [] /\ a = 0%nat) \/ (p = ["main"] /\ a = 1%nat) \/
  (p = ["birdnet"] /\ a = 2%nat) \/ (p = ["realtime"] /\ a = 3%nat).
Proof.
  destruct p as [| k1 p]; heap_eval.
  - intros H. inversion H. auto.
  - destruct (String.eqb_spec "main" k1) as [<- | _].
    { destruct p as [| k2 p]; heap_eval; [intros H; inversion H; auto |].
      destruct (String.eqb "name" k2); [| discriminate]. destruct p; discriminate. }
    destruct (String.eqb_spec "birdnet" k1) as [<- | _].
    { destruct p as [| k2 p]; heap_eval; [intros H; inversion H; auto 6 |].
      repeat (match goal with |- context [String.eqb ?x k2] => destruct (String.eqb x k2) end;
              [destruct p; discriminate |]).
      discriminate. }
    destruct (String.eqb_spec "realtime" k1) as [<- | _]; [| discriminate].
    destruct p as [| k2 p]; heap_eval; [intros H; inversion H; auto 6 |].
    destruct (String.eqb "interval" k2); [| discriminate]. destruct p; discriminate.
Qed.

Lemma stored_config_unshared (lat lon : R) : unshared (stored_config lat lon) (ORef 0).
Proof.
  intros p1 p2 a H1 H2.
  apply stored_config_paths in H1, H2.
  destruct H1 as [(-> & ->) | [(-> & ->) | [(-> & ->) | (-> & ->)]]];
    destruct H2 as [(-> & E) | [(-> & E) | [(-> & E) | (-> & E)]]];
    (reflexivity || discriminate E).
Qed.

Lemma stored_config_ok (lat lon : R) : heap_ok (stored_config lat lon) = true.
Proof. reflexivity. Qed.

Lemma fresh_writes_ge (b : addr) (keys : list string) (a : addr) (k : string) :
  In (a, k) (fresh_writes b keys) -> (b <= a)%nat.
Proof.
  revert b. induction keys as [| key rest IH]; intros b Hin; simpl in Hin; [contradiction |].
  destruct Hin as [E | Hin]; [inversion E; lia |]. apply IH in Hin. lia.
Qed.

(** An entry that [set_setting] assigns belongs to a new object or to an
    object on its path. *)
Lemma writes_on_path (h : heap) (keys : list string) :
  forall (current : oval) (a : addr) (k : string),
    In (a, k) (writes h current keys) ->
    (List.length h <= a)%nat \/
    exists p q, keys = (p ++ k :: q)%list /\ get_setting_from h current p = ORef a.
Proof.
  induction keys as [| key rest IH]; intros current a k Hin; simpl in Hin; [contradiction |].
  destruct current as [| | | | | a0]; try contradiction.
  destruct (hget h a0) as [[d | l] |] eqn:Ha; try contradiction.
  destruct rest as [| key2 rest].
  - destruct Hin as [E | []]. inversion E; subst. right. exists [], []. auto.
  - destruct (oget key d) as [child |] eqn:Hk.
    + destruct (IH child a k Hin) as [Hge | (p & q & Heq & Hp)]; [now left |].
      right. exists (key :: p), q. split; [simpl; now rewrite Heq |].
      simpl. unfold entry. now rewrite Ha, Hk.
    + destruct Hin as [E | Hin].
      * inversion E; subst. right. exists [], (key2 :: rest). auto.
      * left. eapply fresh_writes_ge; eassumption.
Qed.

(** Reading, off the written path, in sections that were just created. *)
Lemma get_setting_from_fresh (value : oval) (k k' : string) (rest rest' : list string) :
  k <> k' ->
  forall (prefix : list string) (h1 h' : heap) (b : addr),
    hget h1 b = Some (ODict []) -> S b = List.length h1 ->
    set_setting_in h1 (ORef b) (prefix ++ k :: rest) value = Ok h' ->
    get_setting_from h' (ORef b) (prefix ++ k' :: rest') = ONone.
Proof.
  intros Hk. induction prefix as [| key prefix IH]; intros h1 h' b Hb Hlen H.
  - destruct (set_setting_in_fresh value (k :: rest) ltac:(discriminate) h1 b Hb Hlen)
      as (h'' & Hset & Hfr & _).
    cbn [app] in *. rewrite Hset in H. inversion H; subst h''; clear H.
    cbn [get_setting_from]. rewrite Hfr.
    + unfold entry. now rewrite Hb.
    + cbn [fresh_writes]. intros [E | Hin]; [inversion E; congruence |].
      apply fresh_writes_ge in Hin. lia.
  - cbn [app set_setting_in] in H. rewrite Hb in H.
    destruct (prefix ++ k :: rest)%list as [| key2 tail] eqn:Etail;
      [destruct prefix; discriminate Etail |].
    cbn [oget] in H. cbv zeta in H.
    set (h2 := (hset h1 b (ODict (oset key (ORef (List.length h1)) [])) ++ [ODict []])%list) in *.
    assert (Hb2 : hget h2 (List.length h1) = Some (ODict [])) by apply hget_hset_alloc.
    assert (Hlen2 : S (List.length h1) = List.length h2)
      by (unfold h2; rewrite length_app, hset_length; simpl; lia).
    destruct (set_setting_in_fresh value (key2 :: tail) ltac:(discriminate) h2 _ Hb2 Hlen2)
      as (h'' & Hset & Hfr & _).
    rewrite Hset in H. inversion H; subst h''; clear H.
    cbn [app get_setting_from]. rewrite Hfr.
    + unfold h2 at 1. rewrite entry_alloc_empty, entry_hset_same by lia.
      apply (IH h2 h' (List.length h1) Hb2 Hlen2 Hset).
    + intros Hin. apply fresh_writes_ge in Hin. lia.
Qed.

Lemma set_setting_in_branch (h h' : heap) (value : oval) (k k' : string)
    (rest rest' : list string) :
  heap_ok h = true -> k <> k' ->
  forall (prefix : list string) (current : oval),
    valid h current = true -> unshared h current ->
    set_setting_in h current (prefix ++ k :: rest) value = Ok h' ->
    get_setting_from h' current (prefix ++ k' :: rest')
    = get_setting_from h current (prefix ++ k' :: rest').
Proof.
  intros Hok Hk. induction prefix as [| key prefix IH]; intros current Hv Hu H.
  - cbn [app] in *.
    destruct (set_setting_in_writes value (k :: rest) h h' current H) as (Hfr & _).
    apply get_setting_from_frame. intros a k0 Hin. apply Hfr. intros Hw.
    destruct (reads_on_path _ _ _ _ _ Hin) as (p & q & Hkeys & Hp).
    destruct (writes_on_path _ _ _ _ _ Hw) as [Hge | (p2 & q2 & Hkeys2 & Hp2)].
    + pose proof (get_setting_from_valid h p Hok current Hv) as Hval. rewrite Hp in Hval.
      apply Nat.ltb_lt in Hval. lia.
    + assert (p = p2) by (apply (Hu p p2 a); assumption). subst p2.
      destruct p as [| x p]; cbn [app] in Hkeys, Hkeys2;
        inversion Hkeys; inversion Hkeys2; congruence.
  - cbn [app] in *. cbn [set_setting_in] in H.
    destruct current as [| | | | | a]; try discriminate H.
    destruct (hget h a) as [[d | l] |] eqn:Ha; try discriminate H.
    assert (Hlt : (a < List.length h)%nat) by (eapply hget_some_lt; eassumption).
    destruct (prefix ++ k :: rest)%list as [| key2 tail] eqn:Etail;
      [destruct prefix; discriminate Etail |].
    destruct (oget key d) as [child |] eqn:Hkey.
    + assert (Echild : entry h a key = Some child) by (unfold entry; now rewrite Ha).
      destruct (set_setting_in_writes value (key2 :: tail) h h' child H) as (Hfr & _).
      cbn [get_setting_from]. rewrite Hfr, Echild.
      * apply IH.
        -- eapply entry_valid; eassumption.
        -- replace child with (get_setting_from h (ORef a) [key])
             by (cbn [get_setting_from]; now rewrite Echild).
           now apply unshared_child.
        -- exact H.
      * intros Hw.
        destruct (writes_on_path _ _ _ _ _ Hw) as [Hge | (p & q & _ & Hp)]; [lia |].
        assert (E : (key :: p)%list = []).
        { apply (Hu (key :: p)%list [] a); [| reflexivity].
          cbn [get_setting_from]. now rewrite Echild. }
        discriminate E.
    + cbv zeta in H.
      set (h1 := (hset h a (ODict (oset key (ORef (List.length h)) d)) ++ [ODict []])%list) in *.
      assert (Hb1 : hget h1 (List.length h) = Some (ODict [])) by apply hget_hset_alloc.
      assert (Hlen1 : S (List.length h) = List.length h1)
        by (unfold h1; rewrite length_app, hset_length; simpl; lia).
      destruct (set_setting_in_fresh value (key2 :: tail) ltac:(discriminate) h1 _ Hb1 Hlen1)
        as (h'' & Hset & Hfr & _).
      rewrite Hset in H. inversion H; subst h''; clear H.
      cbn [get_setting_from].
      replace (entry h a key) with (@None oval) by (unfold entry; now rewrite Ha, Hkey).
      rewrite Hfr.
      * unfold h1 at 1. rewrite entry_alloc_empty, entry_hset_same by assumption.
        rewrite <- Etail in Hset.
        apply (get_setting_from_fresh value k k' rest rest' Hk prefix h1 h' _ Hb1 Hlen1 Hset).
      * intros Hin. apply fresh_writes_ge in Hin. lia.
Qed.

End ObjectGraphs.

(** ** Frame of [set_location], and [save] *)

(** C9 (as amended): [set_location] assigns the latitude and longitude
    entries of the object that is the [birdnet] section, creating the
    section when the document has none, and no other entry of any object
    of the document; in a document without shared objects every other key
    and section therefore keeps its value.  [save] with [create_backup]
    true over an existing file writes the document only after copying
    that file to the timestamped backup, while [save] with
    [create_backup] false writes the document without a backup. *)
Theorem set_location_frame_and_save_backup :
  (forall (lat lon : R) (config_data : Objects.oval) (h h' : Objects.heap)
          (r : result bool),
     Objects.set_location lat lon config_data h = (r, h') ->
     (forall (a : Objects.addr) (k : string),
        Objects.entry h' a k = Objects.entry h a k \/
        (config_data = Objects.ORef a /\ k = "birdnet" /\ Objects.entry h a k = None) \/
        (Objects.get_setting h' config_data ["birdnet"] = Objects.ORef a /\
         (k = "latitude" \/ k = "longitude"))) /\
     (forall (a : Objects.addr) (l : list Objects.oval),
        Objects.hget h a = Some (Objects.OList l) ->
        Objects.hget h' a = Some (Objects.OList l)) /\
     (Objects.heap_ok h = true -> Objects.valid h config_data = true ->
      Objects.unshared h config_data ->
        (forall k rest, k <> "birdnet" ->
           Objects.get_setting h' config_data (k :: rest)
           = Objects.get_setting h config_data (k :: rest)) /\
        (forall k rest, k <> "latitude" -> k <> "longitude" ->
           Objects.get_setting h' config_data ("birdnet" :: k :: rest)
           = Objects.get_setting h config_data ("birdnet" :: k :: rest))) /\
     (r = Ok true ->
        Objects.get_setting h' config_data ["birdnet"; "latitude"] = Objects.OFloat lat /\
        Objects.get_setting h' config_data ["birdnet"; "longitude"] = Objects.OFloat lon) /\
     (r <> Ok true -> h' = h) /\
     (forall (a : Objects.addr) (d : Objects.odict),
        config_data = Objects.ORef a -> Objects.hget h a = Some (Objects.ODict d) ->
        Objects.oget "birdnet" d = None ->
        -90 <= lat <= 90 -> -180 <= lon <= 180 -> r = Ok true)) /\
  (forall (e : env) (config_path : string) (config_data : pyval) (s s' : state),
     path_exists (fs s) config_path = true ->
     save e config_path true config_data s = (true, s') ->
     let backup_path := (config_path ++ ".backup_" ++ timestamp e)%string in
     log s' = (log s ++ [Copied config_path backup_path;
                         Wrote config_path config_data])%list /\
     fs s' backup_path = fs s config_path /\
     fs s' config_path = Document config_data) /\
  (forall (e : env) (config_path : string) (config_data : pyval) (s : state),
     config_data <> PNone ->
     can_write e config_path = true ->
     save e config_path false config_data s
     = (true, {| fs := fs_put config_path (Document config_data) (fs s);
                 log := (log s ++ [Wrote config_path config_data])%list |})).
Proof.
  split; [| split].
  - intros lat lon config_data h h' r H.
    split; [exact (set_location_entries _ _ _ _ _ _ H) |].
    split; [intros a l; exact (set_location_lists _ _ _ _ _ _ a l H) |].
    split; [intros Hok Hv Hu; exact (set_location_paths _ _ _ _ _ _ Hok Hv Hu H) |].
    split; [intros ->; exact (set_location_fields _ _ _ _ _ H) |].
    split.
    + intros Hr.
      destruct (set_location_cases _ _ _ _ _ _ H)
        as [(_ & E) | [(a0 & d & b & bd & _ & _ & _ & _ & E & _)
                      | (a0 & d & _ & _ & _ & E & _)]];
        [exact E | contradiction | contradiction].
    + intros a d -> Ha Hb H1 H2.
      destruct (set_location_creates lat lon a d h Ha Hb H1 H2) as (h1 & E).
      rewrite E in H. now inversion H.
  - intros e config_path config_data s s' Hex H. cbv zeta.
    pose proof (backup_path_fresh e config_path) as Hfresh.
    pose proof (save_with_backup_cases _ _ _ _ _ _ Hex H) as Hcases. cbv zeta in Hcases.
    destruct Hcases as [(E & _) | [(r & E & _) | [(E & _) | [(r & E & _)
                       | (_ & _ & Hfs & Hlog)]]]];
      try discriminate E.
    rewrite Hfs. repeat split.
    + assumption.
    + rewrite fs_put_other by assumption. apply fs_put_same.
    + apply fs_put_same.
  - intros e config_path config_data s Hn Hw.
    now apply save_without_backup.
Qed.

Lemma set_location_frame_and_save_backup_witness :
  (forall h' r,
     Objects.set_location 33.7490 (-84.3880) (Objects.ORef 0)
       (stored_config 40.7128 (-74.0060)) = (r, h') ->
     Objects.get_setting h' (Objects.ORef 0) ["realtime"; "interval"] = Objects.OInt 15 /\
     Objects.get_setting h' (Objects.ORef 0) ["birdnet"; "locale"] = Objects.OStr "en") /\
  save (example_env http_down no_gps (always 0%Z)) BIRDNET_CONFIG_PATH false
    (config_at 33.7490 (-84.3880)) (state_with_config config_unset)
  = (true,
     {| fs := fs_put BIRDNET_CONFIG_PATH (Document (config_at 33.7490 (-84.3880)))
                (fs (state_with_config config_unset));
        log := [Wrote BIRDNET_CONFIG_PATH (config_at 33.7490 (-84.3880))] |}).
Proof.
  split.
  - intros h' r H.
    destruct (proj1 set_location_frame_and_save_backup _ _ _ _ _ _ H)
      as (_ & _ & Hpaths & _).
    destruct (Hpaths (stored_config_ok _ _) eq_refl (stored_config_unshared _ _))
      as (F1 & F2).
    split.
    + rewrite F1 by discriminate. reflexivity.
    + rewrite F2 by discriminate. reflexivity.
  - apply (proj2 (proj2 set_location_frame_and_save_backup)
             (example_env http_down no_gps (always 0%Z)) BIRDNET_CONFIG_PATH
             (config_at 33.7490 (-84.3880)) (state_with_config config_unset)).
    + discriminate.
    + reflexivity.
Defined.

(** C9, counterexample: in a document whose [station] section is an alias
    of the [birdnet] section, [set_location] changes [station.latitude]
    too; and with [create_backup] false, [save] overwrites an existing
    configuration file without copying it first. *)
Lemma set_location_and_save_claims_fail :
  ~ set_location_spares_other_sections /\ ~ save_always_backs_up.
Proof.
  split.
  - intros Hclaim.
    assert (Hset : exists h',
              Objects.set_location 33.7490 (-84.3880) (Objects.ORef 0) aliased_config
              = (Ok true, h') /\
              Objects.get_setting h' (Objects.ORef 0) ["station"; "latitude"]
              = Objects.OFloat 33.7490).
    { unfold Objects.set_location. rewrite range_check_passes by lra.
      eexists. split; reflexivity. }
    destruct Hset as (h' & Hs & Hg).
    assert (Hk : "station" <> "birdnet") by discriminate.
    pose proof (Hclaim _ _ _ _ _ _ "station" ["latitude"] Hk Hs) as E.
    rewrite Hg in E. cbn in E. inversion E. lra.
  - intros Hclaim.
    assert (Hsave := save_without_backup
              (example_env http_down no_gps (always 0%Z)) BIRDNET_CONFIG_PATH false
              (config_at 33.7490 (-84.3880)) (state_with_config config_unset)
              ltac:(discriminate) eq_refl eq_refl).
    apply Hclaim in Hsave; [| reflexivity].
    simpl in Hsave. destruct Hsave as [H | []]. discriminate H.
Qed.

(** ** The detection chain *)

Lemma try_ip_geolocation_ipapi (city : string) (lat lon : R)
    (g : result Z * result (list (result gps_report))) (b : list string -> result Z) :
  _validate_coordinates lat lon = true ->
  _try_ip_geolocation (example_env (http_ipapi (ipapi_body city lat lon)) g b)
  = Ok (Some {| latitude := lat; longitude := lon; method := Some ipapi_co |}).
Proof.
  intros V. unfold _try_ip_geolocation, apis, ip_loop, ip_attempt.
  cbn -[_validate_coordinates]. now rewrite V.
Qed.

Lemma try_gps_hardware_fix (http : string -> http_outcome) (lat lon : R)
    (b : list string -> result Z) :
  _validate_coordinates lat lon = true ->
  _try_gps_hardware (example_env http (gps_fix lat lon) b)
  = Ok (Some {| latitude := lat; longitude := lon; method := Some GPS_hardware |}).
Proof.
  intros V. unfold _try_gps_hardware.
  cbn -[_validate_coordinates]. now rewrite V.
Qed.

Lemma validate_coordinates_dyn_floats (lat lon : R) :
  _validate_coordinates_dyn (PFloat lat) (PFloat lon) = Ok (_validate_coordinates lat lon).
Proof.
  unfold _validate_coordinates_dyn, _validate_coordinates. simpl.
  destruct (Rleb (-90) lat && Rleb lat 90); reflexivity.
Qed.

Lemma try_manual_config_file (e : env) (lat lon : R) :
  _validate_coordinates lat lon = true ->
  _try_manual_config e (files_manual (PFloat lat) (PFloat lon))
  = Ok (Some {| latitude := lat; longitude := lon; method := Some manual_configuration |}).
Proof.
  intros V. unfold _try_manual_config, config_paths, manual_loop, manual_attempt.
  cbn -[_validate_coordinates_dyn].
  rewrite validate_coordinates_dyn_floats, V. reflexivity.
Qed.

(** C3: [detect_location] asks IP geolocation, then GPS hardware, then the
    manual configuration, and stops at the first answer: an IP answer is
    returned whatever the other two would give, a GPS answer is returned
    when IP geolocation gave none, the manual configuration decides when
    both gave none; the result is None exactly when all three return
    None. *)
Theorem detect_location_priority (e : env) (files : filesystem) :
  (forall l, _try_ip_geolocation e = Ok (Some l) ->
     detect_location e files = Ok (Some l)) /\
  (forall l, _try_ip_geolocation e = Ok None -> _try_gps_hardware e = Ok (Some l) ->
     detect_location e files = Ok (Some l)) /\
  (_try_ip_geolocation e = Ok None -> _try_gps_hardware e = Ok None ->
     detect_location e files = _try_manual_config e files) /\
  (detect_location e files = Ok None <->
     (_try_ip_geolocation e = Ok None /\ _try_gps_hardware e = Ok None /\
      _try_manual_config e files = Ok None)).
Proof.
  unfold detect_location.
  destruct (_try_ip_geolocation e) as [[l1 |] | x1]; simpl.
  - repeat split; try discriminate.
    + intros l H. inversion H. reflexivity.
    + intros (H & _). discriminate.
  - destruct (_try_gps_hardware e) as [[l2 |] | x2]; simpl.
    + repeat split; try discriminate.
      * intros l _ H. inversion H. reflexivity.
      * intros (_ & H & _). discriminate.
    + destruct (_try_manual_config e files) as [[l3 |] | x3]; simpl;
        repeat split; try discriminate; try reflexivity.
      * intros (_ & _ & H). discriminate.
      * intros (_ & _ & H). discriminate.
    + repeat split; try discriminate.
      intros (_ & H & _). discriminate.
  - repeat split; try discriminate.
    intros (H & _). discriminate.
Qed.

Lemma detect_location_priority_witness :
  _try_gps_hardware env_all_sources
  = Ok (Some {| latitude := 33.7756; longitude := -84.3963; method := Some GPS_hardware |}) /\
  _try_manual_config env_all_sources (files_manual (PFloat 40.7128) (PFloat (-74.0060)))
  = Ok (Some {| latitude := 40.7128; longitude := -74.0060;
                method := Some manual_configuration |}) /\
  detect_location env_all_sources (files_manual (PFloat 40.7128) (PFloat (-74.0060)))
  = Ok (Some {| latitude := 33.7490; longitude := -84.3880; method := Some ipapi_co |}).
Proof.
  split; [| split].
  - apply try_gps_hardware_fix. valid_coords.
  - apply try_manual_config_file. valid_coords.
  - apply (proj1 (detect_location_priority env_all_sources
                    (files_manual (PFloat 40.7128) (PFloat (-74.0060))))).
    apply try_ip_geolocation_ipapi. valid_coords.
Defined.

(** C4, the code at failing inputs: a provider answer without usable
    coordinates, and a manual file with quoted numbers, make the source
    raise instead of returning None, and [detect_location] with it. *)
Theorem location_sources_raise :
  (let e := example_env (http_ipapi ipapi_null_body) no_gps (always 0%Z) in
   _try_ip_geolocation e = Raise TypeError /\
   forall files, detect_location e files = Raise TypeError) /\
  (let e := example_env (http_ipinfo ipinfo_bad_loc_body) no_gps (always 0%Z) in
   _parse_ipinfo_io e ipinfo_bad_loc_body = Raise ValueError /\
   _try_ip_geolocation e = Raise ValueError /\
   forall files, detect_location e files = Raise ValueError) /\
  (let e := example_env http_down no_gps (always 0%Z) in
   let files := files_manual (PStr "33.7490") (PStr "-84.3880") in
   _try_ip_geolocation e = Ok None /\
   _try_gps_hardware e = Ok None /\
   _try_manual_config e files = Raise TypeError /\
   detect_location e files = Raise TypeError).
Proof.
  repeat split.
Qed.

(** ** The run *)

(** A stored coordinate is at distance 0 from itself: no change. *)
Lemma location_changed_same (e : env) (config_data : pyval) (cur : location) :
  get_location config_data = Ok (Some cur) ->
  location_changed e config_data (latitude cur) (longitude cur)
    LOCATION_CHANGE_THRESHOLD_KM = Ok false.
Proof.
  intros Hg. unfold location_changed. rewrite Hg. cbn [bind].
  rewrite haversine_km_same. cbn [bind]. unfold LOCATION_CHANGE_THRESHOLD_KM.
  rewrite (proj2 (Rltb_false_iff 100 0)); [reflexivity | lra].
Qed.

Lemma run_cache_builder_eq (e : env) (flags : list string) (s : state) :
  run_cache_builder e flags s
  = (builder_exit e flags,
     {| fs := fs s; log := (log s ++ [RanCacheBuilder flags])%list |}).
Proof.
  unfold builder_exit, run_cache_builder. now destruct (cache_builder e flags).
Qed.

(** The unchanged branch, for every exit code of the cache builder. *)
Lemma step_unchanged_total (e : env) (s : state) :
  let c1 := builder_exit e ["--check-only"] in
  let c2 := builder_exit e ["--incremental"] in
  exists (code : Z) (s' : state),
    step_unchanged e s = (code, s') /\
    fs s' = fs s /\
    (c1 <> 1%Z -> log s' = (log s ++ [RanCacheBuilder ["--check-only"]])%list) /\
    (c1 = 1%Z ->
       log s' = (log s ++ [RanCacheBuilder ["--check-only"];
                           RanCacheBuilder ["--incremental"]])%list) /\
    (c1 = 1%Z -> c2 = 0%Z -> code = 0%Z) /\
    (c1 = 1%Z -> c2 = 2%Z -> code = 2%Z) /\
    (c1 = 1%Z -> c2 <> 0%Z -> c2 <> 2%Z -> code = 1%Z) /\
    (c1 = 2%Z -> code = 2%Z) /\
    (c1 <> 1%Z -> c1 <> 2%Z -> code = 0%Z).
Proof.
  cbv zeta. unfold step_unchanged.
  rewrite run_cache_builder_eq. cbv beta iota.
  rewrite run_cache_builder_eq. cbv beta iota.
  set (c1 := builder_exit e ["--check-only"]).
  set (c2 := builder_exit e ["--incremental"]).
  destruct (Z.eqb_spec c1 1) as [E1 | E1].
  - destruct (Z.eqb_spec c2 0) as [E2 | E2];
      [| destruct (Z.eqb_spec c2 2) as [E3 | E3]];
      do 2 eexists; (split; [reflexivity |]); simpl;
      repeat split; intros; try reflexivity; try lia;
      now rewrite <- app_assoc.
  - destruct (Z.eqb_spec c1 2) as [E2 | E2];
      do 2 eexists; (split; [reflexivity |]); simpl;
      repeat split; intros; try reflexivity; try lia.
Qed.

(** The unchanged branch, outcome by outcome. *)
Lemma step_unchanged_cases (e : env) (s : state) :
  let c1 := builder_exit e ["--check-only"] in
  let c2 := builder_exit e ["--incremental"] in
  exists (code : Z) (s' : state),
    step_unchanged e s = (code, s') /\
    fs s' = fs s /\
    (c1 <> 1%Z -> log s' = (log s ++ [RanCacheBuilder ["--check-only"]])%list) /\
    (c1 = 1%Z ->
       log s' = (log s ++ [RanCacheBuilder ["--check-only"];
                           RanCacheBuilder ["--incremental"]])%list) /\
    (c1 = 1%Z -> c2 = 1%Z -> code = 1%Z) /\
    (c1 = 1%Z -> c2 = 2%Z -> code = 2%Z) /\
    (c1 = 1%Z -> c2 = 0%Z -> code = 0%Z) /\
    (c1 = 2%Z -> code = 2%Z) /\
    (c1 = 0%Z -> code = 0%Z).
Proof.
  cbv zeta. unfold step_unchanged.
  rewrite run_cache_builder_eq. cbv beta iota.
  rewrite run_cache_builder_eq. cbv beta iota.
  set (c1 := builder_exit e ["--check-only"]).
  set (c2 := builder_exit e ["--incremental"]).
  destruct (Z.eqb_spec c1 1) as [E1 | E1].
  - destruct (Z.eqb_spec c2 0) as [E2 | E2];
      [| destruct (Z.eqb_spec c2 2) as [E3 | E3]];
      do 2 eexists; (split; [reflexivity |]); simpl;
      repeat split; intros; try reflexivity; try lia;
      now rewrite <- app_assoc.
  - destruct (Z.eqb_spec c1 2) as [E2 | E2];
      do 2 eexists; (split; [reflexivity |]); simpl;
      repeat split; intros; try reflexivity; try lia.
Qed.

Lemma detect_location_ip_first (e : env) (files : filesystem) (l : location) :
  _try_ip_geolocation e = Ok (Some l) -> detect_location e files = Ok (Some l).
Proof. intros H. unfold detect_location. now rewrite H. Qed.

Lemma detect_location_nothing (b : list string -> result Z) (doc : pyval) :
  detect_location (example_env http_down no_gps b) (fs (state_with_config doc)) = Ok None.
Proof. reflexivity. Qed.

(** 33.8 N is a few kilometres north of 33.7490 N. *)
Lemma short_hop_unchanged (e : env) :
  fpu e = cpython_linux ->
  location_changed e (config_at 33.7490 (-84.3880)) 33.8 (-84.3880)
    LOCATION_CHANGE_THRESHOLD_KM = Ok false.
Proof.
  intros He. unfold location_changed.
  rewrite get_location_config_at by valid_coords.
  cbn [bind latitude longitude]. rewrite (haversine_atlanta_hop e He). cbn [bind].
  unfold LOCATION_CHANGE_THRESHOLD_KM.
  rewrite (proj2 (Rltb_false_iff _ _)); [reflexivity | lra].
Qed.

Lemma new_york_to_atlanta_changed (e : env) :
  fpu e = cpython_linux ->
  location_changed e (config_at 40.7128 (-74.0060)) 33.7490 (-84.3880)
    LOCATION_CHANGE_THRESHOLD_KM = Ok true.
Proof.
  intros He. unfold location_changed.
  rewrite get_location_config_at by valid_coords.
  cbn [bind latitude longitude]. rewrite (haversine_new_york_atlanta e He). cbn [bind].
  unfold LOCATION_CHANGE_THRESHOLD_KM.
  rewrite (proj2 (Rltb_true_iff _ _)); [reflexivity | lra].
Qed.

(** Runs in which BirdNET-Go answers within the 30 polls and the
    configuration file loads. *)
Section Run.

Variable e : env.
Variable s : state.
Variable config_data : pyval.

Hypothesis service_up : wait_for_birdnet_go e 30 = true.
Hypothesis config_loaded : fs s BIRDNET_CONFIG_PATH = Document config_data.

(** [main] once a location is resolved. *)
Lemma main_resolved (current detected : option location) (l : location) :
  get_location config_data = Ok current ->
  detect_location e (fs s) = Ok detected ->
  match detected with Some d => Some d | None => current end = Some l ->
  main e s =
    match step_check_changed e config_data current l with
    | Raise _ => (1%Z, s)
    | Ok true =>
        match step_update e config_data l s with
        | (Ok code, s') => (code, s')
        | (Raise _, s') => (1%Z, s')
        end
    | Ok false => step_unchanged e s
    end.
Proof.
  intros Hg Hd Hr. unfold main, main_try, load.
  rewrite service_up, config_loaded. cbn [negb]. rewrite Hg, Hd, Hr.
  destruct (step_check_changed e config_data current l) as [[|] | x]; try reflexivity.
  now destruct (step_unchanged e s).
Qed.

Lemma main_no_location :
  get_location config_data = Ok None ->
  detect_location e (fs s) = Ok None ->
  main e s = (1%Z, s).
Proof.
  intros Hg Hd. unfold main, main_try, load.
  rewrite service_up, config_loaded. cbn [negb]. now rewrite Hg, Hd.
Qed.

(** C7: on the unchanged branch [main] runs the cache builder with
    [--check-only]; it runs it once more, with [--incremental], exactly
    when the check exits with 1; the exit code of the run is 1 for a
    failed retry, 2 for "up to date" and 0 for work performed, and nothing
    is written to the configuration. *)
Theorem unchanged_branch_exit_codes (cur : location) (detected : option location) :
  get_location config_data = Ok (Some cur) ->
  detect_location e (fs s) = Ok detected ->
  (let l := match detected with Some d => d | None => cur end in
   location_changed e config_data (latitude l) (longitude l)
     LOCATION_CHANGE_THRESHOLD_KM = Ok false) ->
  let c1 := builder_exit e ["--check-only"] in
  let c2 := builder_exit e ["--incremental"] in
  exists (code : Z) (s' : state),
    main e s = (code, s') /\
    fs s' = fs s /\
    (c1 <> 1%Z -> log s' = (log s ++ [RanCacheBuilder ["--check-only"]])%list) /\
    (c1 = 1%Z ->
       log s' = (log s ++ [RanCacheBuilder ["--check-only"];
                           RanCacheBuilder ["--incremental"]])%list) /\
    (c1 = 1%Z -> c2 = 1%Z -> code = 1%Z) /\
    (c1 = 1%Z -> c2 = 2%Z -> code = 2%Z) /\
    (c1 = 1%Z -> c2 = 0%Z -> code = 0%Z) /\
    (c1 = 2%Z -> code = 2%Z) /\
    (c1 = 0%Z -> code = 0%Z).
Proof.
  intros Hg Hd Hc. cbv zeta in Hc.
  set (l := match detected with Some d => d | None => cur end) in *.
  assert (Hr : match detected with Some d => Some d | None => Some cur end = Some l)
    by (unfold l; now destruct detected).
  rewrite (main_resolved (Some cur) detected l Hg Hd Hr).
  unfold step_check_changed. rewrite Hc. simpl.
  apply step_unchanged_cases.
Qed.

(** C6: when detection returns None, a run without a valid stored
    coordinate exits with 1 and does nothing else; a run with one takes
    the stored coordinate as the resolved location, finds no change and
    goes on to the cache check: no file is written, the cache builder is
    run with [--check-only], and once more with [--incremental] exactly
    when the check exits with 1, and the exit code is the one of the
    unchanged branch, which is 1 only when that second run does not exit
    with 0 or 2. *)
Theorem detection_failure_fallback :
  detect_location e (fs s) = Ok None ->
  (get_location config_data = Ok None -> main e s = (1%Z, s)) /\
  (forall cur : location,
     get_location config_data = Ok (Some cur) ->
     location_changed e config_data (latitude cur) (longitude cur)
       LOCATION_CHANGE_THRESHOLD_KM = Ok false /\
     step_check_changed e config_data (Some cur) cur = Ok false /\
     let c1 := builder_exit e ["--check-only"] in
     let c2 := builder_exit e ["--incremental"] in
     exists (code : Z) (s' : state),
       main e s = (code, s') /\
       fs s' = fs s /\
       (c1 <> 1%Z -> log s' = (log s ++ [RanCacheBuilder ["--check-only"]])%list) /\
       (c1 = 1%Z ->
          log s' = (log s ++ [RanCacheBuilder ["--check-only"];
                              RanCacheBuilder ["--incremental"]])%list) /\
       (c1 = 1%Z -> c2 = 0%Z -> code = 0%Z) /\
       (c1 = 1%Z -> c2 = 2%Z -> code = 2%Z) /\
       (c1 = 1%Z -> c2 <> 0%Z -> c2 <> 2%Z -> code = 1%Z) /\
       (c1 = 2%Z -> code = 2%Z) /\
       (c1 <> 1%Z -> c1 <> 2%Z -> code = 0%Z)).
Proof.
  intros Hd. split.
  - intros Hg. now apply main_no_location.
  - intros cur Hg.
    assert (Hl : location_changed e config_data (latitude cur) (longitude cur)
                   LOCATION_CHANGE_THRESHOLD_KM = Ok false)
      by exact (location_changed_same e _ _ Hg).
    assert (Hc : step_check_changed e config_data (Some cur) cur = Ok false).
    { unfold step_check_changed. now rewrite Hl. }
    split; [exact Hl |]. split; [exact Hc |].
    rewrite (main_resolved (Some cur) None cur Hg Hd eq_refl), Hc.
    apply step_unchanged_total.
Qed.

(** C1, the code on the changed-location branch: with a valid stored
    coordinate and a resolved location farther away than the threshold,
    [main] evaluates [config_manager.get_location_distance], which does not
    exist; the run ends with exit code 1, nothing is written and the cache
    builder is not run. *)
Theorem changed_location_run_exits_1 (cur new : location) :
  get_location config_data = Ok (Some cur) ->
  detect_location e (fs s) = Ok (Some new) ->
  location_changed e config_data (latitude new) (longitude new)
    LOCATION_CHANGE_THRESHOLD_KM = Ok true ->
  main e s = (1%Z, s).
Proof.
  intros Hg Hd Hc.
  rewrite (main_resolved (Some cur) (Some new) new Hg Hd eq_refl).
  unfold step_check_changed. now rewrite Hc.
Qed.

(** The first-time branch, for comparison: without a stored coordinate
    the same resolved location is written, with a backup, and the run
    exits with 0 unless the cache builder fails. *)
Lemma first_time_setup_run (new : location) :
  get_location config_data = Ok None ->
  detect_location e (fs s) = Ok (Some new) ->
  is_config_mapping config_data = true ->
  _validate_coordinates (latitude new) (longitude new) = true ->
  can_write e BIRDNET_CONFIG_PATH = true ->
  can_write e (BIRDNET_CONFIG_PATH ++ ".backup_" ++ timestamp e)%string = true ->
  builder_exit e ["--update-species"; "--incremental"; "--yes"] <> 1%Z ->
  exists config_data' : pyval,
    set_location (latitude new) (longitude new) config_data = (Ok true, config_data') /\
    main e s =
      (0%Z,
       {| fs := fs_put BIRDNET_CONFIG_PATH (Document config_data')
                  (fs_put (BIRDNET_CONFIG_PATH ++ ".backup_" ++ timestamp e)%string
                     (Document config_data) (fs s));
          log := (log s ++
                  [ Copied BIRDNET_CONFIG_PATH
                      (BIRDNET_CONFIG_PATH ++ ".backup_" ++ timestamp e)%string;
                    Wrote BIRDNET_CONFIG_PATH config_data';
                    RanCacheBuilder ["--update-species"; "--incremental"; "--yes"] ])%list |}).
Proof.
  intros Hg Hd Hm V Wc Wb Hb.
  apply validate_coordinates_true_iff in V. destruct V as (L1 & L2 & _).
  rewrite (main_resolved None (Some new) new Hg Hd eq_refl).
  clear Hg. revert config_loaded Hm.
  destruct config_data as [| | | | | | d]; try discriminate.
  intros Hf Hm.
  destruct (set_location_mapping d _ _ Hm L1 L2) as (d1 & Hset & _).
  eexists. split; [exact Hset |].
  unfold step_check_changed, step_update. rewrite Hset.
  apply can_write_written in Wc. apply can_write_written in Wb.
  unfold save, path_exists, copy2, write_yaml. rewrite Hf. cbn [andb].
  rewrite Wb. cbv beta iota. rewrite Wc. cbv beta iota.
  rewrite run_cache_builder_eq. cbn [fs log].
  destruct (Z.eqb_spec (builder_exit e ["--update-species"; "--incremental"; "--yes"]) 1)
    as [E | E]; [contradiction |].
  now rewrite <- !app_assoc.
Qed.

End Run.

Lemma unchanged_branch_exit_codes_witness :
  exists (s' : state),
    main (example_env (http_ipapi (ipapi_body "Atlanta" 33.8 (-84.3880))) no_gps
            (check_fails_then 2%Z))
         (state_with_config (config_at 33.7490 (-84.3880)))
    = (2%Z, s') /\
    fs s' = fs (state_with_config (config_at 33.7490 (-84.3880))) /\
    log s' = [RanCacheBuilder ["--check-only"]; RanCacheBuilder ["--incremental"]].
Proof.
  destruct (unchanged_branch_exit_codes
              (example_env (http_ipapi (ipapi_body "Atlanta" 33.8 (-84.3880))) no_gps
                 (check_fails_then 2%Z))
              (state_with_config (config_at 33.7490 (-84.3880)))
              (config_at 33.7490 (-84.3880))
              eq_refl eq_refl
              {| latitude := 33.7490; longitude := -84.3880; method := None |}
              (Some {| latitude := 33.8; longitude := -84.3880; method := Some ipapi_co |})
              (get_location_config_at _ _
                 (proj2 (validate_coordinates_true_iff 33.7490 (-84.3880)) ltac:(lra)))
              (detect_location_ip_first _ _ _
                 (try_ip_geolocation_ipapi "Atlanta" 33.8 (-84.3880) no_gps
                    (check_fails_then 2%Z)
                    (proj2 (validate_coordinates_true_iff 33.8 (-84.3880)) ltac:(lra))))
              (short_hop_unchanged
                 (example_env (http_ipapi (ipapi_body "Atlanta" 33.8 (-84.3880))) no_gps
                    (check_fails_then 2%Z))
                 eq_refl))
    as (code & s' & Hm & Hfs & _ & Hlog & _ & Hcode & _).
  exists s'. rewrite Hm, (Hcode eq_refl eq_refl). repeat split.
  - exact Hfs.
  - exact (Hlog eq_refl).
Defined.

Lemma detection_failure_fallback_witness :
  main (example_env http_down no_gps (always 2%Z)) (state_with_config config_unset)
  = (1%Z, state_with_config config_unset) /\
  (exists s' : state,
     main (example_env http_down no_gps (always 2%Z))
          (state_with_config (config_at 40.7128 (-74.0060)))
     = (2%Z, s') /\
     fs s' = fs (state_with_config (config_at 40.7128 (-74.0060))) /\
     log s' = [RanCacheBuilder ["--check-only"]]) /\
  (exists s' : state,
     main (example_env http_down no_gps (check_fails_then 3%Z))
          (state_with_config (config_at 40.7128 (-74.0060)))
     = (1%Z, s') /\
     fs s' = fs (state_with_config (config_at 40.7128 (-74.0060))) /\
     log s' = [RanCacheBuilder ["--check-only"]; RanCacheBuilder ["--incremental"]]).
Proof.
  split; [| split].
  - apply (proj1 (detection_failure_fallback
                    (example_env http_down no_gps (always 2%Z))
                    (state_with_config config_unset) config_unset
                    eq_refl eq_refl (detect_location_nothing _ _))).
    apply get_location_config_unset.
  - destruct (proj2 (detection_failure_fallback
                       (example_env http_down no_gps (always 2%Z))
                       (state_with_config (config_at 40.7128 (-74.0060)))
                       (config_at 40.7128 (-74.0060))
                       eq_refl eq_refl (detect_location_nothing _ _))
                {| latitude := 40.7128; longitude := -74.0060; method := None |}
                (get_location_config_at _ _
                   (proj2 (validate_coordinates_true_iff 40.7128 (-74.0060)) ltac:(lra))))
      as (_ & _ & code & s' & Hm & Hfs & Hlog & _ & _ & _ & _ & Hcode & _).
    exists s'. rewrite Hm, (Hcode eq_refl). repeat split.
    + exact Hfs.
    + apply Hlog. discriminate.
  - destruct (proj2 (detection_failure_fallback
                       (example_env http_down no_gps (check_fails_then 3%Z))
                       (state_with_config (config_at 40.7128 (-74.0060)))
                       (config_at 40.7128 (-74.0060))
                       eq_refl eq_refl (detect_location_nothing _ _))
                {| latitude := 40.7128; longitude := -74.0060; method := None |}
                (get_location_config_at _ _
                   (proj2 (validate_coordinates_true_iff 40.7128 (-74.0060)) ltac:(lra))))
      as (_ & _ & code & s' & Hm & Hfs & _ & Hlog & _ & _ & Hcode & _).
    exists s'. rewrite Hm, Hcode; [| reflexivity | discriminate | discriminate].
    repeat split.
    + exact Hfs.
    + exact (Hlog eq_refl).
Defined.

Lemma changed_location_run_exits_1_witness :
  main (example_env (http_ipapi (ipapi_body "Atlanta" 33.7490 (-84.3880))) no_gps
          (always 0%Z))
       (state_with_config (config_at 40.7128 (-74.0060)))
  = (1%Z, state_with_config (config_at 40.7128 (-74.0060))).
Proof.
  apply (changed_location_run_exits_1
           (example_env (http_ipapi (ipapi_body "Atlanta" 33.7490 (-84.3880))) no_gps
              (always 0%Z))
           (state_with_config (config_at 40.7128 (-74.0060)))
           (config_at 40.7128 (-74.0060))
           eq_refl eq_refl
           {| latitude := 40.7128; longitude := -74.0060; method := None |}
           {| latitude := 33.7490; longitude := -84.3880; method := Some ipapi_co |}).
  - apply get_location_config_at. valid_coords.
  - apply detect_location_ip_first. apply try_ip_geolocation_ipapi. valid_coords.
  - now apply new_york_to_atlanta_changed.
Defined.

(** Scenario A of the design: no stored coordinate, ipapi.co resolves
    Atlanta; the coordinate is written with a backup and the run exits
    with 0. *)
Lemma first_time_setup_atlanta :
  exists s' : state,
    main (example_env (http_ipapi (ipapi_body "Atlanta" 33.7490 (-84.3880))) no_gps
            (always 0%Z))
         (state_with_config config_unset)
    = (0%Z, s') /\
    (exists doc, fs s' BIRDNET_CONFIG_PATH = Document doc /\
       get_location doc
       = Ok (Some {| latitude := 33.7490; longitude := -84.3880; method := None |})) /\
    fs s' (BIRDNET_CONFIG_PATH ++ ".backup_20250301_060000")%string = Document config_unset.
Proof.
  destruct (first_time_setup_run
              (example_env (http_ipapi (ipapi_body "Atlanta" 33.7490 (-84.3880))) no_gps
                 (always 0%Z))
              (state_with_config config_unset) config_unset eq_refl eq_refl
              {| latitude := 33.7490; longitude := -84.3880; method := Some ipapi_co |})
    as (doc & Hset & Hmain).
  - apply get_location_config_unset.
  - apply detect_location_ip_first. apply try_ip_geolocation_ipapi. valid_coords.
  - reflexivity.
  - valid_coords.
  - reflexivity.
  - reflexivity.
  - discriminate.
  - eexists. split; [exact Hmain |]. split; [| reflexivity].
    exists doc. split; [reflexivity |].
    cbn [latitude longitude] in Hset.
    unfold config_unset, config_at, set_location in Hset.
    rewrite range_check_passes in Hset by lra.
    cbn in Hset. inversion Hset; subst doc.
    erewrite get_location_section; try reflexivity.
    rewrite (proj2 (validate_coordinates_true_iff 33.7490 (-84.3880))); [reflexivity | lra].
Qed.

(** * Further properties of the configuration manager *)

Lemma dict_set_set_same (k : string) (v1 v2 : pyval) (d : pydict) :
  dict_set k v2 (dict_set k v1 d) = dict_set k v2 d.
Proof.
  induction d as [| [k' v'] d IH]; simpl.
  - now rewrite String.eqb_refl.
  - destruct (String.eqb k' k) eqn:E; simpl; rewrite E; [reflexivity | now rewrite IH].
Qed.

(** Assignments to two keys commute when the first key is already there
    (a new key is appended, so two new keys would end up in the order of
    the assignments). *)
Lemma dict_set_comm_present (k1 k2 : string) (v w : pyval) (d : pydict) :
  k1 <> k2 -> dict_get k1 d <> None ->
  dict_set k1 v (dict_set k2 w d) = dict_set k2 w (dict_set k1 v d).
Proof.
  intros Hne. induction d as [| [k0 v0] d IH]; simpl; intros Hin.
  - congruence.
  - destruct (String.eqb k0 k1) eqn:E1, (String.eqb k0 k2) eqn:E2; simpl;
      rewrite ?E1, ?E2; try reflexivity.
    + apply String.eqb_eq in E1, E2. congruence.
    + now rewrite IH.
Qed.

Lemma dict_get_set_present (k k' : string) (v : pyval) (d : pydict) :
  dict_get k' d <> None -> dict_get k' (dict_set k v d) <> None.
Proof.
  intros H. destruct (String.eqb_spec k' k) as [-> | Hne].
  - rewrite dict_get_set_same. discriminate.
  - now rewrite dict_get_set_other.
Qed.

(** [set_location] on a configuration mapping, in closed form. *)
Lemma set_location_closed_form (d : pydict) (lat lon : R) :
  is_config_mapping (PDict d) = true ->
  -90 <= lat <= 90 -> -180 <= lon <= 180 ->
  set_location lat lon (PDict d) =
    (Ok true,
     PDict (dict_set "birdnet"
              (PDict (dict_set "longitude" (PFloat lon)
                        (dict_set "latitude" (PFloat lat) (birdnet_section_of d)))) d)).
Proof.
  intros Hm H1 H2. unfold set_location, birdnet_section_of.
  rewrite range_check_passes by assumption.
  unfold is_config_mapping in Hm. unfold dict_mem.
  destruct (dict_get "birdnet" d) as [sec |] eqn:E; cbn [negb].
  - destruct sec; try discriminate Hm. now rewrite E.
  - now rewrite dict_get_set_same, dict_set_set_same.
Qed.

Lemma written_section (d : pydict) (b : pydict) :
  birdnet_section_of (dict_set "birdnet" (PDict b) d) = b.
Proof. unfold birdnet_section_of. now rewrite dict_get_set_same. Qed.

Lemma written_is_mapping (d : pydict) (b : pydict) :
  is_config_mapping (PDict (dict_set "birdnet" (PDict b) d)) = true.
Proof. unfold is_config_mapping. now rewrite dict_get_set_same. Qed.

(** X1: on a configuration mapping, a second [set_location] overrides
    the first: the document is the one a single call with the second
    pair produces. *)
Theorem set_location_last_wins (config_data : pyval) (lat1 lon1 lat2 lon2 : R) :
  is_config_mapping config_data = true ->
  -90 <= lat1 <= 90 -> -180 <= lon1 <= 180 ->
  -90 <= lat2 <= 90 -> -180 <= lon2 <= 180 ->
  exists config_data1 : pyval,
    set_location lat1 lon1 config_data = (Ok true, config_data1) /\
    set_location lat2 lon2 config_data1 = set_location lat2 lon2 config_data.
Proof.
  intros Hm A1 B1 A2 B2.
  destruct config_data as [| | | | | | d]; try discriminate Hm.
  eexists. split; [now apply set_location_closed_form |].
  rewrite set_location_closed_form by (try apply written_is_mapping; assumption).
  rewrite set_location_closed_form by assumption.
  rewrite written_section, dict_set_set_same.
  set (b := birdnet_section_of d).
  rewrite (dict_set_comm_present "latitude" "longitude") by
    (try discriminate; rewrite dict_get_set_same; discriminate).
  now rewrite !dict_set_set_same.
Qed.

Lemma set_location_last_wins_witness :
  exists config_data1 : pyval,
    set_location 40.7128 (-74.0060) config_unset = (Ok true, config_data1) /\
    set_location 33.7490 (-84.3880) config_data1
    = set_location 33.7490 (-84.3880) config_unset.
Proof.
  apply (set_location_last_wins config_unset 40.7128 (-74.0060) 33.7490 (-84.3880) eq_refl);
    lra.
Defined.

(** ** [get_setting] and [set_setting] *)

Lemma set_setting_in_dict (current : pyval) (keys : list string) (value current' : pyval) :
  keys <> [] ->
  set_setting_in current keys value = Ok current' ->
  exists d d', current = PDict d /\ current' = PDict d'.
Proof.
  intros Hk H. destruct keys as [| key rest]; [congruence |].
  simpl in H. destruct current as [| | | | | | d]; try discriminate H.
  destruct rest as [| k2 rest].
  - inversion H. eauto.
  - destruct (dict_get key _) as [child |]; [| discriminate H].
    destruct (set_setting_in child (k2 :: rest) value) as [c |]; [| discriminate H].
    simpl in H. inversion H. eauto.
Qed.

Lemma set_then_get_setting_in (keys : list string) :
  forall (current current' value : pyval),
    keys <> [] ->
    set_setting_in current keys value = Ok current' ->
    get_setting_from current' keys = value.
Proof.
  induction keys as [| key rest IH]; intros current current' value Hk H; [congruence |].
  simpl in H. destruct current as [| | | | | | d]; try discriminate H.
  destruct rest as [| k2 rest].
  - inversion H; subst. simpl. now rewrite dict_get_set_same.
  - destruct (dict_get key _) as [child |]; [| discriminate H].
    destruct (set_setting_in child (k2 :: rest) value) as [c |] eqn:E; [| discriminate H].
    simpl in H. inversion H; subst.
    change (get_setting_from (PDict (dict_set key c
              (if negb (dict_mem key d) then dict_set key (PDict []) d else d)))
              (key :: k2 :: rest))
      with (match dict_get key (dict_set key c
                    (if negb (dict_mem key d) then dict_set key (PDict []) d else d)) with
            | Some v => get_setting_from v (k2 :: rest)
            | None => PNone
            end).
    rewrite dict_get_set_same. apply (IH child); [discriminate | exact E].
Qed.

(** X2: after a successful [set_setting] of a value at a key path,
    [get_setting] at that path returns the value, whatever the path held
    before and whichever intermediate sections had to be created. *)
Theorem set_then_get_setting (config_data config_data' value : pyval) (keys : list string) :
  set_setting value keys config_data = (Ok true, config_data') ->
  get_setting config_data' keys = value.
Proof.
  unfold set_setting. intros H.
  destruct keys as [| key rest].
  - destruct config_data; cbv beta iota in H; discriminate H.
  - destruct (set_setting_in config_data (key :: rest) value) as [c' |] eqn:E.
    + assert (config_data' = c')
        by (destruct config_data; cbv beta iota in H; inversion H; reflexivity).
      subst c'.
      assert (Hk : key :: rest <> []) by discriminate.
      destruct (set_setting_in_dict _ _ _ _ Hk E) as (d0 & d' & _ & ->).
      unfold get_setting.
      apply (set_then_get_setting_in _ _ _ _ Hk E).
    + destruct config_data; cbv beta iota in H; discriminate H.
Qed.

Lemma set_then_get_setting_witness :
  exists config_data' : pyval,
    set_setting (PStr "hw:1,0") ["realtime"; "audio"; "source"] config_unset
    = (Ok true, config_data') /\
    get_setting config_data' ["realtime"; "audio"; "source"] = PStr "hw:1,0" /\
    get_setting config_data' ["realtime"; "interval"] = PInt 15%Z.
Proof.
  eexists. split; [reflexivity |]. split.
  - apply (set_then_get_setting config_unset _ (PStr "hw:1,0")
             ["realtime"; "audio"; "source"]).
    reflexivity.
  - reflexivity.
Defined.

(** X3: in a document none of whose objects is reachable by two key
    paths, [set_setting] changes nothing on a path that branches off the
    written one: [get_setting] on such a path returns what it returned
    before, whether the call succeeds or not. *)
Theorem set_setting_frame (h h' : Objects.heap) (config_data value : Objects.oval)
    (r : result bool) (prefix rest rest' : list string) (k k' : string) :
  Objects.heap_ok h = true ->
  Objects.valid h config_data = true ->
  Objects.unshared h config_data ->
  k <> k' ->
  Objects.set_setting value (prefix ++ k :: rest) config_data h = (r, h') ->
  Objects.get_setting h' config_data (prefix ++ k' :: rest')
  = Objects.get_setting h config_data (prefix ++ k' :: rest').
Proof.
  intros Hok Hv Hu Hk H. unfold Objects.set_setting in H.
  destruct config_data as [| | | | | a];
    try (inversion H; reflexivity);
    try (destruct prefix; cbn [app] in H;
         destruct (Objects.set_setting_in _ _ _ _) eqn:E; inversion H; subst;
         solve [reflexivity | discriminate E | destruct prefix; discriminate E]).
  destruct (prefix ++ k :: rest)%list as [| key2 tail] eqn:Etail;
    [destruct prefix; discriminate Etail |].
  destruct (Objects.set_setting_in h (Objects.ORef a) (key2 :: tail) value) as [h1 | x] eqn:E;
    inversion H; subst; [| reflexivity].
  rewrite <- Etail in E.
  now apply (set_setting_in_branch h h' value k k' rest rest' Hok Hk prefix (Objects.ORef a)).
Qed.

Lemma set_setting_frame_witness :
  exists h' : Objects.heap,
    Objects.set_setting (Objects.OFloat 0.9) ["birdnet"; "threshold"] (Objects.ORef 0)
      (stored_config 33.7490 (-84.3880)) = (Ok true, h') /\
    Objects.get_setting h' (Objects.ORef 0) ["birdnet"; "latitude"] = Objects.OFloat 33.7490 /\
    Objects.get_setting h' (Objects.ORef 0) ["realtime"; "interval"] = Objects.OInt 15.
Proof.
  assert (H : exists h', Objects.set_setting (Objects.OFloat 0.9) ["birdnet"; "threshold"]
                           (Objects.ORef 0) (stored_config 33.7490 (-84.3880))
                         = (Ok true, h'))
    by (eexists; reflexivity).
  destruct H as (h' & H). exists h'. split; [exact H |]. split.
  - assert (Hne : "threshold" <> "latitude") by discriminate.
    pose proof (set_setting_frame (stored_config 33.7490 (-84.3880)) h' (Objects.ORef 0)
                  (Objects.OFloat 0.9) (Ok true) ["birdnet"] [] [] "threshold" "latitude"
                  (stored_config_ok _ _) eq_refl (stored_config_unshared _ _)
                  Hne H) as F.
    cbn [app] in F. rewrite F. reflexivity.
  - assert (Hne : "birdnet" <> "realtime") by discriminate.
    pose proof (set_setting_frame (stored_config 33.7490 (-84.3880)) h' (Objects.ORef 0)
                  (Objects.OFloat 0.9) (Ok true) [] ["threshold"] ["interval"]
                  "birdnet" "realtime"
                  (stored_config_ok _ _) eq_refl (stored_config_unshared _ _)
                  Hne H) as F.
    cbn [app] in F. rewrite F. reflexivity.
Defined.

(** X4: on a configuration mapping and a pair in range, [set_location]
    does what two [set_setting] calls do, one for [birdnet.latitude] and
    one for [birdnet.longitude]. *)
Theorem set_location_as_settings (config_data : pyval) (lat lon : R) :
  is_config_mapping config_data = true ->
  -90 <= lat <= 90 -> -180 <= lon <= 180 ->
  exists config_data1 : pyval,
    set_setting (PFloat lat) ["birdnet"; "latitude"] config_data = (Ok true, config_data1) /\
    set_setting (PFloat lon) ["birdnet"; "longitude"] config_data1
    = set_location lat lon config_data.
Proof.
  intros Hm H1 H2.
  destruct config_data as [| | | | | | d]; try discriminate Hm.
  rewrite set_location_closed_form by assumption.
  unfold is_config_mapping in Hm. unfold birdnet_section_of.
  unfold set_setting, set_setting_in, dict_mem.
  destruct (dict_get "birdnet" d) as [sec |] eqn:E; cbn [negb].
  - destruct sec as [| | | | | | b]; try discriminate Hm.
    rewrite E. cbn [bind]. eexists. split; [reflexivity |].
    cbv beta iota. rewrite dict_get_set_same. cbn [negb bind].
    rewrite dict_get_set_same. cbn [bind]. now rewrite dict_set_set_same.
  - rewrite dict_get_set_same. cbn [bind]. eexists. split; [reflexivity |].
    cbv beta iota. rewrite dict_get_set_same. cbn [negb bind].
    rewrite dict_get_set_same. cbn [bind]. now rewrite !dict_set_set_same.
Qed.

Lemma set_location_as_settings_witness :
  exists config_data1 : pyval,
    set_setting (PFloat 33.7490) ["birdnet"; "latitude"] (PDict [])
    = (Ok true, config_data1) /\
    set_setting (PFloat (-84.3880)) ["birdnet"; "longitude"] config_data1
    = set_location 33.7490 (-84.3880) (PDict []).
Proof.
  apply (set_location_as_settings (PDict []) 33.7490 (-84.3880) eq_refl); lra.
Defined.

Lemma get_location_written (d b : pydict) (lat lon : R) :
  get_location
    (PDict (dict_set "birdnet"
              (PDict (dict_set "longitude" (PFloat lon)
                        (dict_set "latitude" (PFloat lat) b))) d))
  = if _validate_coordinates lat lon
    then Ok (Some {| latitude := lat; longitude := lon; method := None |})
    else Ok None.
Proof.
  eapply get_location_section.
  - apply dict_get_set_same.
  - rewrite dict_get_set_other by discriminate. apply dict_get_set_same.
  - apply dict_get_set_same.
  - reflexivity.
  - reflexivity.
Qed.

(** X5: what [get_location] returns is a stored pair of numbers that
    passes the coordinate validator; on a configuration mapping it never
    raises, and the only exception it can raise at all is
    [AttributeError]. *)
Theorem get_location_sound (config_data : pyval) :
  (forall c : location,
     get_location config_data = Ok (Some c) ->
     _validate_coordinates (latitude c) (longitude c) = true /\
     method c = None /\
     exists vlat vlon : pyval,
       section_get "birdnet" "latitude" config_data = Some vlat /\
       num_of vlat = Some (latitude c) /\
       section_get "birdnet" "longitude" config_data = Some vlon /\
       num_of vlon = Some (longitude c)) /\
  (is_config_mapping config_data = true ->
     exists r : option location, get_location config_data = Ok r) /\
  (forall x : exn, get_location config_data = Raise x -> x = AttributeError).
Proof.
  split; [| split].
  - intros c Hg. destruct (get_location_valid _ _ Hg) as (V & M).
    repeat split; try assumption.
    unfold get_location in Hg. unfold section_get, top_get.
    destruct config_data as [| | | | | | d]; try discriminate Hg.
    destruct (dict_get "birdnet" d) as [sec |]; simpl in Hg; [| discriminate Hg].
    destruct sec as [| | | | | | b]; simpl in Hg; try discriminate Hg.
    destruct (dict_get "latitude" b) as [lat |], (dict_get "longitude" b) as [lon |];
      try (destruct lat; discriminate Hg); try discriminate Hg.
    exists lat, lon.
    destruct (num_of lat) as [la |] eqn:Nla, (num_of lon) as [lo |] eqn:Nlo;
      try (destruct lat, lon; discriminate Hg).
    assert (Hc : c = {| latitude := la; longitude := lo; method := None |}).
    { destruct ((Reqb la 0 && Reqb lo 0) || _);
        destruct lat; try discriminate Nla; destruct lon; try discriminate Nlo;
        inversion Hg; reflexivity. }
    subst c. simpl. auto.
  - intros Hm. unfold is_config_mapping in Hm. unfold get_location.
    destruct config_data as [| | | | | | d]; try discriminate Hm.
    destruct (dict_get "birdnet" d) as [sec |]; simpl.
    + destruct sec as [| | | | | | b]; try discriminate Hm. simpl.
      destruct (dict_get "latitude" b) as [lat |], (dict_get "longitude" b) as [lon |];
        try (destruct lat; eauto; fail); eauto.
      destruct (num_of lat), (num_of lon); try (destruct lat, lon; eauto; fail).
      destruct ((Reqb r 0 && Reqb r0 0) || _); destruct lat, lon; eauto.
    + eauto.
  - intros x Hg. unfold get_location in Hg.
    destruct config_data as [| | | | | | d]; try discriminate Hg;
      try (simpl in Hg; congruence).
    destruct (dict_get "birdnet" d) as [sec |]; simpl in Hg; [| discriminate Hg].
    destruct sec as [| | | | | | b]; simpl in Hg; try congruence.
    destruct (dict_get "latitude" b) as [lat |], (dict_get "longitude" b) as [lon |];
      try (destruct lat; discriminate Hg); try discriminate Hg.
    destruct (num_of lat), (num_of lon); try (destruct lat, lon; discriminate Hg).
    destruct ((Reqb r 0 && Reqb r0 0) || _); destruct lat, lon; discriminate Hg.
Qed.

Lemma get_location_sound_witness :
  _validate_coordinates 40.7128 (-74.0060) = true /\
  (exists r : option location, get_location config_unset = Ok r) /\
  get_location (PDict [("birdnet", PNone)]) = Raise AttributeError.
Proof.
  split; [| split].
  - apply (proj1 (proj1 (get_location_sound (config_at 40.7128 (-74.0060)))
                    {| latitude := 40.7128; longitude := -74.0060; method := None |}
                    (get_location_config_at _ _
                       (proj2 (validate_coordinates_true_iff 40.7128 (-74.0060))
                          ltac:(lra))))).
  - apply (proj1 (proj2 (get_location_sound config_unset))). reflexivity.
  - destruct (get_location (PDict [("birdnet", PNone)])) as [r | x] eqn:E.
    + discriminate E.
    + now rewrite (proj2 (proj2 (get_location_sound (PDict [("birdnet", PNone)]))) x E).
Defined.

(** X6: once a valid coordinate has been written with [set_location],
    [location_changed] for that same coordinate answers False at every
    non-negative threshold: writing the resolved location makes the next
    comparison with it a no-change. *)
Theorem persisted_location_is_unchanged (e : env) (config_data : pyval)
    (lat lon threshold_km : R) :
  is_config_mapping config_data = true ->
  _validate_coordinates lat lon = true ->
  0 <= threshold_km ->
  exists config_data' : pyval,
    set_location lat lon config_data = (Ok true, config_data') /\
    get_location config_data'
    = Ok (Some {| latitude := lat; longitude := lon; method := None |}) /\
    location_changed e config_data' lat lon threshold_km = Ok false.
Proof.
  intros Hm V Ht.
  pose proof V as V'. apply validate_coordinates_true_iff in V'.
  destruct V' as (L1 & L2 & _).
  destruct config_data as [| | | | | | d]; try discriminate Hm.
  eexists. split; [now apply set_location_closed_form |].
  assert (Hg : get_location
                 (PDict (dict_set "birdnet"
                    (PDict (dict_set "longitude" (PFloat lon)
                              (dict_set "latitude" (PFloat lat) (birdnet_section_of d)))) d))
               = Ok (Some {| latitude := lat; longitude := lon; method := None |}))
    by (rewrite get_location_written; now rewrite V).
  split; [exact Hg |].
  unfold location_changed. rewrite Hg. cbn [bind latitude longitude].
  rewrite haversine_km_same. cbn [bind].
  rewrite (proj2 (Rltb_false_iff threshold_km 0)); [reflexivity | assumption].
Qed.

Lemma persisted_location_is_unchanged_witness :
  exists config_data' : pyval,
    set_location 33.7490 (-84.3880) (config_at 40.7128 (-74.0060)) = (Ok true, config_data') /\
    get_location config_data'
    = Ok (Some {| latitude := 33.7490; longitude := -84.3880; method := None |}) /\
    location_changed (example_env http_down no_gps (always 0%Z))
      config_data' 33.7490 (-84.3880) 100 = Ok false.
Proof.
  apply (persisted_location_is_unchanged (example_env http_down no_gps (always 0%Z))
           (config_at 40.7128 (-74.0060)) 33.7490 (-84.3880) 100 eq_refl).
  - valid_coords.
  - lra.
Defined.

(** ** [save] and [restore_from_backup] *)

(** Every outcome of [save], whatever the flag and the files: nothing is
    done; or the copy is interrupted; or, after the copy or without one,
    the write is refused, interrupted or completed. *)
Lemma save_outcomes (e : env) (config_path : string) (create_backup : bool)
    (config_data : pyval) (s s' : state) (ok : bool) :
  save e config_path create_backup config_data s = (ok, s') ->
  let backup_path := (config_path ++ ".backup_" ++ timestamp e)%string in
  let copied := {| fs := fs_put backup_path (fs s config_path) (fs s);
                   log := (log s ++ [Copied config_path backup_path])%list |} in
  (ok = false /\ s' = s) \/
  (exists remains : file_status,
     ok = false /\ config_data <> PNone /\
     write_file e backup_path = WriteFails remains /\
     s' = {| fs := fs_put backup_path remains (fs s);
             log := (log s ++ [Interrupted backup_path])%list |}) \/
  (exists s1 : state,
     (s1 = s \/ s1 = copied) /\ config_data <> PNone /\
     ((ok = false /\ s' = s1) \/
      (exists remains : file_status,
         ok = false /\ write_file e config_path = WriteFails remains /\
         s' = {| fs := fs_put config_path remains (fs s1);
                 log := (log s1 ++ [Interrupted config_path])%list |}) \/
      (ok = true /\ write_file e config_path = Written /\
       s' = {| fs := fs_put config_path (Document config_data) (fs s1);
               log := (log s1 ++ [Wrote config_path config_data])%list |}))).
Proof.
  intros H. cbv zeta.
  set (backup_path := (config_path ++ ".backup_" ++ timestamp e)%string).
  destruct (is_none_dec config_data) as [-> | Hn].
  { left. inversion H. auto. }
  rewrite (save_unfold _ _ _ _ _ Hn) in H. fold backup_path in H.
  destruct (create_backup && path_exists (fs s) config_path).
  - destruct (copy2 e config_path backup_path s) as [c s1] eqn:Ec.
    destruct (copy2_cases _ _ _ _ _ _ Ec) as [(-> & ->) | [(r & -> & Hw & ->) | (-> & _ & ->)]].
    + left. inversion H. auto.
    + right; left. inversion H; subst. exists r. auto.
    + right; right. eexists. split; [right; reflexivity |]. split; [assumption |].
      destruct (write_yaml_cases _ _ _ _ _ _ H)
        as [(-> & ->) | [(r & -> & Hw & ->) | (-> & Hw & ->)]]; eauto 6.
  - right; right. exists s. split; [now left |]. split; [assumption |].
    destruct (write_yaml_cases _ _ _ _ _ _ H)
      as [(-> & ->) | [(r & -> & Hw & ->) | (-> & Hw & ->)]]; eauto 6.
Qed.

(** X7: [save] touches no file other than the configuration file and
    its timestamped backup; when it returns True the configuration file
    holds the document; when it returns False the configuration file is
    as it was, unless the write to it was interrupted after the open, and
    then it holds what the interrupted write left; the backup path holds
    what it held, or the copy of the configuration file, or what an
    interrupted copy left; with no document loaded [save] returns False
    and does nothing. *)
Theorem save_frame (e : env) (config_path : string) (create_backup : bool)
    (config_data : pyval) (s s' : state) (ok : bool) :
  save e config_path create_backup config_data s = (ok, s') ->
  let backup_path := (config_path ++ ".backup_" ++ timestamp e)%string in
  (forall p : string, p <> config_path -> p <> backup_path -> fs s' p = fs s p) /\
  (ok = true ->
     write_file e config_path = Written /\ fs s' config_path = Document config_data) /\
  (ok = false ->
     fs s' config_path = fs s config_path \/
     exists remains : file_status,
       write_file e config_path = WriteFails remains /\ fs s' config_path = remains) /\
  (fs s' backup_path = fs s backup_path \/
   fs s' backup_path = fs s config_path \/
   exists remains : file_status,
     write_file e backup_path = WriteFails remains /\ fs s' backup_path = remains) /\
  (config_data = PNone -> ok = false /\ s' = s).
Proof.
  intros H. cbv zeta.
  pose proof (backup_path_fresh e config_path) as Hfresh.
  assert (Hfresh' : config_path <> (config_path ++ ".backup_" ++ timestamp e)%string)
    by congruence.
  pose proof (save_outcomes _ _ _ _ _ _ _ H) as O. cbv zeta in O.
  destruct O as [(-> & ->) | [(r & -> & Hn & Hw & ->) | (s1 & Hs1 & Hn & O)]].
  - split; [| split; [| split; [| split]]]; auto; discriminate.
  - cbn [fs log]. split; [| split; [| split; [| split]]].
    + intros p Hp Hb. now rewrite fs_put_other by assumption.
    + discriminate.
    + intros _. left. now rewrite fs_put_other by assumption.
    + right; right. exists r. split; [assumption | apply fs_put_same].
    + intros Hd. contradiction.
  - assert (F1 : forall p, p <> (config_path ++ ".backup_" ++ timestamp e)%string ->
                   fs s1 p = fs s p).
    { intros p Hp. destruct Hs1 as [-> | ->]; [reflexivity |].
      cbn [fs]. now rewrite fs_put_other by assumption. }
    assert (F2 : fs s1 (config_path ++ ".backup_" ++ timestamp e)%string
                 = fs s (config_path ++ ".backup_" ++ timestamp e)%string \/
                 fs s1 (config_path ++ ".backup_" ++ timestamp e)%string = fs s config_path).
    { destruct Hs1 as [-> | ->]; [now left | right]. cbn [fs]. apply fs_put_same. }
    destruct O as [(-> & ->) | [(r & -> & Hw & ->) | (-> & Hw & ->)]]; cbn [fs log];
      (split; [| split; [| split; [| split]]]); try contradiction; try discriminate.
    + intros p Hp Hb. now apply F1.
    + intros _. left. now apply F1.
    + destruct F2 as [F2 | F2]; auto.
    + intros p Hp Hb. rewrite fs_put_other by assumption. now apply F1.
    + intros _. right. exists r. split; [assumption | apply fs_put_same].
    + rewrite fs_put_other by assumption. destruct F2 as [F2 | F2]; auto.
    + intros p Hp Hb. rewrite fs_put_other by assumption. now apply F1.
    + intros _. split; [assumption | apply fs_put_same].
    + rewrite fs_put_other by assumption. destruct F2 as [F2 | F2]; auto.
Qed.

Lemma save_frame_witness :
  (exists s' : state,
     save (example_env http_down no_gps (always 0%Z)) BIRDNET_CONFIG_PATH true
       (config_at 33.7490 (-84.3880)) (state_with_config config_unset) = (true, s') /\
     fs s' "location_config.json" = Missing /\
     fs s' BIRDNET_CONFIG_PATH = Document (config_at 33.7490 (-84.3880))) /\
  (exists s' : state,
     save env_disk_full BIRDNET_CONFIG_PATH false
       (config_at 33.7490 (-84.3880)) (state_with_config config_unset) = (false, s') /\
     fs s' "location_config.json" = Missing /\
     (fs s' BIRDNET_CONFIG_PATH = fs (state_with_config config_unset) BIRDNET_CONFIG_PATH \/
      exists remains : file_status,
        write_file env_disk_full BIRDNET_CONFIG_PATH = WriteFails remains /\
        fs s' BIRDNET_CONFIG_PATH = remains)).
Proof.
  split.
  - assert (H : exists s', save (example_env http_down no_gps (always 0%Z))
                             BIRDNET_CONFIG_PATH true (config_at 33.7490 (-84.3880))
                             (state_with_config config_unset) = (true, s'))
      by (eexists; reflexivity).
    destruct H as (s' & H). exists s'. split; [exact H |].
    destruct (save_frame _ _ _ _ _ _ _ H) as (F & T & _).
    split.
    + rewrite F by discriminate. reflexivity.
    + now apply T.
  - assert (H : exists s', save env_disk_full BIRDNET_CONFIG_PATH false
                             (config_at 33.7490 (-84.3880))
                             (state_with_config config_unset) = (false, s'))
      by (eexists; reflexivity).
    destruct H as (s' & H). exists s'. split; [exact H |].
    destruct (save_frame _ _ _ _ _ _ _ H) as (F & _ & N & _).
    split.
    + rewrite F by discriminate. reflexivity.
    + exact (N eq_refl).
Defined.

(** Order of strings. *)

Lemma ascii_compare_cases (a b : ascii) :
  (Ascii.compare a b = Eq /\ a = b) \/
  (Ascii.compare a b = Lt /\ (N_of_ascii a < N_of_ascii b)%N) \/
  (Ascii.compare a b = Gt /\ (N_of_ascii b < N_of_ascii a)%N).
Proof.
  unfold Ascii.compare.
  destruct (N.compare_spec (N_of_ascii a) (N_of_ascii b)) as [E | L | G].
  - left. split; [reflexivity |].
    rewrite <- (ascii_N_embedding a), <- (ascii_N_embedding b). now rewrite E.
  - right; left. auto.
  - right; right. auto.
Qed.

Lemma string_leb_refl (a : string) : String.leb a a = true.
Proof.
  unfold String.leb. induction a as [| c a IH]; simpl; [reflexivity |].
  destruct (ascii_compare_cases c c) as [(-> & _) | [(-> & H) | (-> & H)]];
    try lia. exact IH.
Qed.

Lemma string_leb_trans (a : string) :
  forall b c, String.leb a b = true -> String.leb b c = true -> String.leb a c = true.
Proof.
  unfold String.leb.
  induction a as [| x a IH]; intros [| y b] [| z c]; simpl; try congruence; auto.
  intros H1 H2.
  destruct (ascii_compare_cases x y) as [(E1 & P1) | [(E1 & P1) | (E1 & P1)]];
    rewrite E1 in H1; try discriminate H1;
    destruct (ascii_compare_cases y z) as [(E2 & P2) | [(E2 & P2) | (E2 & P2)]];
    rewrite E2 in H2; try discriminate H2;
    destruct (ascii_compare_cases x z) as [(E3 & P3) | [(E3 & P3) | (E3 & P3)]];
    rewrite E3; subst; try reflexivity; try lia.
  now apply IH with b.
Qed.

(** The head of a list sorted in reverse order is a greatest element. *)
Lemma insert_desc_head (x : string) (l : list string) :
  exists t, insert_desc x l = x :: t \/
            (exists y l', l = y :: l' /\ insert_desc x l = y :: t /\ String.leb x y = true).
Proof.
  destruct l as [| y l']; simpl.
  - exists []. now left.
  - destruct (String.leb y x) eqn:E.
    + eexists. now left.
    + eexists. right. exists y, l'. repeat split.
      destruct (String.leb_total x y) as [H | H]; [exact H | congruence].
Qed.

Lemma sort_desc_head (l : list string) (newest : string) (rest : list string) :
  sort_desc l = newest :: rest ->
  In newest l /\ forall x, In x l -> String.leb x newest = true.
Proof.
  revert newest rest. induction l as [| x l IH]; intros newest rest H; [discriminate H |].
  simpl in H.
  destruct (sort_desc l) as [| y t] eqn:Es.
  - assert (l = []) as ->.
    { destruct l as [| z l']; [reflexivity |]. simpl in Es.
      destruct (insert_desc_head z (sort_desc l')) as (t' & [E | (y' & l'' & _ & E & _)]);
        rewrite E in Es; discriminate Es. }
    simpl in H. inversion H; subst. split; [now left |].
    intros z [<- | []]. apply string_leb_refl.
  - destruct (IH y t eq_refl) as (Hin & Hmax).
    simpl in H. destruct (String.leb y x) eqn:E; inversion H; subst.
    + split; [now left |].
      intros z [<- | Hz]; [apply string_leb_refl |].
      apply string_leb_trans with y; auto.
    + split; [now right |].
      intros z [Hz | Hz]; [subst z | auto].
      destruct (String.leb_total x newest) as [Hl | Hl]; [exact Hl | congruence].
Qed.

Lemma sort_desc_nil (l : list string) : sort_desc l = [] -> l = [].
Proof.
  destruct l as [| z l']; [reflexivity |]. simpl. intros Es.
  destruct (insert_desc_head z (sort_desc l')) as (t' & [E | (y' & l'' & _ & E & _)]);
    rewrite E in Es; discriminate Es.
Qed.

(** X8: [restore_from_backup] succeeds only by copying, over the
    configuration file, the listed backup whose name is greatest among
    the names that start with the file name followed by [.backup_] (the
    latest timestamp); no other file changes; without such a name in
    the directory it returns False and changes nothing. *)
Theorem restore_from_backup_latest (e : env) (listdir : string -> result (list string))
    (config_path : string) (s : state) :
  let backup_basename := (path_basename config_path ++ ".backup_")%string in
  (forall s' : state,
     restore_from_backup e listdir config_path s = (true, s') ->
     exists (names : list string) (newest : string),
       listdir (path_dirname config_path) = Ok names /\
       In newest names /\
       String.prefix backup_basename newest = true /\
       (forall n, In n names -> String.prefix backup_basename n = true ->
                  String.leb n newest = true) /\
       fs s' config_path = fs s (path_join (path_dirname config_path) newest) /\
       (forall p, p <> config_path -> fs s' p = fs s p)) /\
  (forall names : list string,
     listdir (path_dirname config_path) = Ok names ->
     (forall n, In n names -> String.prefix backup_basename n = false) ->
     restore_from_backup e listdir config_path s = (false, s)).
Proof.
  cbv zeta. unfold restore_from_backup. split.
  - intros s' H.
    destruct (listdir (path_dirname config_path)) as [names | x]; [| discriminate H].
    destruct (sort_desc (filter _ names)) as [| newest rest] eqn:Es; [discriminate H |].
    destruct (sort_desc_head _ _ _ Es) as (Hin & Hmax).
    apply filter_In in Hin. destruct Hin as (Hin & Hpre).
    exists names, newest.
    destruct (copy2_cases _ _ _ _ _ _ H) as [(C & _) | [(r & C & _) | (_ & _ & ->)]];
      try discriminate C.
    repeat split; try assumption.
    + intros n Hn Hp. apply Hmax. apply filter_In. now split.
    + cbn [fs]. apply fs_put_same.
    + intros p Hp. cbn [fs]. now apply fs_put_other.
  - intros names Hl Hnone. rewrite Hl.
    assert (Hf : filter (String.prefix (path_basename config_path ++ ".backup_")) names = []).
    { clear Hl. induction names as [| n names IH]; [reflexivity |]. simpl.
      rewrite (Hnone n (or_introl eq_refl)). apply IH.
      intros m Hm. apply Hnone. now right. }
    now rewrite Hf.
Qed.

Lemma restore_from_backup_latest_witness :
  restore_from_backup (example_env http_down no_gps (always 0%Z))
    (listing "/root/birdnet-go-app/config" ["config.yaml"; "notes.txt"])
    BIRDNET_CONFIG_PATH (state_with_config config_unset)
  = (false, state_with_config config_unset).
Proof.
  apply (proj2 (restore_from_backup_latest
                  (example_env http_down no_gps (always 0%Z))
                  (listing "/root/birdnet-go-app/config" ["config.yaml"; "notes.txt"])
                  BIRDNET_CONFIG_PATH (state_with_config config_unset))
           ["config.yaml"; "notes.txt"] eq_refl).
  intros n [<- | [<- | []]]; reflexivity.
Defined.

(** Paths of the form [dir/name]. *)

Lemma string_append_assoc (a b c : string) : ((a ++ b) ++ c = a ++ (b ++ c))%string.
Proof. induction a as [| x a IH]; simpl; [reflexivity | now rewrite IH]. Qed.

Lemma string_prefix_append (a b : string) : String.prefix a (a ++ b) = true.
Proof.
  induction a as [| x a IH]; simpl.
  - now destruct b.
  - destruct (ascii_dec x x) as [_ | N]; [exact IH | contradiction].
Qed.

Lemma split_last_slash_name (name : string) :
  no_slash name = true -> split_last_slash name = (EmptyString, name).
Proof.
  induction name as [| c name IH]; simpl; [reflexivity |].
  intros H. apply andb_true_iff in H. destruct H as (Hc & Hn).
  rewrite (IH Hn). apply negb_true_iff in Hc. now rewrite Hc.
Qed.

Lemma split_last_slash_dir_name (dir name : string) :
  no_slash name = true ->
  split_last_slash (dir ++ "/" ++ name) = ((dir ++ "/")%string, name).
Proof.
  intros Hn. induction dir as [| c dir IH].
  - cbn [append split_last_slash]. rewrite (split_last_slash_name _ Hn). reflexivity.
  - change ((String c dir ++ "/" ++ name)%string)
      with (String c (dir ++ "/" ++ name)%string).
    cbn [split_last_slash]. rewrite IH.
    destruct dir; reflexivity.
Qed.

Lemma rstrip_slash_dir (dir : string) :
  dir <> EmptyString -> ends_with_slash dir = false ->
  rstrip_slash (dir ++ "/") = dir /\ all_slashes (dir ++ "/") = false.
Proof.
  induction dir as [| c dir IH]; [congruence |]. intros _ He.
  destruct dir as [| c' dir'].
  - simpl in He. simpl. rewrite He. split; reflexivity.
  - assert (He' : ends_with_slash (String c' dir') = false) by exact He.
    destruct (IH ltac:(discriminate) He') as (R & A).
    split.
    + change (rstrip_slash (String c (String c' dir' ++ "/")%string)
              = String c (String c' dir')).
      cbn [rstrip_slash]. rewrite R. reflexivity.
    + change (all_slashes (String c (String c' dir' ++ "/")%string) = false).
      cbn [all_slashes]. rewrite A. apply andb_false_r.
Qed.

Lemma path_dirname_basename (dir name : string) :
  dir <> EmptyString -> ends_with_slash dir = false -> no_slash name = true ->
  path_dirname (dir ++ "/" ++ name) = dir /\ path_basename (dir ++ "/" ++ name) = name.
Proof.
  intros Hd He Hn. unfold path_dirname, path_basename.
  rewrite (split_last_slash_dir_name dir name Hn). cbn [fst snd].
  destruct (rstrip_slash_dir dir Hd He) as (R & A). rewrite A, R. cbn [negb].
  split; [| reflexivity].
  destruct dir; [congruence | reflexivity].
Qed.

Lemma path_join_dir_name (dir name suffix : string) :
  dir <> EmptyString -> ends_with_slash dir = false -> no_slash name = true ->
  path_join dir (name ++ ".backup_" ++ suffix) = (dir ++ "/" ++ name ++ ".backup_" ++ suffix)%string.
Proof.
  intros Hd He Hn. unfold path_join.
  assert (Hp : String.prefix "/" (name ++ ".backup_" ++ suffix) = false).
  { destruct name as [| c name]; [reflexivity |].
    simpl in Hn. apply andb_true_iff in Hn. destruct Hn as (Hc & _).
    apply negb_true_iff in Hc. apply Ascii.eqb_neq in Hc.
    cbn [append String.prefix].
    destruct (ascii_dec "/" c) as [E | _]; [congruence | reflexivity]. }
  rewrite Hp, He. destruct dir; [congruence | reflexivity].
Qed.

(** X9: [restore_from_backup] undoes [save]: when [save] with a backup
    has overwritten the existing file [dir/name], the directory listing
    shows the backup just made, and no listed backup of that file has a
    later name, the restore succeeds and the file holds what it held
    before the save. *)
Theorem save_then_restore (e : env) (listdir : string -> result (list string))
    (dir name : string) (config_data : pyval) (s s1 : state) (names : list string) :
  dir <> EmptyString -> ends_with_slash dir = false -> no_slash name = true ->
  path_exists (fs s) (dir ++ "/" ++ name) = true ->
  save e (dir ++ "/" ++ name) true config_data s = (true, s1) ->
  listdir dir = Ok names ->
  In (name ++ ".backup_" ++ timestamp e)%string names ->
  (forall n, In n names -> String.prefix (name ++ ".backup_") n = true ->
             String.leb n (name ++ ".backup_" ++ timestamp e) = true) ->
  exists s2 : state,
    restore_from_backup e listdir (dir ++ "/" ++ name) s1 = (true, s2) /\
    fs s2 (dir ++ "/" ++ name)%string = fs s (dir ++ "/" ++ name)%string.
Proof.
  intros Hd He Hn Hex Hsave Hl Hin Hmax.
  set (path := (dir ++ "/" ++ name)%string) in *.
  destruct (path_dirname_basename dir name Hd He Hn) as (Dn & Bn). fold path in Dn, Bn.
  (* what the save left behind *)
  pose proof (save_with_backup_cases _ _ _ _ _ _ Hex Hsave) as C. cbv zeta in C.
  destruct C as [(C & _) | [(r & C & _) | [(C & _) | [(r & C & _) | (_ & _ & Hfs & _)]]]];
    try discriminate C.
  assert (Hw : write_file e path = Written).
  { destruct (save_outcomes _ _ _ _ _ _ _ Hsave)
      as [(C & _) | [(r & C & _) | (s0 & _ & _ & [(C & _) | [(r & C & _) | (_ & Hw & _)]])]];
      try discriminate C.
    exact Hw. }
  assert (Hsrc : fs s path <> Missing /\ fs s path <> Unreadable).
  { unfold save, copy2 in Hsave. rewrite Hex in Hsave. cbn [andb] in Hsave.
    destruct (fs s path); split; try discriminate;
      destruct config_data; discriminate Hsave. }
  (* the newest listed backup is the one just made *)
  unfold restore_from_backup. rewrite Dn, Bn, Hl.
  set (mine := (name ++ ".backup_" ++ timestamp e)%string) in *.
  assert (Hmine : In mine (filter (String.prefix (name ++ ".backup_")) names)).
  { apply filter_In. split; [exact Hin |].
    unfold mine. rewrite <- string_append_assoc. apply string_prefix_append. }
  destruct (sort_desc (filter (String.prefix (name ++ ".backup_")) names))
    as [| newest rest] eqn:Es.
  { apply sort_desc_nil in Es. rewrite Es in Hmine. contradiction. }
  destruct (sort_desc_head _ _ _ Es) as (Hnew & Hge).
  apply filter_In in Hnew. destruct Hnew as (Hnew & Hpre).
  assert (newest = mine) as ->
    by (apply String.leb_antisym; [now apply Hmax | now apply Hge]).
  unfold mine. rewrite (path_join_dir_name dir name (timestamp e) Hd He Hn).
  assert (Hbk : (dir ++ "/" ++ name ++ ".backup_" ++ timestamp e
                 = path ++ ".backup_" ++ timestamp e)%string).
  { unfold path. now rewrite !string_append_assoc. }
  rewrite Hbk. unfold copy2. rewrite Hfs, fs_put_other, fs_put_same
    by apply backup_path_fresh.
  rewrite Hw. destruct Hsrc as (S1 & S2).
  destruct (fs s path) eqn:Ef; try congruence;
    eexists; (split; [reflexivity |]); cbn [fs]; apply fs_put_same.
Qed.

Lemma save_then_restore_witness :
  exists s1 s2 : state,
    save (example_env http_down no_gps (always 0%Z)) BIRDNET_CONFIG_PATH true
      (config_at 33.7490 (-84.3880)) (state_with_config config_unset) = (true, s1) /\
    restore_from_backup (example_env http_down no_gps (always 0%Z))
      (listing "/root/birdnet-go-app/config"
         ["config.yaml"; "config.yaml.backup_20241101_093000";
          "config.yaml.backup_20250301_060000"])
      BIRDNET_CONFIG_PATH s1 = (true, s2) /\
    fs s2 BIRDNET_CONFIG_PATH = Document config_unset.
Proof.
  eexists.
  destruct (save_then_restore
              (example_env http_down no_gps (always 0%Z))
              (listing "/root/birdnet-go-app/config"
                 ["config.yaml"; "config.yaml.backup_20241101_093000";
                  "config.yaml.backup_20250301_060000"])
              "/root/birdnet-go-app/config" "config.yaml"
              (config_at 33.7490 (-84.3880)) (state_with_config config_unset) _
              ["config.yaml"; "config.yaml.backup_20241101_093000";
               "config.yaml.backup_20250301_060000"]
              ltac:(discriminate) eq_refl eq_refl eq_refl eq_refl eq_refl)
    as (s2 & Hr & Hf).
  - right; right; left. reflexivity.
  - intros n [<- | [<- | [<- | []]]]; intros H; try discriminate H; reflexivity.
  - exists s2. split; [reflexivity |]. split; [exact Hr | exact Hf].
Defined.

(** * Further properties of the detection chain *)

Lemma parse_ipapi_co_method (e : env) (data : pyval) (l : location) :
  _parse_ipapi_co e data = Ok (Some l) -> method l = Some ipapi_co.
Proof.
  unfold _parse_ipapi_co. intros H.
  destruct (py_in "error" data) as [[|] |]; simpl in H; try discriminate H.
  destruct (py_getitem data "latitude") as [v1 |]; simpl in H; [| discriminate H].
  destruct (py_float e v1); simpl in H; [| discriminate H].
  destruct (py_getitem data "longitude") as [v2 |]; simpl in H; [| discriminate H].
  destruct (py_float e v2); simpl in H; [| discriminate H].
  inversion H. reflexivity.
Qed.

Lemma parse_ip_api_com_method (e : env) (data : pyval) (l : location) :
  _parse_ip_api_com e data = Ok (Some l) -> method l = Some ip_api_com.
Proof.
  unfold _parse_ip_api_com. intros H.
  destruct (py_get data "status") as [st |]; simpl in H; [| discriminate H].
  destruct st as [| | | | st | |]; try discriminate H.
  destruct (String.eqb_spec st "success") as [-> | Hne].
  - destruct (py_getitem data "lat") as [v1 |]; simpl in H; [| discriminate H].
    destruct (py_float e v1); simpl in H; [| discriminate H].
    destruct (py_getitem data "lon") as [v2 |]; simpl in H; [| discriminate H].
    destruct (py_float e v2); simpl in H; [| discriminate H].
    inversion H. reflexivity.
  - exfalso. revert H.
    repeat match goal with
           | |- context [match ?x with _ => _ end] =>
               is_var x; destruct x; try discriminate; try congruence
           end.
Qed.

Lemma parse_ipinfo_io_method (e : env) (data : pyval) (l : location) :
  _parse_ipinfo_io e data = Ok (Some l) -> method l = Some ipinfo_io.
Proof.
  unfold _parse_ipinfo_io. intros H.
  destruct (py_in "loc" data) as [[|] |]; simpl in H; try discriminate H.
  destruct (py_getitem data "loc") as [v |]; simpl in H; [| discriminate H].
  destruct v as [| | | | loc | |]; try discriminate H.
  destruct (split_comma loc) as [| a [| b [| c t]]]; try discriminate H.
  unfold py_float in H.
  destruct (float_of_str e a); simpl in H; [| discriminate H].
  destruct (float_of_str e b); simpl in H; [| discriminate H].
  inversion H. reflexivity.
Qed.

(** One attempt returns only what the provider's parser produced and the
    validator accepted. *)
Lemma ip_attempt_some (e : env) (url : string)
    (parser : env -> pyval -> result (option location)) (l : location) :
  ip_attempt e (url, parser) = Ok (Some l) <-> provider_answers e url parser l.
Proof.
  unfold ip_attempt, provider_answers. cbn [fst snd]. split.
  - intros H. destruct (http_get e url) as [| data]; [discriminate H |].
    exists data. split; [reflexivity |].
    destruct (parser e data) as [[l' |] |]; simpl in H; try discriminate H.
    destruct (_validate_coordinates (latitude l') (longitude l')) eqn:V;
      inversion H; subst. auto.
  - intros (data & -> & -> & V). simpl. now rewrite V.
Qed.

Lemma ip_attempt_skipped (e : env) (url : string)
    (parser : env -> pyval -> result (option location)) :
  provider_skipped e url parser ->
  ip_attempt e (url, parser) = Ok None \/
  ip_attempt e (url, parser) = Raise RequestException \/
  ip_attempt e (url, parser) = Raise KeyError.
Proof.
  unfold ip_attempt, provider_skipped. cbn [fst snd].
  intros [-> | (data & -> & [-> | [-> | (l & -> & V)]])]; simpl; auto.
  rewrite V. auto.
Qed.

Lemma ip_loop_skip (e : env) (url : string)
    (parser : env -> pyval -> result (option location))
    (rest : list (string * (env -> pyval -> result (option location)))) :
  provider_skipped e url parser ->
  ip_loop e ((url, parser) :: rest) = ip_loop e rest.
Proof.
  intros H. cbn [ip_loop].
  destruct (ip_attempt_skipped _ _ _ H) as [-> | [-> | ->]]; reflexivity.
Qed.

Lemma ip_loop_answer (e : env) (url : string)
    (parser : env -> pyval -> result (option location))
    (rest : list (string * (env -> pyval -> result (option location)))) (l : location) :
  provider_answers e url parser l ->
  ip_loop e ((url, parser) :: rest) = Ok (Some l).
Proof.
  intros H. cbn [ip_loop]. now rewrite (proj2 (ip_attempt_some _ _ _ _) H).
Qed.

(** X10: the IP providers are asked in the order ipapi.co, ip-api.com,
    ipinfo.io and the first valid answer is returned: an answer of
    ipapi.co wins whatever the others say; a provider that is
    unreachable, reports no location, lacks a field or gives coordinates
    the validator rejects is passed over; when all three are passed
    over the result is None. *)
Theorem ip_provider_order (e : env) :
  (forall l, provider_answers e "https://ipapi.co/json/" _parse_ipapi_co l ->
     _try_ip_geolocation e = Ok (Some l)) /\
  (provider_skipped e "https://ipapi.co/json/" _parse_ipapi_co ->
   forall l, provider_answers e "http://ip-api.com/json/" _parse_ip_api_com l ->
     _try_ip_geolocation e = Ok (Some l)) /\
  (provider_skipped e "https://ipapi.co/json/" _parse_ipapi_co ->
   provider_skipped e "http://ip-api.com/json/" _parse_ip_api_com ->
   forall l, provider_answers e "https://ipinfo.io/json" _parse_ipinfo_io l ->
     _try_ip_geolocation e = Ok (Some l)) /\
  (provider_skipped e "https://ipapi.co/json/" _parse_ipapi_co ->
   provider_skipped e "http://ip-api.com/json/" _parse_ip_api_com ->
   provider_skipped e "https://ipinfo.io/json" _parse_ipinfo_io ->
     _try_ip_geolocation e = Ok None).
Proof.
  unfold _try_ip_geolocation, apis. repeat split.
  - intros l H. now apply ip_loop_answer.
  - intros S1 l H. rewrite ip_loop_skip by assumption. now apply ip_loop_answer.
  - intros S1 S2 l H. rewrite !ip_loop_skip by assumption. now apply ip_loop_answer.
  - intros S1 S2 S3. now rewrite !ip_loop_skip by assumption.
Qed.

Lemma ip_provider_order_witness :
  _try_ip_geolocation (example_env http_rate_limited no_gps (always 0%Z))
  = Ok (Some {| latitude := 33.7490; longitude := -84.3880; method := Some ip_api_com |}).
Proof.
  apply (proj1 (proj2 (ip_provider_order
                         (example_env http_rate_limited no_gps (always 0%Z))))).
  - right. eexists. split; [reflexivity |]. left. reflexivity.
  - eexists. split; [reflexivity |]. split; [reflexivity | valid_coords].
Defined.

(** ** GPS *)

Lemma gps_poll_some (n : nat) :
  forall (reports : list (result gps_report)) (l : location),
    gps_poll n reports = Some l ->
    _validate_coordinates (latitude l) (longitude l) = true /\
    method l = Some GPS_hardware /\
    In (Ok {| report_class := "TPV"; report_lat := Some (latitude l);
              report_lon := Some (longitude l) |}) (firstn n reports).
Proof.
  induction n as [| n IH]; intros reports l H; [discriminate H |].
  destruct reports as [| [r | x] rest]; try discriminate H.
  cbn [gps_poll] in H. cbn [firstn].
  assert (Hrest : gps_poll n rest = Some l ->
                  _validate_coordinates (latitude l) (longitude l) = true /\
                  method l = Some GPS_hardware /\
                  In (Ok {| report_class := "TPV"; report_lat := Some (latitude l);
                            report_lon := Some (longitude l) |}) (Ok r :: firstn n rest)).
  { intros H'. destruct (IH _ _ H') as (V & M & I). repeat split; auto. now right. }
  destruct (String.eqb_spec (report_class r) "TPV") as [Ec | Ec]; [| auto].
  destruct r as [cls [lat |] [lon |]]; cbn [report_lat report_lon report_class] in *; auto.
  destruct (_validate_coordinates lat lon) eqn:V; [| auto].
  inversion H; subst. cbn [latitude longitude method]. repeat split; auto. now left.
Qed.

Lemma gps_poll_firstn (n : nat) :
  forall reports : list (result gps_report),
    gps_poll n (firstn n reports) = gps_poll n reports.
Proof.
  induction n as [| n IH]; intros reports; [reflexivity |].
  destruct reports as [| [r | x] rest]; try reflexivity.
  cbn [firstn gps_poll]. rewrite IH. reflexivity.
Qed.

Lemma gps_poll_skip (n : nat) (r : result gps_report) (rest : list (result gps_report)) :
  not_a_fix r -> gps_poll (S n) (r :: rest) = gps_poll n rest.
Proof.
  intros (report & -> & H). cbn [gps_poll].
  destruct (String.eqb_spec (report_class report) "TPV") as [Ec | Ec]; [| reflexivity].
  destruct H as [H | [H | [H | (lat & lon & -> & -> & V)]]].
  - contradiction.
  - rewrite H. reflexivity.
  - rewrite H. now destruct (report_lat report).
  - now rewrite V.
Qed.

(** X11: the GPS source is never fatal and reads at most 30 reports:
    whenever [systemctl] answers, or fails by timeout or missing binary,
    the result is a value and not an exception; it is None when gpsd is
    not active; and reports after the thirtieth do not influence it. *)
Theorem gps_never_fatal_and_bounded (e e' : env) :
  ((exists code, systemctl_is_active_gpsd e = Ok code) \/
   systemctl_is_active_gpsd e = Raise TimeoutExpired \/
   systemctl_is_active_gpsd e = Raise FileNotFoundError ->
   exists r : option location, _try_gps_hardware e = Ok r) /\
  (forall code, systemctl_is_active_gpsd e = Ok code -> code <> 0%Z ->
   _try_gps_hardware e = Ok None) /\
  (systemctl_is_active_gpsd e' = systemctl_is_active_gpsd e ->
   (forall reports reports',
      gps_session e = Ok reports -> gps_session e' = Ok reports' ->
      firstn 30 reports' = firstn 30 reports ->
      _try_gps_hardware e' = _try_gps_hardware e)).
Proof.
  unfold _try_gps_hardware. split; [| split].
  - intros [(code & ->) | [-> | ->]]; cbv beta iota.
    + destruct (negb (code =? 0)%Z); [eexists; reflexivity |].
      destruct (gps_session e); eexists; reflexivity.
    + eexists; reflexivity.
    + eexists; reflexivity.
  - intros code -> Hc. cbv beta iota.
    destruct (Z.eqb_spec code 0); [contradiction | reflexivity].
  - intros Hs reports reports' Hr Hr' Hf. rewrite Hs, Hr, Hr'.
    now rewrite <- (gps_poll_firstn 30 reports'), Hf, gps_poll_firstn.
Qed.

Lemma gps_never_fatal_and_bounded_witness :
  (exists r : option location,
     _try_gps_hardware (example_env http_down no_gps (always 0%Z)) = Ok r) /\
  _try_gps_hardware (example_env http_down no_gps (always 0%Z)) = Ok None.
Proof.
  split.
  - apply (proj1 (gps_never_fatal_and_bounded
                    (example_env http_down no_gps (always 0%Z))
                    (example_env http_down no_gps (always 0%Z)))).
    left. exists 3%Z. reflexivity.
  - apply (proj1 (proj2 (gps_never_fatal_and_bounded
                           (example_env http_down no_gps (always 0%Z))
                           (example_env http_down no_gps (always 0%Z)))) 3%Z).
    + reflexivity.
    + discriminate.
Defined.

(** X12: with gpsd active, the GPS source returns the first position fix
    with valid coordinates among the first 30 reports: reports of another
    class, fixes without position and fixes the validator rejects are
    passed over. *)
Theorem gps_first_valid_fix (e : env) (before after : list (result gps_report))
    (lat lon : R) :
  systemctl_is_active_gpsd e = Ok 0%Z ->
  gps_session e =
    Ok (before ++ Ok {| report_class := "TPV"; report_lat := Some lat;
                        report_lon := Some lon |} :: after)%list ->
  (List.length before < 30)%nat ->
  Forall not_a_fix before ->
  _validate_coordinates lat lon = true ->
  _try_gps_hardware e
  = Ok (Some {| latitude := lat; longitude := lon; method := Some GPS_hardware |}).
Proof.
  intros Hs Hg Hlen Hskip V. unfold _try_gps_hardware. rewrite Hs, Hg.
  change (negb (0 =? 0)%Z) with false. cbv beta iota.
  f_equal.
  assert (Hgen : forall n, (List.length before < n)%nat ->
            gps_poll n (before ++ Ok {| report_class := "TPV"; report_lat := Some lat;
                                        report_lon := Some lon |} :: after)%list
            = Some {| latitude := lat; longitude := lon; method := Some GPS_hardware |}).
  { clear Hlen Hg. induction Hskip as [| r before Hr Hskip IH]; intros n Hn.
    - destruct n as [| n]; [inversion Hn |].
      cbn [app gps_poll report_class report_lat report_lon].
      now rewrite V.
    - destruct n as [| n]; [inversion Hn |].
      cbn [app]. rewrite gps_poll_skip by assumption.
      apply IH. simpl in Hn. lia. }
  now apply Hgen.
Qed.

Lemma gps_first_valid_fix_witness :
  _try_gps_hardware (example_env http_down (gps_late_fix 33.7756 (-84.3963)) (always 0%Z))
  = Ok (Some {| latitude := 33.7756; longitude := -84.3963; method := Some GPS_hardware |}).
Proof.
  apply (gps_first_valid_fix
           (example_env http_down (gps_late_fix 33.7756 (-84.3963)) (always 0%Z))
           [ Ok {| report_class := "SKY"; report_lat := None; report_lon := None |};
             Ok {| report_class := "TPV"; report_lat := None; report_lon := None |};
             Ok {| report_class := "TPV"; report_lat := Some 0; report_lon := Some 0 |} ]
           [ Raise StopIteration ] 33.7756 (-84.3963) eq_refl eq_refl).
  - simpl. lia.
  - repeat constructor.
    + eexists. split; [reflexivity |]. left. discriminate.
    + eexists. split; [reflexivity |]. right; left. reflexivity.
    + eexists. split; [reflexivity |]. right; right; right.
      exists 0, 0. repeat split. valid_coords.
  - valid_coords.
Defined.

(** ** Manual configuration *)

Lemma py_float_num (e : env) (v : pyval) (r : R) :
  num_of v = Some r -> py_float e v = Ok r.
Proof. destruct v; simpl; intros H; inversion H; reflexivity. Qed.

Lemma validate_coordinates_dyn_num (vlat vlon : pyval) (la lo : R) :
  num_of vlat = Some la -> num_of vlon = Some lo ->
  _validate_coordinates_dyn vlat vlon = Ok (_validate_coordinates la lo).
Proof.
  intros Hla Hlo. unfold _validate_coordinates_dyn. rewrite Hla.
  unfold _validate_coordinates.
  destruct (Rleb (-90) la && Rleb la 90); [now rewrite Hlo | reflexivity].
Qed.

Lemma validate_coordinates_dyn_true (vlat vlon : pyval) :
  _validate_coordinates_dyn vlat vlon = Ok true ->
  exists la lo : R,
    num_of vlat = Some la /\ num_of vlon = Some lo /\ _validate_coordinates la lo = true.
Proof.
  unfold _validate_coordinates_dyn. intros H.
  destruct (num_of vlat) as [la |]; [| discriminate H].
  destruct (Rleb (-90) la && Rleb la 90); [| discriminate H].
  destruct (num_of vlon) as [lo |]; [| discriminate H].
  inversion H. eauto.
Qed.

Lemma num_not_none (v : pyval) (r : R) : num_of v = Some r -> v <> PNone.
Proof. destruct v; discriminate. Qed.

Lemma manual_attempt_location (e : env) (doc : pyval) (la lo : R) :
  manual_doc_location doc la lo ->
  manual_attempt e doc =
    if _validate_coordinates la lo
    then Ok (Some {| latitude := la; longitude := lo; method := Some manual_configuration |})
    else Ok None.
Proof.
  intros (d & loc & vlat & vlon & -> & Hloc & Hlat & Nla & Hlon & Nlo).
  unfold manual_attempt, py_in, dict_mem, py_getitem. rewrite Hloc. cbn [bind].
  unfold py_get. rewrite Hlat, Hlon. cbn [bind].
  rewrite (validate_coordinates_dyn_num _ _ _ _ Nla Nlo).
  rewrite (py_float_num e _ _ Nla), (py_float_num e _ _ Nlo).
  pose proof (num_not_none _ _ Nla). pose proof (num_not_none _ _ Nlo).
  destruct vlat; try congruence; destruct vlon; try congruence;
    cbn [bind]; destruct (_validate_coordinates la lo); reflexivity.
Qed.

Lemma manual_attempt_some (e : env) (doc : pyval) (l : location) :
  manual_attempt e doc = Ok (Some l) ->
  _validate_coordinates (latitude l) (longitude l) = true /\
  method l = Some manual_configuration /\
  manual_doc_location doc (latitude l) (longitude l).
Proof.
  unfold manual_attempt. intros H.
  destruct (py_in "location" doc) as [[|] |] eqn:Hin; cbn [bind] in H; try discriminate H.
  destruct (py_getitem doc "location") as [vloc |] eqn:Hget; cbn [bind] in H;
    [| discriminate H].
  destruct (py_get vloc "latitude") as [vlat |] eqn:Hlat; cbn [bind] in H;
    [| discriminate H].
  destruct (py_get vloc "longitude") as [vlon |] eqn:Hlon; cbn [bind] in H;
    [| discriminate H].
  assert (Hdyn : exists valid, _validate_coordinates_dyn vlat vlon = Ok valid /\
            (if valid
             then la <- py_float e vlat ;; lo <- py_float e vlon ;;
                  Ok (Some {| latitude := la; longitude := lo;
                              method := Some manual_configuration |})
             else Ok None) = Ok (Some l)).
  { destruct vlat; try discriminate H; destruct vlon; try discriminate H;
      match type of H with
      | context [_validate_coordinates_dyn ?a ?b] =>
          destruct (_validate_coordinates_dyn a b) as [valid |]; cbn [bind] in H;
          [exists valid; split; [reflexivity | exact H] | discriminate H]
      end. }
  destruct Hdyn as ([|] & Hv & Hres); [| discriminate Hres].
  destruct (validate_coordinates_dyn_true _ _ Hv) as (la & lo & Nla & Nlo & V).
  rewrite (py_float_num e _ _ Nla), (py_float_num e _ _ Nlo) in Hres.
  cbn [bind] in Hres. inversion Hres; subst. cbn [latitude longitude method].
  repeat split; try assumption.
  destruct doc as [| | | | | | d]; try discriminate Hget.
  unfold py_getitem in Hget.
  destruct (dict_get "location" d) as [x |] eqn:Hd; [| discriminate Hget].
  inversion Hget; subst x.
  destruct vloc as [| | | | | | loc]; try discriminate Hlat.
  unfold py_get in Hlat, Hlon.
  exists d, loc, vlat, vlon.
  destruct (dict_get "latitude" loc) as [x |]; [| inversion Hlat; subst; discriminate Nla].
  destruct (dict_get "longitude" loc) as [y |]; [| inversion Hlon; subst; discriminate Nlo].
  inversion Hlat; inversion Hlon; subst. auto 10.
Qed.

Lemma manual_attempt_skipped (e : env) (d : pydict) :
  (dict_get "location" d = None \/
   (exists loc : pydict,
      dict_get "location" d = Some (PDict loc) /\
      (field_is_none "latitude" loc \/ field_is_none "longitude" loc)) \/
   (exists la lo : R,
      manual_doc_location (PDict d) la lo /\ _validate_coordinates la lo = false)) ->
  manual_attempt e (PDict d) = Ok None.
Proof.
  intros [H | [(loc & Hloc & H) | (la & lo & Hdoc & V)]].
  - unfold manual_attempt, py_in, dict_mem. now rewrite H.
  - unfold manual_attempt, py_in, dict_mem, py_getitem. rewrite Hloc. cbn [bind].
    unfold py_get, field_is_none in *.
    destruct H as [[-> | ->] | [-> | ->]]; cbn [bind]; try reflexivity;
      destruct (dict_get "latitude" loc) as [[] |]; reflexivity.
  - rewrite (manual_attempt_location e _ _ _ Hdoc). now rewrite V.
Qed.

Lemma manual_loop_skip (e : env) (files : filesystem) (path : string) (rest : list string) :
  manual_file_skipped (files path) ->
  manual_loop e files (path :: rest) = manual_loop e files rest.
Proof.
  intros [[H | [H | H]] | (d & H & Hs)]; cbn [manual_loop]; rewrite H; try reflexivity.
  now rewrite (manual_attempt_skipped e d Hs).
Qed.

Lemma manual_loop_found (e : env) (files : filesystem) (path : string) (rest : list string)
    (doc : pyval) (la lo : R) :
  files path = Document doc -> manual_doc_location doc la lo ->
  _validate_coordinates la lo = true ->
  manual_loop e files (path :: rest)
  = Ok (Some {| latitude := la; longitude := lo; method := Some manual_configuration |}).
Proof.
  intros Hf Hdoc V. cbn [manual_loop]. rewrite Hf.
  now rewrite (manual_attempt_location e _ _ _ Hdoc), V.
Qed.

(** X13: the manual source tries [location_config.json] in the working
    directory, then the one under [/home/jeremy/birdnet_display], then
    the one under the home directory, and returns the first that holds
    valid numeric coordinates; a file that is absent, unreadable, not
    JSON, without a location or coordinates, or with coordinates the
    validator rejects, is passed over; when all three are passed over the
    result is None. *)
Theorem manual_config_priority (e : env) (files : filesystem) :
  let p1 := "location_config.json" in
  let p2 := "/home/jeremy/birdnet_display/location_config.json" in
  let p3 := (home_dir e ++ "/birdnet_display/location_config.json")%string in
  let found la lo :=
    _try_manual_config e files
    = Ok (Some {| latitude := la; longitude := lo;
                  method := Some manual_configuration |}) in
  (forall doc la lo,
     files p1 = Document doc -> manual_doc_location doc la lo ->
     _validate_coordinates la lo = true -> found la lo) /\
  (manual_file_skipped (files p1) ->
   forall doc la lo,
     files p2 = Document doc -> manual_doc_location doc la lo ->
     _validate_coordinates la lo = true -> found la lo) /\
  (manual_file_skipped (files p1) -> manual_file_skipped (files p2) ->
   forall doc la lo,
     files p3 = Document doc -> manual_doc_location doc la lo ->
     _validate_coordinates la lo = true -> found la lo) /\
  (manual_file_skipped (files p1) -> manual_file_skipped (files p2) ->
   manual_file_skipped (files p3) ->
   _try_manual_config e files = Ok None).
Proof.
  cbv zeta. unfold _try_manual_config, config_paths. repeat split.
  - intros doc la lo Hf Hd V. now apply manual_loop_found with doc.
  - intros S1 doc la lo Hf Hd V. rewrite manual_loop_skip by assumption.
    now apply manual_loop_found with doc.
  - intros S1 S2 doc la lo Hf Hd V. rewrite !manual_loop_skip by assumption.
    now apply manual_loop_found with doc.
  - intros S1 S2 S3. now rewrite !manual_loop_skip by assumption.
Qed.

Lemma manual_config_priority_witness :
  _try_manual_config (example_env http_down no_gps (always 0%Z)) files_second_path
  = Ok (Some {| latitude := 34; longitude := -84.3880;
                method := Some manual_configuration |}).
Proof.
  apply (proj1 (proj2 (manual_config_priority
                         (example_env http_down no_gps (always 0%Z)) files_second_path))
           ltac:(left; right; right; reflexivity)
           (manual_file (PInt 34) (PFloat (-84.3880))) 34 (-84.3880) eq_refl).
  - do 4 eexists. repeat split; reflexivity.
  - valid_coords.
Defined.

(** X14: [create_manual_config_template], at its default path and when
    the file can be written, leaves a file that the manual source
    accepts: [_try_manual_config] then returns the template's coordinate
    (33.7490, -84.3880); no other file is touched; when the file cannot
    be opened for writing the function returns False and changes nothing,
    and when the write fails after the open it returns False and only
    that file is changed. *)
Theorem template_is_accepted (e : env) (s : state) :
  (can_write e "location_config.json" = true ->
   exists s' : state,
     create_manual_config_template e "location_config.json" s = (true, s') /\
     _try_manual_config e (fs s')
     = Ok (Some {| latitude := 33.7490; longitude := -84.3880;
                   method := Some manual_configuration |}) /\
     (forall p, p <> "location_config.json" -> fs s' p = fs s p)) /\
  (write_file e "location_config.json" = OpenFails ->
   create_manual_config_template e "location_config.json" s = (false, s)) /\
  (forall remains : file_status,
     write_file e "location_config.json" = WriteFails remains ->
     exists s' : state,
       create_manual_config_template e "location_config.json" s = (false, s') /\
       fs s' "location_config.json" = remains /\
       (forall p, p <> "location_config.json" -> fs s' p = fs s p)).
Proof.
  unfold create_manual_config_template. split; [| split].
  - intros Hw. apply can_write_written in Hw. rewrite Hw.
    eexists. split; [reflexivity |]. cbn [fs]. split.
    + unfold _try_manual_config, config_paths.
      apply manual_loop_found with manual_config_template.
      * apply fs_put_same.
      * do 4 eexists. repeat split; reflexivity.
      * valid_coords.
    + intros p Hp. now apply fs_put_other.
  - intros Hw. now rewrite Hw.
  - intros remains Hw. rewrite Hw. eexists. split; [reflexivity |]. cbn [fs]. split.
    + apply fs_put_same.
    + intros p Hp. now apply fs_put_other.
Qed.

Lemma template_is_accepted_witness :
  (exists s' : state,
     create_manual_config_template (example_env http_down no_gps (always 0%Z))
       "location_config.json" (state_with_config config_unset) = (true, s') /\
     _try_manual_config (example_env http_down no_gps (always 0%Z)) (fs s')
     = Ok (Some {| latitude := 33.7490; longitude := -84.3880;
                   method := Some manual_configuration |})) /\
  (exists s' : state,
     create_manual_config_template env_disk_full
       "location_config.json" (state_with_config config_unset) = (false, s') /\
     fs s' "location_config.json" = Malformed /\
     fs s' BIRDNET_CONFIG_PATH = Document config_unset).
Proof.
  split.
  - destruct (proj1 (template_is_accepted (example_env http_down no_gps (always 0%Z))
                       (state_with_config config_unset)) eq_refl)
      as (s' & Hc & Hm & _).
    exists s'. split; assumption.
  - destruct (proj2 (proj2 (template_is_accepted env_disk_full
                              (state_with_config config_unset))) Malformed eq_refl)
      as (s' & Hc & Hf & Ho).
    exists s'. split; [exact Hc |]. split; [exact Hf |].
    rewrite Ho by discriminate. reflexivity.
Defined.

(** ** The [loc] field of ipinfo.io *)

Lemma string_append_empty_r (a : string) : (a ++ "")%string = a.
Proof. induction a as [| x a IH]; simpl; [reflexivity | now rewrite IH]. Qed.

Lemma split_comma_aux_no_comma (s acc : string) :
  no_comma s = true -> split_comma_aux acc s = [(acc ++ s)%string].
Proof.
  unfold no_comma. revert acc. induction s as [| c s IH]; intros acc H; simpl.
  - now rewrite string_append_empty_r.
  - simpl in H. destruct (Ascii.eqb c ",") eqn:E; [discriminate H |].
    rewrite IH by exact H.
    now rewrite string_append_assoc.
Qed.

Lemma split_comma_aux_length (s acc : string) :
  List.length (split_comma_aux acc s) = S (count_commas s).
Proof.
  revert acc. induction s as [| c s IH]; intros acc; simpl; [reflexivity |].
  destruct (Ascii.eqb c ","); simpl; now rewrite IH.
Qed.

Lemma split_comma_pair (a b : string) :
  no_comma a = true -> no_comma b = true ->
  split_comma (a ++ "," ++ b) = [a; b].
Proof.
  intros Ha Hb. unfold split_comma.
  assert (Hgen : forall acc, split_comma_aux acc (a ++ "," ++ b) = [(acc ++ a)%string; b]).
  { unfold no_comma in Ha. induction a as [| c a IH]; intros acc.
    - cbn [append split_comma_aux]. change (Ascii.eqb "," ",") with true. cbv iota.
      rewrite (split_comma_aux_no_comma b EmptyString Hb). cbn [append].
      now rewrite string_append_empty_r.
    - simpl in Ha. destruct (Ascii.eqb c ",") eqn:E; [discriminate Ha |].
      change ((String c a ++ "," ++ b)%string) with (String c (a ++ "," ++ b)%string).
      cbn [split_comma_aux]. rewrite E, (IH Ha).
      now rewrite string_append_assoc. }
  apply Hgen.
Qed.

(** X15: [_parse_ipinfo_io] turns a [loc] of the form "latitude,longitude"
    (one comma, both parts accepted by float) into that pair; a [loc]
    string with no comma or more than one raises [ValueError]; an answer
    without [loc] gives None. *)
Theorem parse_ipinfo_io_loc (e : env) (d : pydict) :
  (forall (a b : string) (x y : R),
     dict_get "loc" d = Some (PStr (a ++ "," ++ b)) ->
     no_comma a = true -> no_comma b = true ->
     float_of_str e a = Some x -> float_of_str e b = Some y ->
     _parse_ipinfo_io e (PDict d)
     = Ok (Some {| latitude := x; longitude := y; method := Some ipinfo_io |})) /\
  (forall loc : string,
     dict_get "loc" d = Some (PStr loc) -> count_commas loc <> 1%nat ->
     _parse_ipinfo_io e (PDict d) = Raise ValueError) /\
  (dict_get "loc" d = None -> _parse_ipinfo_io e (PDict d) = Ok None).
Proof.
  unfold _parse_ipinfo_io, py_in, dict_mem, py_getitem. repeat split.
  - intros a b x y Hd Ha Hb Fx Fy. rewrite Hd. cbn [bind negb].
    rewrite (split_comma_pair a b Ha Hb). unfold py_float. now rewrite Fx, Fy.
  - intros loc Hd Hc. rewrite Hd. cbn [bind negb].
    pose proof (split_comma_aux_length loc EmptyString) as Hlen.
    fold (split_comma loc) in Hlen.
    destruct (split_comma loc) as [| p [| q [| r t]]]; try reflexivity.
    simpl in Hlen. congruence.
  - intros Hd. now rewrite Hd.
Qed.

Lemma parse_ipinfo_io_loc_witness :
  _parse_ipinfo_io
    {| float_of_str := fun s => if String.eqb s "33.7490" then Some 33.7490
                                else if String.eqb s "-84.3880" then Some (-84.3880)
                                else None;
       fpu := cpython_linux;
       birdnet_go_running := fun _ => true;
       http_get := http_rate_limited;
       systemctl_is_active_gpsd := Ok 3%Z;
       gps_session := Raise ImportError;
       home_dir := "/root";
       cache_builder := always 0%Z;
       timestamp := "20250301_060000";
       write_file := fun _ => Written |}
    (PDict [("city", PStr "Atlanta"); ("loc", PStr "33.7490,-84.3880")])
  = Ok (Some {| latitude := 33.7490; longitude := -84.3880; method := Some ipinfo_io |}) /\
  _parse_ipinfo_io (example_env http_down no_gps (always 0%Z))
    (PDict [("loc", PStr "33.7490")]) = Raise ValueError.
Proof.
  split.
  - apply (proj1 (parse_ipinfo_io_loc _ _) "33.7490" "-84.3880"); reflexivity.
  - apply (proj1 (proj2 (parse_ipinfo_io_loc _ _)) "33.7490"); [reflexivity | discriminate].
Defined.

(** ** What the chain returns *)

Lemma ip_loop_some (e : env)
    (l : list (string * (env -> pyval -> result (option location)))) (loc : location) :
  ip_loop e l = Ok (Some loc) ->
  exists url parser, In (url, parser) l /\ provider_answers e url parser loc.
Proof.
  induction l as [| [url parser] rest IH]; intros H; [discriminate H |].
  cbn [ip_loop] in H.
  destruct (ip_attempt e (url, parser)) as [[loc' |] | x] eqn:E.
  - inversion H; subst. exists url, parser. split; [now left |].
    now apply ip_attempt_some.
  - destruct (IH H) as (u & p & Hin & Ha). exists u, p. split; [now right | exact Ha].
  - destruct (catches _ x); [| discriminate H].
    destruct (IH H) as (u & p & Hin & Ha). exists u, p. split; [now right | exact Ha].
Qed.

Lemma manual_loop_some (e : env) (files : filesystem) (paths : list string) (l : location) :
  manual_loop e files paths = Ok (Some l) ->
  _validate_coordinates (latitude l) (longitude l) = true /\
  method l = Some manual_configuration /\
  exists path doc, In path paths /\ files path = Document doc /\
                   manual_doc_location doc (latitude l) (longitude l).
Proof.
  induction paths as [| path rest IH]; intros H; [discriminate H |].
  cbn [manual_loop] in H.
  assert (Hrest : manual_loop e files rest = Ok (Some l) ->
            _validate_coordinates (latitude l) (longitude l) = true /\
            method l = Some manual_configuration /\
            exists p doc, In p (path :: rest) /\ files p = Document doc /\
                          manual_doc_location doc (latitude l) (longitude l)).
  { intros H'. destruct (IH H') as (V & M & p & doc & Hin & Hf & Hd).
    repeat split; try assumption. exists p, doc. repeat split; auto. now right. }
  destruct (files path) as [| | | config] eqn:Ef; auto.
  destruct (manual_attempt e config) as [[l' |] | x] eqn:E; auto.
  - inversion H; subst. destruct (manual_attempt_some _ _ _ E) as (V & M & Hd).
    repeat split; try assumption. exists path, config. repeat split; auto. now left.
  - destruct (catches _ x); [auto | discriminate H].
Qed.

(** What [detect_location] returns passes the validator. *)
Lemma detect_location_valid_aux (e : env) (files : filesystem) (l : location) :
  detect_location e files = Ok (Some l) ->
  _validate_coordinates (latitude l) (longitude l) = true.
Proof.
  unfold detect_location. intros H.
  destruct (_try_ip_geolocation e) as [[l1 |] | x1] eqn:Eip; cbn [bind] in H;
    [| | discriminate H].
  - inversion H; subst l1. unfold _try_ip_geolocation in Eip.
    destruct (ip_loop_some _ _ _ Eip) as (url & parser & _ & data & _ & _ & V). exact V.
  - destruct (_try_gps_hardware e) as [[l2 |] | x2] eqn:Egps; cbn [bind] in H;
      [| | discriminate H].
    + inversion H; subst l2. unfold _try_gps_hardware in Egps.
      destruct (systemctl_is_active_gpsd e) as [code | x].
      * destruct (negb (code =? 0)%Z); [discriminate Egps |].
        destruct (gps_session e) as [reports |]; [| discriminate Egps].
        assert (Hp : gps_poll 30 reports = Some l) by congruence.
        now destruct (gps_poll_some _ _ _ Hp).
      * destruct (catches _ x); discriminate Egps.
    + destruct (_try_manual_config e files) as [[l3 |] | x3] eqn:Eman; cbn [bind] in H;
        try discriminate H.
      inversion H; subst l3. unfold _try_manual_config in Eman.
      now destruct (manual_loop_some _ _ _ _ Eman).
Qed.

(** X16: whatever [detect_location] returns has coordinates that pass
    the validator and carries the method of the source that produced
    it: an IP provider's answer, a gpsd position fix among the first 30
    reports, or the numbers of a manual configuration file; a GPS result
    means IP geolocation returned None, a manual one that both did. *)
Theorem detect_location_sound (e : env) (files : filesystem) (l : location) :
  detect_location e files = Ok (Some l) ->
  _validate_coordinates (latitude l) (longitude l) = true /\
  ((_try_ip_geolocation e = Ok (Some l) /\
    ((method l = Some ipapi_co /\
      provider_answers e "https://ipapi.co/json/" _parse_ipapi_co l) \/
     (method l = Some ip_api_com /\
      provider_answers e "http://ip-api.com/json/" _parse_ip_api_com l) \/
     (method l = Some ipinfo_io /\
      provider_answers e "https://ipinfo.io/json" _parse_ipinfo_io l))) \/
   (_try_ip_geolocation e = Ok None /\
    _try_gps_hardware e = Ok (Some l) /\
    method l = Some GPS_hardware) \/
   (_try_ip_geolocation e = Ok None /\
    _try_gps_hardware e = Ok None /\
    _try_manual_config e files = Ok (Some l) /\
    method l = Some manual_configuration)).
Proof.
  unfold detect_location. intros H.
  destruct (_try_ip_geolocation e) as [[l1 |] | x1] eqn:Eip; cbn [bind] in H;
    [| | discriminate H].
  - inversion H; subst l1. unfold _try_ip_geolocation, apis in Eip.
    destruct (ip_loop_some _ _ _ Eip) as (url & parser & Hin & Ha).
    assert (V : _validate_coordinates (latitude l) (longitude l) = true)
      by (destruct Ha as (data & _ & _ & V); exact V).
    split; [exact V |]. left. split; [reflexivity |].
    destruct Hin as [Hin | [Hin | [Hin | []]]]; inversion Hin; subst url parser.
    + left. split; [| exact Ha]. destruct Ha as (data & _ & Hp & _).
      now apply parse_ipapi_co_method with e data.
    + right; left. split; [| exact Ha]. destruct Ha as (data & _ & Hp & _).
      now apply parse_ip_api_com_method with e data.
    + right; right. split; [| exact Ha]. destruct Ha as (data & _ & Hp & _).
      now apply parse_ipinfo_io_method with e data.
  - destruct (_try_gps_hardware e) as [[l2 |] | x2] eqn:Egps; cbn [bind] in H;
      [| | discriminate H].
    + inversion H; subst l2.
      assert (Hp : exists reports, gps_poll 30 reports = Some l).
      { unfold _try_gps_hardware in Egps.
        destruct (systemctl_is_active_gpsd e) as [code | x].
        - destruct (negb (code =? 0)%Z); [discriminate Egps |].
          destruct (gps_session e) as [reports |]; [| discriminate Egps].
          exists reports. congruence.
        - destruct (catches _ x); discriminate Egps. }
      destruct Hp as (reports & Hp).
      destruct (gps_poll_some _ _ _ Hp) as (V & M & _).
      split; [exact V |]. right; left. auto.
    + destruct (_try_manual_config e files) as [[l3 |] | x3] eqn:Eman; cbn [bind] in H;
        try discriminate H.
      inversion H; subst l3. unfold _try_manual_config in Eman.
      destruct (manual_loop_some _ _ _ _ Eman) as (V & M & _).
      split; [exact V |]. right; right. auto.
Qed.

Lemma detect_location_sound_witness :
  _validate_coordinates 33.7490 (-84.3880) = true /\
  _try_ip_geolocation env_all_sources
  = Ok (Some {| latitude := 33.7490; longitude := -84.3880; method := Some ipapi_co |}).
Proof.
  assert (H : detect_location env_all_sources
                (files_manual (PFloat 40.7128) (PFloat (-74.0060)))
              = Ok (Some {| latitude := 33.7490; longitude := -84.3880;
                            method := Some ipapi_co |})).
  { apply detect_location_ip_first. apply try_ip_geolocation_ipapi. valid_coords. }
  destruct (detect_location_sound _ _ _ H) as (V & [(Hip & _) | [(_ & _ & M) | (_ & _ & _ & M)]]).
  - split; [exact V | exact Hip].
  - discriminate M.
  - discriminate M.
Defined.

(** * Further properties of the run *)

Lemma wait_loop_spec (e : env) (n : nat) :
  forall i : nat,
    wait_loop e i n = true <->
    exists j : nat, (i <= j < i + n)%nat /\ birdnet_go_running e j = true.
Proof.
  induction n as [| n IH]; intros i; simpl.
  - split; [discriminate | intros (j & Hj & _); lia].
  - destruct (birdnet_go_running e i) eqn:E.
    + split; [| reflexivity]. intros _. exists i. split; [lia | exact E].
    + rewrite IH. split; intros (j & Hj & Hr).
      * exists j. split; [lia | exact Hr].
      * exists j. split; [| exact Hr].
        assert (j <> i) by (intros ->; congruence). lia.
Qed.

(** X17: [wait_for_birdnet_go] returns True exactly when one of the
    first [max_wait_seconds] polls finds BirdNET-Go running. *)
Theorem wait_for_birdnet_go_spec (e : env) (max_wait_seconds : nat) :
  wait_for_birdnet_go e max_wait_seconds = true <->
  exists i : nat, (i < max_wait_seconds)%nat /\ birdnet_go_running e i = true.
Proof.
  unfold wait_for_birdnet_go. rewrite wait_loop_spec.
  split; intros (j & Hj & Hr); exists j; (split; [lia | exact Hr]).
Qed.

Lemma wait_for_birdnet_go_spec_witness :
  wait_for_birdnet_go
    {| float_of_str := fun _ => None;
       fpu := cpython_linux;
       birdnet_go_running := fun i => Nat.eqb i 12;
       http_get := http_down;
       systemctl_is_active_gpsd := Ok 3%Z;
       gps_session := Raise ImportError;
       home_dir := "/root";
       cache_builder := always 0%Z;
       timestamp := "20250301_060000";
       write_file := fun _ => Written |} 30 = true.
Proof.
  apply (proj2 (wait_for_birdnet_go_spec _ 30)).
  exists 12%nat. split; [lia | reflexivity].
Defined.

(** X18: a run ends with exit code 1 and no side effect when BirdNET-Go
    does not answer within 30 polls, when the configuration file is
    absent, unreadable or not YAML, and when reading the stored
    coordinate raises (a document that is not a mapping). *)
Theorem main_preconditions (e : env) (s : state) :
  (wait_for_birdnet_go e 30 = false -> main e s = (1%Z, s)) /\
  (file_unusable (fs s BIRDNET_CONFIG_PATH) -> main e s = (1%Z, s)) /\
  (forall (doc : pyval) (x : exn),
     fs s BIRDNET_CONFIG_PATH = Document doc -> get_location doc = Raise x ->
     main e s = (1%Z, s)).
Proof.
  unfold main, main_try, load. repeat split.
  - intros ->. reflexivity.
  - intros [H | [H | H]]; rewrite H; destruct (wait_for_birdnet_go e 30); reflexivity.
  - intros doc x Hf Hg. rewrite Hf. cbn [negb]. rewrite Hg.
    destruct (wait_for_birdnet_go e 30); reflexivity.
Qed.

Lemma main_preconditions_witness :
  main {| float_of_str := fun _ => None;
          fpu := cpython_linux;
          birdnet_go_running := fun _ => false;
          http_get := http_ipapi (ipapi_body "Atlanta" 33.7490 (-84.3880));
          systemctl_is_active_gpsd := Ok 3%Z;
          gps_session := Raise ImportError;
          home_dir := "/root";
          cache_builder := always 0%Z;
          timestamp := "20250301_060000";
          write_file := fun _ => Written |}
       (state_with_config config_unset)
  = (1%Z, state_with_config config_unset) /\
  main env_all_sources (state_of []) = (1%Z, state_of []) /\
  main env_all_sources (state_with_config (PList [PStr "birdnet"]))
  = (1%Z, state_with_config (PList [PStr "birdnet"])).
Proof.
  split; [| split].
  - apply (proj1 (main_preconditions _ _)). reflexivity.
  - apply (proj1 (proj2 (main_preconditions _ _))). left. reflexivity.
  - apply (proj2 (proj2 (main_preconditions _ _)) (PList [PStr "birdnet"]) AttributeError);
      reflexivity.
Defined.

Lemma step_unchanged_outcome (e : env) (s : state) :
  run_outcome e s (fst (step_unchanged e s)) (snd (step_unchanged e s)).
Proof.
  unfold step_unchanged.
  rewrite run_cache_builder_eq. cbv beta iota.
  rewrite run_cache_builder_eq. cbv beta iota.
  destruct (builder_exit e ["--check-only"] =? 1)%Z.
  - destruct (builder_exit e ["--incremental"] =? 0)%Z;
      [| destruct (builder_exit e ["--incremental"] =? 2)%Z];
      apply CacheRepaired; cbn [fst snd fs log]; auto; now rewrite <- app_assoc.
  - destruct (builder_exit e ["--check-only"] =? 2)%Z;
      apply CacheChecked; cbn [fst snd fs log]; auto.
Qed.

Lemma step_update_outcome (e : env) (config_data : pyval) (l : location) (s : state) :
  path_exists (fs s) BIRDNET_CONFIG_PATH = true ->
  run_outcome e s
    (match fst (step_update e config_data l s) with Ok code => code | Raise _ => 1%Z end)
    (snd (step_update e config_data l s)).
Proof.
  intros Hex. unfold step_update.
  destruct (set_location (latitude l) (longitude l) config_data) as [[[|] | x] config_data'];
    try (apply NothingDone; reflexivity).
  destruct (save e BIRDNET_CONFIG_PATH true config_data' s) as [ok s1] eqn:Hsave.
  pose proof (save_with_backup_cases _ _ _ _ _ _ Hex Hsave) as C. cbv zeta in C.
  destruct C as [(-> & ->) | [(r & -> & Hfs & Hlog) | [(-> & Hfs & Hlog)
                | [(r & -> & Hfs & Hlog) | (-> & _ & Hfs & Hlog)]]]].
  - apply NothingDone; reflexivity.
  - apply BackupInterrupted with r; auto.
  - apply BackupOnly; auto.
  - apply WriteInterrupted with r; auto.
  - rewrite run_cache_builder_eq. cbv beta iota.
    destruct (builder_exit e ["--update-species"; "--incremental"; "--yes"] =? 1)%Z;
      apply Persisted with config_data'; cbn [fst snd fs log]; auto;
      rewrite Hlog; now rewrite <- app_assoc.
Qed.

Lemma main_run_outcome (e : env) (s : state) :
  run_outcome e s (fst (main e s)) (snd (main e s)).
Proof.
  unfold main, main_try, load.
  destruct (wait_for_birdnet_go e 30); cbn [negb]; [| apply NothingDone; reflexivity].
  destruct (fs s BIRDNET_CONFIG_PATH) as [| | | config_data] eqn:Hf; cbn [negb];
    try (apply NothingDone; reflexivity).
  assert (Hex : path_exists (fs s) BIRDNET_CONFIG_PATH = true)
    by (unfold path_exists; now rewrite Hf).
  destruct (get_location config_data) as [current |]; [| apply NothingDone; reflexivity].
  destruct (detect_location e (fs s)) as [detected |]; [| apply NothingDone; reflexivity].
  destruct (match detected with Some l => Some l | None => current end) as [l |];
    [| apply NothingDone; reflexivity].
  destruct (step_check_changed e config_data current l) as [[|] |];
    [| | apply NothingDone; reflexivity].
  - pose proof (step_update_outcome e config_data l s Hex) as O.
    destruct (step_update e config_data l s) as [[code | x] s']; exact O.
  - pose proof (step_unchanged_outcome e s) as O.
    destruct (step_unchanged e s) as [code s']. exact O.
Qed.

(** X19: every run ends in one of seven ways: nothing done and exit
    code 1; the backup copy interrupted after its open, only the backup
    path changed, and exit code 1; only the backup copy made and exit
    code 1; the backup made and the write of the configuration
    interrupted after its open, the configuration file holding what the
    interrupted write left, and exit code 1; backup, then the
    configuration written, then the cache builder run with
    [--update-species], and exit code 0 or 1; only the cache check run,
    nothing written, and exit code 0 or 2; the cache check and the
    incremental repair run, nothing written, and exit code 0, 1 or 2. *)
Theorem main_outcomes (e : env) (s : state) :
  run_outcome e s (fst (main e s)) (snd (main e s)).
Proof. exact (main_run_outcome e s). Qed.

(** X20: consequences for the caller of a run: the exit code is 0, 1 or
    2; exit code 2 means that nothing was written; files other than the
    configuration and its backup are never touched; and the
    configuration is never written without the backup copy before it. *)
Theorem main_exit_code_and_frame (e : env) (s : state) :
  (fst (main e s) = 0%Z \/ fst (main e s) = 1%Z \/ fst (main e s) = 2%Z) /\
  (fst (main e s) = 2%Z -> fs (snd (main e s)) = fs s) /\
  (forall p : string,
     p <> BIRDNET_CONFIG_PATH ->
     p <> (BIRDNET_CONFIG_PATH ++ ".backup_" ++ timestamp e)%string ->
     fs (snd (main e s)) p = fs s p) /\
  (forall doc : pyval,
     In (Wrote BIRDNET_CONFIG_PATH doc) (log (snd (main e s))) ->
     ~ In (Wrote BIRDNET_CONFIG_PATH doc) (log s) ->
     In (Copied BIRDNET_CONFIG_PATH (BIRDNET_CONFIG_PATH ++ ".backup_" ++ timestamp e)%string)
        (log (snd (main e s))) /\
     fs (snd (main e s)) (BIRDNET_CONFIG_PATH ++ ".backup_" ++ timestamp e)%string
     = fs s BIRDNET_CONFIG_PATH).
Proof.
  pose proof (backup_path_fresh e BIRDNET_CONFIG_PATH) as Hfresh.
  pose proof (main_run_outcome e s) as O.
  set (code := fst (main e s)) in *. set (s' := snd (main e s)) in *.
  assert (Hnew : forall (doc : pyval) (l : list event),
            log s' = (log s ++ l)%list ->
            In (Wrote BIRDNET_CONFIG_PATH doc) (log s') ->
            ~ In (Wrote BIRDNET_CONFIG_PATH doc) (log s) ->
            In (Wrote BIRDNET_CONFIG_PATH doc) l).
  { intros doc l Hl Hin Hnot. rewrite Hl in Hin.
    apply in_app_or in Hin. tauto. }
  split; [| split; [| split]].
  - destruct O; lia.
  - intros H2.
    destruct O as [Hc Hs | r Hc Hl Hfs | Hc Hl Hfs | r Hc Hl Hfs | doc Hc Hl Hfs
                  | Hc Hl Hfs | Hc Hl Hfs];
      try lia; assumption.
  - intros p Hp Hb.
    destruct O as [Hc Hs | r Hc Hl Hfs | Hc Hl Hfs | r Hc Hl Hfs | doc Hc Hl Hfs
                  | Hc Hl Hfs | Hc Hl Hfs];
      rewrite ?Hs, ?Hfs; try reflexivity;
      now rewrite ?fs_put_other by assumption.
  - intros doc' Hin Hnot.
    destruct O as [Hc Hs | r Hc Hl Hfs | Hc Hl Hfs | r Hc Hl Hfs | doc Hc Hl Hfs
                  | Hc Hl Hfs | Hc Hl Hfs].
    + rewrite Hs in Hin. contradiction.
    + apply (Hnew _ _ Hl) in Hin; [| assumption].
      simpl in Hin. destruct Hin as [Hin | []]. discriminate Hin.
    + apply (Hnew _ _ Hl) in Hin; [| assumption].
      simpl in Hin. destruct Hin as [Hin | []]. discriminate Hin.
    + apply (Hnew _ _ Hl) in Hin; [| assumption].
      simpl in Hin. destruct Hin as [Hin | [Hin | []]]; discriminate Hin.
    + split.
      * rewrite Hl. apply in_or_app. right. now left.
      * rewrite Hfs. rewrite fs_put_other by assumption. apply fs_put_same.
    + apply (Hnew _ _ Hl) in Hin; [| assumption].
      simpl in Hin. destruct Hin as [Hin | []]. discriminate Hin.
    + apply (Hnew _ _ Hl) in Hin; [| assumption].
      simpl in Hin. destruct Hin as [Hin | [Hin | []]]; discriminate Hin.
Qed.

Lemma main_exit_code_and_frame_witness :
  (fst (main env_all_sources (state_with_config (config_at 40.7128 (-74.0060)))) = 0%Z \/
   fst (main env_all_sources (state_with_config (config_at 40.7128 (-74.0060)))) = 1%Z \/
   fst (main env_all_sources (state_with_config (config_at 40.7128 (-74.0060)))) = 2%Z) /\
  fs (snd (main env_all_sources (state_with_config (config_at 40.7128 (-74.0060)))))
     "location_config.json" = Missing.
Proof.
  destruct (main_exit_code_and_frame env_all_sources
              (state_with_config (config_at 40.7128 (-74.0060)))) as (Hc & _ & Hf & _).
  split; [exact Hc |].
  rewrite Hf by discriminate. reflexivity.
Defined.

(** The state a first-time run leaves behind. *)
Lemma first_time_run_state (e : env) (s : state) (d : pydict) (new : location) :
  wait_for_birdnet_go e 30 = true ->
  fs s BIRDNET_CONFIG_PATH = Document (PDict d) ->
  get_location (PDict d) = Ok None ->
  detect_location e (fs s) = Ok (Some new) ->
  is_config_mapping (PDict d) = true ->
  _validate_coordinates (latitude new) (longitude new) = true ->
  can_write e BIRDNET_CONFIG_PATH = true ->
  can_write e (BIRDNET_CONFIG_PATH ++ ".backup_" ++ timestamp e)%string = true ->
  let written :=
    PDict (dict_set "birdnet"
             (PDict (dict_set "longitude" (PFloat (longitude new))
                       (dict_set "latitude" (PFloat (latitude new))
                          (birdnet_section_of d)))) d) in
  main e s =
    ((if (builder_exit e ["--update-species"; "--incremental"; "--yes"] =? 1)%Z
      then 1%Z else 0%Z),
     {| fs := fs_put BIRDNET_CONFIG_PATH (Document written)
                (fs_put (BIRDNET_CONFIG_PATH ++ ".backup_" ++ timestamp e)%string
                   (Document (PDict d)) (fs s));
        log := (log s ++
                [ Copied BIRDNET_CONFIG_PATH
                    (BIRDNET_CONFIG_PATH ++ ".backup_" ++ timestamp e)%string;
                  Wrote BIRDNET_CONFIG_PATH written;
                  RanCacheBuilder ["--update-species"; "--incremental"; "--yes"] ])%list |}).
Proof.
  intros Hw Hf Hg Hd Hm V Wc Wb. cbv zeta.
  apply validate_coordinates_true_iff in V. destruct V as (L1 & L2 & _).
  rewrite (main_resolved e s (PDict d) Hw Hf None (Some new) new Hg Hd eq_refl).
  unfold step_check_changed, step_update.
  rewrite set_location_closed_form by assumption.
  apply can_write_written in Wc. apply can_write_written in Wb.
  unfold save, path_exists, copy2, write_yaml. rewrite Hf. cbn [andb].
  rewrite Wb. cbv beta iota. rewrite Wc. cbv beta iota.
  rewrite run_cache_builder_eq. cbn [fs log].
  rewrite <- !app_assoc. cbn [app].
  destruct (builder_exit e ["--update-species"; "--incremental"; "--yes"] =? 1)%Z;
    reflexivity.
Qed.

(** X21: a first-time run (no valid stored coordinate, a configuration
    mapping, a resolved location, writable files) copies the old
    configuration to the backup, writes a configuration whose stored
    coordinate is the resolved one, and runs the cache builder; the exit
    code is 1 when the cache builder exits with 1 and 0 otherwise, the
    coordinate being written in both cases. *)
Theorem first_time_run_persists (e : env) (s : state) (config_data : pyval)
    (new : location) :
  wait_for_birdnet_go e 30 = true ->
  fs s BIRDNET_CONFIG_PATH = Document config_data ->
  get_location config_data = Ok None ->
  detect_location e (fs s) = Ok (Some new) ->
  is_config_mapping config_data = true ->
  can_write e BIRDNET_CONFIG_PATH = true ->
  can_write e (BIRDNET_CONFIG_PATH ++ ".backup_" ++ timestamp e)%string = true ->
  exists (code : Z) (s' : state) (written : pyval),
    main e s = (code, s') /\
    (builder_exit e ["--update-species"; "--incremental"; "--yes"] = 1%Z -> code = 1%Z) /\
    (builder_exit e ["--update-species"; "--incremental"; "--yes"] <> 1%Z -> code = 0%Z) /\
    fs s' BIRDNET_CONFIG_PATH = Document written /\
    get_location written
    = Ok (Some {| latitude := latitude new; longitude := longitude new; method := None |}) /\
    fs s' (BIRDNET_CONFIG_PATH ++ ".backup_" ++ timestamp e)%string = Document config_data /\
    log s' = (log s ++
              [ Copied BIRDNET_CONFIG_PATH
                  (BIRDNET_CONFIG_PATH ++ ".backup_" ++ timestamp e)%string;
                Wrote BIRDNET_CONFIG_PATH written;
                RanCacheBuilder ["--update-species"; "--incremental"; "--yes"] ])%list.
Proof.
  intros Hw Hf Hg Hd Hm Wc Wb.
  assert (V : _validate_coordinates (latitude new) (longitude new) = true)
    by exact (detect_location_valid_aux e (fs s) new Hd).
  destruct config_data as [| | | | | | d]; try discriminate Hm.
  pose proof (first_time_run_state e s d new Hw Hf Hg Hd Hm V Wc Wb) as Hmain.
  cbv zeta in Hmain.
  do 3 eexists. split; [exact Hmain |]. cbn [fs log].
  split; [intros ->; reflexivity |].
  split.
  { intros Hne.
    destruct (Z.eqb_spec (builder_exit e ["--update-species"; "--incremental"; "--yes"]) 1);
      [contradiction | reflexivity]. }
  split; [apply fs_put_same |].
  split; [rewrite get_location_written; now rewrite V |].
  split; [| reflexivity].
  rewrite fs_put_other by apply backup_path_fresh. apply fs_put_same.
Qed.

Lemma first_time_run_persists_witness :
  exists (s' : state) (written : pyval),
    main (example_env (http_ipapi (ipapi_body "Atlanta" 33.7490 (-84.3880))) no_gps
            (always 0%Z))
         (state_with_config config_unset) = (0%Z, s') /\
    fs s' BIRDNET_CONFIG_PATH = Document written /\
    get_location written
    = Ok (Some {| latitude := 33.7490; longitude := -84.3880; method := None |}) /\
    fs s' (BIRDNET_CONFIG_PATH ++ ".backup_20250301_060000")%string = Document config_unset.
Proof.
  destruct (first_time_run_persists
              (example_env (http_ipapi (ipapi_body "Atlanta" 33.7490 (-84.3880))) no_gps
                 (always 0%Z))
              (state_with_config config_unset) config_unset
              {| latitude := 33.7490; longitude := -84.3880; method := Some ipapi_co |}
              eq_refl eq_refl get_location_config_unset
              (detect_location_ip_first _ _ _
                 (try_ip_geolocation_ipapi "Atlanta" 33.7490 (-84.3880) no_gps (always 0%Z)
                    (proj2 (validate_coordinates_true_iff 33.7490 (-84.3880)) ltac:(lra))))
              eq_refl eq_refl eq_refl)
    as (code & s' & written & Hmain & _ & Hcode & Hf & Hg & Hb & _).
  exists s', written. rewrite Hmain. rewrite (Hcode ltac:(discriminate)).
  repeat split; assumption.
Defined.



(** The template at the first manual path resolves to its coordinate. *)
Lemma try_manual_config_template (e : env) (files : filesystem) :
  files "location_config.json" = Document manual_config_template ->
  _try_manual_config e files
  = Ok (Some {| latitude := 33.7490; longitude := -84.3880;
                method := Some manual_configuration |}).
Proof.
  intros Hf. unfold _try_manual_config, config_paths.
  apply manual_loop_found with manual_config_template.
  - exact Hf.
  - do 4 eexists. repeat split; reflexivity.
  - valid_coords.
Qed.

(** X23: the remedy that [main] suggests works: a run that finds no
    location anywhere and no stored coordinate exits with 1 and does
    nothing; after [create_manual_config_template] has written its file,
    the next run resolves the template's coordinate from it, writes it to
    the configuration and, unless the cache builder fails, exits with
    0. *)
Theorem template_remedies_failed_run (e : env) (s : state) (config_data : pyval) :
  wait_for_birdnet_go e 30 = true ->
  fs s BIRDNET_CONFIG_PATH = Document config_data ->
  get_location config_data = Ok None ->
  is_config_mapping config_data = true ->
  _try_ip_geolocation e = Ok None ->
  _try_gps_hardware e = Ok None ->
  _try_manual_config e (fs s) = Ok None ->
  can_write e "location_config.json" = true ->
  can_write e BIRDNET_CONFIG_PATH = true ->
  can_write e (BIRDNET_CONFIG_PATH ++ ".backup_" ++ timestamp e)%string = true ->
  builder_exit e ["--update-species"; "--incremental"; "--yes"] <> 1%Z ->
  main e s = (1%Z, s) /\
  exists (s1 s2 : state) (written : pyval),
    create_manual_config_template e "location_config.json" s = (true, s1) /\
    main e s1 = (0%Z, s2) /\
    fs s2 BIRDNET_CONFIG_PATH = Document written /\
    get_location written
    = Ok (Some {| latitude := 33.7490; longitude := -84.3880; method := None |}).
Proof.
  intros Hw Hf Hg Hm Hip Hgps Hman W0 Wc Wb Hb.
  split.
  - apply main_no_location with config_data; try assumption.
    unfold detect_location. now rewrite Hip, Hgps, Hman.
  - unfold create_manual_config_template.
    rewrite (proj1 (can_write_written e "location_config.json") W0).
    eexists.
    match goal with
    | |- exists s2 written, (true, ?s1') = (true, _) /\ _ =>
        set (s1 := s1')
    end.
    assert (Hf1 : fs s1 BIRDNET_CONFIG_PATH = Document config_data).
    { unfold s1. cbn [fs]. rewrite fs_put_other by discriminate. exact Hf. }
    assert (Hd1 : detect_location e (fs s1)
                  = Ok (Some {| latitude := 33.7490; longitude := -84.3880;
                                method := Some manual_configuration |})).
    { unfold detect_location. rewrite Hip, Hgps. cbn [bind].
      rewrite (try_manual_config_template e (fs s1)); [reflexivity |].
      unfold s1. cbn [fs]. apply fs_put_same. }
    destruct config_data as [| | | | | | d]; try discriminate Hm.
    pose proof (first_time_run_state e s1 d _ Hw Hf1 Hg Hd1 Hm
                  (proj2 (validate_coordinates_true_iff 33.7490 (-84.3880)) ltac:(lra))
                  Wc Wb) as Hmain.
    cbv zeta in Hmain. cbn [latitude longitude] in Hmain.
    destruct (Z.eqb_spec (builder_exit e ["--update-species"; "--incremental"; "--yes"]) 1)
      as [E | _]; [contradiction |].
    do 2 eexists. split; [reflexivity |]. split; [exact Hmain |]. cbn [fs].
    split; [apply fs_put_same |].
    rewrite get_location_written.
    now rewrite (proj2 (validate_coordinates_true_iff 33.7490 (-84.3880))) by lra.
Qed.

Lemma template_remedies_failed_run_witness :
  main (example_env http_down no_gps (always 0%Z)) (state_with_config config_unset)
  = (1%Z, state_with_config config_unset) /\
  exists (s1 s2 : state) (written : pyval),
    create_manual_config_template (example_env http_down no_gps (always 0%Z))
      "location_config.json" (state_with_config config_unset) = (true, s1) /\
    main (example_env http_down no_gps (always 0%Z)) s1 = (0%Z, s2) /\
    fs s2 BIRDNET_CONFIG_PATH = Document written /\
    get_location written
    = Ok (Some {| latitude := 33.7490; longitude := -84.3880; method := None |}).
Proof.
  apply (template_remedies_failed_run
           (example_env http_down no_gps (always 0%Z))
           (state_with_config config_unset) config_unset
           eq_refl eq_refl get_location_config_unset eq_refl
           eq_refl eq_refl eq_refl eq_refl eq_refl eq_refl).
  discriminate.
Defined.
